(** * Metasys export parser: a shallow embedding of [parse.py]

    The development follows the source file top to bottom: the two
    normalisers built on regular expressions ([drop_units], [drop_prefix]),
    the table builder ([parse]), the day bucketer ([group_key]) and the
    summariser ([summarize]).

    Conventions of the embedding.
    - A Python [str] is a [string]; its characters are code points below 256,
      so that [\d] is exactly the ten ASCII digits.
    - A Python [float] is an IEEE-754 binary64 value, [spec_float] with
      [prec = 53] and [emax = 1024]; [np.nan], the missing marker, is
      [S754_nan].
    - A raised exception is the [Raise] constructor of [result].
    - pandas and the [re] module are libraries the program calls; they are
      embedded by their documented behaviour, each definition naming the
      call it stands for. *)

From Stdlib Require Import ZArith Bool Ascii String.
From Stdlib Require Import List Sorted Lia PeanoNat SpecFloat.
Import ListNotations.

Set Implicit Arguments.

(* ================================================================= *)
(** * The program *)

(* ================================================================= *)
(** ** Exceptions *)

Inductive exn : Type :=
| ValueError (msg : string)
| KeyError (key : string)
| AttributeError (msg : string)
| TypeError (msg : string)
| Unsupported (what : string).

Inductive result (A : Type) : Type :=
| Ok (a : A)
| Raise (e : exn).

Arguments Ok {A} a.
Arguments Raise {A} e.

(* ================================================================= *)
(** ** Floats *)

Definition prec : Z := 53.
Definition emax : Z := 1024.

Definition float : Type := spec_float.

Definition nan : float := S754_nan.

Definition is_nan (x : float) : bool :=
  match x with S754_nan => true | _ => false end.

Definition is_finite (x : float) : bool :=
  match x with S754_zero _ | S754_finite _ _ _ => true | _ => false end.

Definition is_zero (x : float) : bool :=
  match x with S754_zero _ => true | _ => false end.

Definition float_sub : float -> float -> float := SFsub prec emax.
Definition float_mul : float -> float -> float := SFmul prec emax.
Definition float_ltb : float -> float -> bool := SFltb.
Definition float_leb : float -> float -> bool := SFleb.
Definition float_eqb : float -> float -> bool := SFeqb.

(** The binary64 value nearest to [n / d] (ties to even), for [0 <= n]:
    the quotient is computed with enough bits and its remainder decides the
    rounding, as for a float division, but on integers of any size. *)
Definition float_of_ratio (n : Z) (d : positive) : float :=
  match n with
  | Z0 => S754_zero false
  | Zpos _ =>
      let '(q, e, l) := SFdiv_core_binary prec emax n 0 (Zpos d) 0 in
      binary_round_aux prec emax false q e l
  | Zneg _ => nan
  end.

(** An integer as a float, rounded to nearest. *)
Definition float_of_Z (n : Z) : float := binary_normalize prec emax n 0 false.

(* ================================================================= *)
(** ** Characters and strings *)

Definition chars : Type := list ascii.

Definition code (c : ascii) : N := N_of_ascii c.

Definition is_digit (c : ascii) : bool :=
  ((48 <=? code c) && (code c <=? 57))%N.

Definition is_alpha (c : ascii) : bool :=
  (((97 <=? code c) && (code c <=? 122)) || ((65 <=? code c) && (code c <=? 90)))%N.

Definition is_dot (c : ascii) : bool := Ascii.eqb c ".".
Definition is_space (c : ascii) : bool := Ascii.eqb c " ".
Definition not_newline (c : ascii) : bool := negb (N.eqb (code c) 10).

Definition digit_value (c : ascii) : Z := (Z.of_N (code c) - 48)%Z.

(** Value of a digit string read in base ten. *)
Definition decimal_value (ds : chars) : Z :=
  fold_left (fun acc c => (10 * acc + digit_value c)%Z) ds 0%Z.

(* ================================================================= *)
(** ** The [re] module: a backtracking matcher

    Only the constructs the two patterns use are embedded.  [exec] returns
    every way of matching a prefix of the subject, most preferred first
    (greedy operators try the longer match first), each as the unread suffix
    together with the text group 1 captured so far. *)

Module Re.

Inductive regex : Type :=
| Eps
| Class (p : ascii -> bool)
| Cat (r1 r2 : regex)
| Opt (r : regex)
| Star (r : regex)
| Group (r : regex)
| Bos
| Eos.

Definition Plus (r : regex) : regex := Cat r (Star r).

Definition Lit (s : string) : regex :=
  fold_right (fun c r => Cat (Class (Ascii.eqb c)) r) Eps
             (list_ascii_of_string s).

Definition capture : Type := option chars.
Definition thread : Type := (chars * capture)%type.

Section Iterate.
Variable step : chars -> capture -> list thread.

(** Greedy repetition: one more round (which must consume something),
    else stop here. *)
Fixpoint iterate (fuel : nat) (s : chars) (g : capture) : list thread :=
  match fuel with
  | O => [(s, g)]
  | S fuel' =>
      flat_map (fun t : thread =>
                  if length (fst t) <? length s
                  then iterate fuel' (fst t) (snd t)
                  else [])
               (step s g)
      ++ [(s, g)]
  end.
End Iterate.

Definition consumed (s s' : chars) : chars :=
  firstn (length s - length s') s.

(** [n0] is the length of the whole subject, for [\A]. *)
Fixpoint exec (n0 : nat) (r : regex) (s : chars) (g : capture)
  : list thread :=
  match r with
  | Eps => [(s, g)]
  | Class p =>
      match s with
      | c :: s' => if p c then [(s', g)] else []
      | [] => []
      end
  | Cat r1 r2 =>
      flat_map (fun t : thread => exec n0 r2 (fst t) (snd t))
               (exec n0 r1 s g)
  | Opt r1 => exec n0 r1 s g ++ [(s, g)]
  | Star r1 => iterate (exec n0 r1) (length s) s g
  | Group r1 =>
      map (fun t : thread => (fst t, Some (consumed s (fst t))))
          (exec n0 r1 s g)
  | Bos => if length s =? n0 then [(s, g)] else []
  | Eos => match s with [] => [(s, g)] | _ => [] end
  end.

(** [pattern.match(subject)]: the preferred match at position 0, as the
    text of group 1 ([None] when the group did not take part);
    [None] is Python's [None]. *)
Definition re_match (pattern : regex) (subject : string)
  : option capture :=
  let s := list_ascii_of_string subject in
  match exec (length s) pattern s None with
  | t :: _ => Some (snd t)
  | [] => None
  end.

End Re.

Import Re.

(* ================================================================= *)
(** ** [float(text)] *)

Fixpoint span (p : ascii -> bool) (s : chars) : chars * chars :=
  match s with
  | c :: s' =>
      if p c then let '(a, b) := span p s' in (c :: a, b) else ([], s)
  | [] => ([], [])
  end.

Definition pow10 (n : nat) : positive := Z.to_pos (10 ^ Z.of_nat n).

(** Python's [float] on a plain decimal literal: digits, then optionally a
    point and digits, with a digit somewhere.  The conversion is correctly
    rounded, and a literal too large for binary64 gives infinity.  Python
    reads further forms (sign, exponent, blanks, [inf], [nan]) and raises
    [ValueError] on the rest; the program never passes any of those, and the
    embedding answers [Unsupported] for them. *)
Definition python_float (text : chars) : result float :=
  let '(int_part, rest) := span is_digit text in
  match rest with
  | [] =>
      match int_part with
      | [] => Raise (ValueError "could not convert string to float")
      | _ => Ok (float_of_ratio (decimal_value int_part) 1)
      end
  | c :: frac_part =>
      if is_dot c && forallb is_digit frac_part
         && negb ((length int_part + length frac_part) =? 0)
      then Ok (float_of_ratio (decimal_value (int_part ++ frac_part))
                              (pow10 (length frac_part)))
      else Raise (Unsupported "float")
  end.

(* ================================================================= *)
(** ** The two normalisers *)

(** A column label: a name, or [np.nan]. *)
Inductive label : Type :=
| Name (s : string)
| NaNLabel.

(** The pattern of [drop_prefix]: start of text, the site prefix taken
    literally, group 1 made of any characters but newline (greedy), end of
    text. *)
Definition prefix_pattern : regex :=
  Cat Bos
      (Cat (Lit "Town Of Andover:AHS-NAE1/FEC Bus2.")
           (Cat (Group (Star (Class not_newline))) Eos)).

(** The pattern of [drop_units]: start of text, group 1 made of digits
    (greedy), an optional point and one or more digits, then an optional
    blank, ASCII letters (greedy), end of text. *)
Definition units_pattern : regex :=
  Cat Bos
      (Cat (Group (Cat (Star (Class is_digit))
                       (Cat (Opt (Class is_dot)) (Plus (Class is_digit)))))
           (Cat (Opt (Class is_space))
                (Cat (Star (Class is_alpha)) Eos))).

(** [match.group(1)]; a group that took no part is Python's [None]. *)
Definition group1 (g : capture) : result chars :=
  match g with
  | Some text => Ok text
  | None => Raise (TypeError "group 1 is None")
  end.

Definition drop_prefix (variable_name : string) : result label :=
  match re_match prefix_pattern variable_name with
  | None => Ok NaNLabel
  | Some g =>
      match group1 g with
      | Ok text => Ok (Name (string_of_list_ascii text))
      | Raise e => Raise e
      end
  end.

Definition drop_units (value : string) : result float :=
  match re_match units_pattern value with
  | None => Ok nan
  | Some g =>
      match group1 g with
      | Ok text => python_float text
      | Raise e => Raise e
      end
  end.

(* ================================================================= *)
(** ** The error monad *)

Definition result_bind {A B : Type} (c : result A) (k : A -> result B)
  : result B :=
  match c with
  | Ok a => k a
  | Raise e => Raise e
  end.

Notation "'try' x <- c ;; k" := (result_bind c (fun x => k))
  (at level 61, x name, c at next level, right associativity).

Fixpoint map_result {A B : Type} (f : A -> result B) (l : list A)
  : result (list B) :=
  match l with
  | [] => Ok []
  | a :: l' =>
      try b <- f a ;;
      try bs <- map_result f l' ;;
      Ok (b :: bs)
  end.

(* ================================================================= *)
(** ** Dates and times

    A pandas [Timestamp] is a count of nanoseconds since 1970-01-01 00:00
    (no time zone); a [datetime.date] is a count of days since 1970-01-01;
    a [datetime.timedelta] is a count of microseconds.  Timestamps are taken
    away from the two ends of the 64-bit nanosecond range, where pandas'
    checked arithmetic raises. *)

Definition Timestamp : Type := Z.
Definition date : Type := Z.
Definition timedelta : Type := Z.

Local Open Scope Z_scope.

Definition ns_per_us : Z := 1000.
Definition us_per_minute : Z := 60 * 1000000.
Definition us_per_hour : Z := 60 * us_per_minute.
Definition us_per_day : Z := 24 * us_per_hour.
Definition ns_per_day : Z := us_per_day * ns_per_us.

(** [datetime.time(hour=..., minute=...)] *)
Record time : Type := { hour : Z; minute : Z }.

Definition valid_time (t : time) : bool :=
  (0 <=? hour t) && (hour t <=? 23) && (0 <=? minute t) && (minute t <=? 59).

(** Proleptic Gregorian calendar: day number of a civil date, and back. *)
Definition days_from_civil (y m d : Z) : date :=
  let y' := if m <=? 2 then y - 1 else y in
  let era := y' / 400 in
  let yoe := y' - era * 400 in
  let mp := (m + 9) mod 12 in
  let doy := (153 * mp + 2) / 5 + d - 1 in
  let doe := yoe * 365 + yoe / 4 - yoe / 100 + doy in
  era * 146097 + doe - 719468.

Definition civil_from_days (z : date) : Z * Z * Z :=
  let z' := z + 719468 in
  let era := z' / 146097 in
  let doe := z' - era * 146097 in
  let yoe := (doe - doe / 1460 + doe / 36524 - doe / 146096) / 365 in
  let doy := doe - (365 * yoe + yoe / 4 - yoe / 100) in
  let mp := (5 * doy + 2) / 153 in
  let d := doy - (153 * mp + 2) / 5 + 1 in
  let m := if mp <? 10 then mp + 3 else mp - 9 in
  let y := yoe + era * 400 in
  (if m <=? 2 then y + 1 else y, m, d).

Definition is_leap (y : Z) : bool :=
  ((y mod 4 =? 0) && negb (y mod 100 =? 0)) || (y mod 400 =? 0).

Definition days_in_month (y m : Z) : Z :=
  if m =? 2 then (if is_leap y then 29 else 28)
  else if (m =? 4) || (m =? 6) || (m =? 9) || (m =? 11) then 30
  else 31.

Definition make_timestamp (y m d H M : Z) : Timestamp :=
  days_from_civil y m d * ns_per_day
  + (H * us_per_hour + M * us_per_minute) * ns_per_us.

(** [Timestamp.date()] and the time of day, in nanoseconds. *)
Definition date_of (ts : Timestamp) : date := ts / ns_per_day.
Definition time_of_day_ns (ts : Timestamp) : Z := ts mod ns_per_day.

(** [timedelta(hours=time.hour, minutes=time.minute)]; on [None] the
    attribute access fails. *)
Definition _timedelta_since_midnight (t : option time) : result timedelta :=
  match t with
  | Some t => Ok (hour t * us_per_hour + minute t * us_per_minute)
  | None => Raise (AttributeError "'NoneType' object has no attribute 'hour'")
  end.

(** Python rounds a quotient of integers to nearest, ties to even, when a
    [timedelta] is multiplied by a float: [0.5 * td] is
    [_divide_and_round(td, 2)], since [0.5] is the ratio 1/2. *)
Definition _divide_and_round (a b : Z) : Z :=
  let q := a / b in
  let r := a mod b in
  if (2 * r >? b) || ((2 * r =? b) && Z.odd q) then q + 1 else q.

Definition timedelta_rmul_half (td : timedelta) : timedelta :=
  _divide_and_round td 2.

(** [DatetimeIndex.shift(periods, freq)] with a [timedelta] for [freq]:
    every entry moves by [periods * freq]. *)
Definition index_shift (periods : Z) (freq : timedelta) (idx : list Timestamp)
  : list Timestamp :=
  map (fun ts => ts + periods * freq * ns_per_us) idx.

(** [DatetimeIndex.date] *)
Definition index_date (idx : list Timestamp) : list date := map date_of idx.

(** Microseconds since midnight, of a [datetime.time] and of an index
    entry (pandas drops the nanoseconds below the microsecond). *)
Definition time_micros (t : time) : Z :=
  hour t * us_per_hour + minute t * us_per_minute.

Definition timestamp_micros (ts : Timestamp) : Z :=
  time_of_day_ns ts / ns_per_us.

(** [DatetimeIndex.indexer_between_time(start_time, end_time)] with its
    defaults [include_start=True, include_end=True]: the positions of the
    entries whose time of day lies between the two, both ends included; when
    the start is later than the end the interval wraps around midnight. *)
Definition between_time (start_time end_time : time) (ts : Timestamp) : bool :=
  let t := timestamp_micros ts in
  let lo := time_micros start_time <=? t in
  let hi := t <=? time_micros end_time in
  if time_micros start_time <=? time_micros end_time
  then lo && hi
  else lo || hi.

Fixpoint positions_from (p : Timestamp -> bool) (i : nat) (idx : list Timestamp)
  : list nat :=
  match idx with
  | [] => []
  | ts :: idx' =>
      if p ts then i :: positions_from p (S i) idx'
      else positions_from p (S i) idx'
  end.

Definition indexer_between_time (idx : list Timestamp)
           (start_time end_time : time) : list nat :=
  positions_from (between_time start_time end_time) 0%nat idx.

(** Fields of a timestamp text: digits separated by [/], [/], a blank and
    [:]. *)
Definition one_or_two (ds : chars) : bool :=
  ((length ds =? 1) || (length ds =? 2))%nat.

Definition expect (c : ascii) (s : chars) : option chars :=
  match s with
  | c' :: s' => if Ascii.eqb c c' then Some s' else None
  | [] => None
  end.

Definition timestamp_fields (s : chars)
  : option (chars * chars * chars * chars * chars) :=
  let '(a, s1) := span is_digit s in
  match expect "/" s1 with
  | None => None
  | Some s2 =>
      let '(b, s3) := span is_digit s2 in
      match expect "/" s3 with
      | None => None
      | Some s4 =>
          let '(y, s5) := span is_digit s4 in
          match expect " " s5 with
          | None => None
          | Some s6 =>
              let '(H, s7) := span is_digit s6 in
              match expect ":" s7 with
              | None => None
              | Some s8 =>
                  let '(M, s9) := span is_digit s8 in
                  match s9 with
                  | [] => Some (a, b, y, H, M)
                  | _ => None
                  end
              end
          end
      end
  end.

(** [pd.to_datetime(text, dayfirst=True)] on the export's timestamps,
    [D/M/YYYY H:MM]: one or two digits for the day, the month and the hour.
    With [dayfirst] the first field is the day whenever the second can be a
    month.  pandas reads many other shapes, and what it does with a second
    field above 12 has changed between releases: the embedding answers
    [Unsupported] for those, and for years outside 1678..2261. *)
Definition to_datetime (text : string) : result Timestamp :=
  match timestamp_fields (list_ascii_of_string text) with
  | Some (a, b, y, H, M) =>
      if one_or_two a && one_or_two b && (length y =? 4)%nat
         && one_or_two H && (length M =? 2)%nat
         && (decimal_value b <=? 12)
         && (1678 <=? decimal_value y) && (decimal_value y <=? 2261)
      then
        let day := decimal_value a in
        let month := decimal_value b in
        let year := decimal_value y in
        if (1 <=? month) && (1 <=? day) && (day <=? days_in_month year month)
           && (decimal_value H <=? 23) && (decimal_value M <=? 59)
        then Ok (make_timestamp year month day
                                (decimal_value H) (decimal_value M))
        else Raise (ValueError "time data out of range")
      else Raise (Unsupported "to_datetime")
  | None => Raise (Unsupported "to_datetime")
  end.

(* ================================================================= *)
(** ** Tables

    A [DataFrame] has a row index, column labels and one row of cells per
    index entry.  The index of a Measurement Table holds timestamps, the
    index of a Summary Table holds dates; both are integers here. *)

Record DataFrame : Type :=
  { index : list Z;
    columns : list label;
    data : list (list float) }.

Definition cell (df : DataFrame) (i j : nat) : float :=
  nth j (nth i (data df) []) nan.

Definition label_eqb (a b : label) : bool :=
  match a, b with
  | Name s, Name t => String.eqb s t
  | NaNLabel, NaNLabel => true
  | _, _ => false
  end.

Fixpoint list_eqb {A : Type} (eqb : A -> A -> bool) (l1 l2 : list A) : bool :=
  match l1, l2 with
  | [], [] => true
  | a :: l1', b :: l2' => eqb a b && list_eqb eqb l1' l2'
  | _, _ => false
  end.

(** Sorted list of the distinct elements of a list, for a three-way
    comparison. *)
Section SortedUnique.
Variable A : Type.
Variable cmp : A -> A -> comparison.

Fixpoint insert (x : A) (l : list A) : list A :=
  match l with
  | [] => [x]
  | y :: l' =>
      match cmp x y with
      | Lt => x :: l
      | Eq => l
      | Gt => y :: insert x l'
      end
  end.

Definition sorted_unique (l : list A) : list A := fold_right insert [] l.
End SortedUnique.

(** Python compares tuples field by field, and strings by code point. *)
Definition key : Type := (string * string)%type.

Definition key_compare (a b : key) : comparison :=
  match String.compare (fst a) (fst b) with
  | Eq => String.compare (snd a) (snd b)
  | c => c
  end.

Definition key_eqb (a b : key) : bool :=
  String.eqb (fst a) (fst b) && String.eqb (snd a) (snd b).

(* ================================================================= *)
(** ** [parse] *)

(** One row of the export, as [read_csv] sees it: the two index columns and
    the text of the [Object Value] column. *)
Record raw_record : Type :=
  { timestamp : string;
    variable : string;
    object_value : string }.

(** The Series [read_csv(...)['Object Value']]: a two-level index and the
    converted values, in file order. *)
Definition Series : Type := list (key * float).

(** [read_csv] interprets the two index columns like any other column: a
    field that is one of its NA spellings becomes NaN, and a column whose
    fields are all numbers, or all truth values, becomes a column of
    numbers or of booleans.  [drop_prefix] and [to_datetime] then receive
    a value that is not a text.  The embedding covers the exports in which
    every index field is kept as text, and answers [Unsupported] for the
    others.  A field is known to be kept when it is none of the NA
    spellings and has a character that no number and no truth value is
    written with: a colon, a slash, or a letter other than those of [inf],
    [infinity], [nan], [true], [false], of the exponent marks [e] and [d],
    of the prefixes [0x], [0o], [0b] and of the imaginary unit [j]. *)
Local Open Scope string_scope.

Definition na_values : list string :=
  [ EmptyString; "#N/A"; "#N/A N/A"; "#NA"; "-1.#IND"; "-1.#QNAN"; "-NaN";
    "-nan"; "1.#IND"; "1.#QNAN"; "<NA>"; "N/A"; "NA"; "NULL"; "NaN"; "None";
    "n/a"; "nan"; "null" ].

Definition text_only_chars : chars :=
  list_ascii_of_string ":/CGHKMPQVWZcghkmpqvwz".

Local Close Scope string_scope.

Definition kept_as_text (field : string) : bool :=
  negb (existsb (String.eqb field) na_values)
  && existsb (fun c => existsb (Ascii.eqb c) text_only_chars)
             (list_ascii_of_string field).

Definition index_kept_as_text (r : raw_record) : bool :=
  kept_as_text (timestamp r) && kept_as_text (variable r).

Definition read_csv (input : list raw_record) : result Series :=
  if forallb index_kept_as_text input
  then map_result
         (fun r => try v <- drop_units (object_value r) ;;
                   Ok ((timestamp r, variable r), v))
         input
  else Raise (Unsupported "read_csv").

(** [GroupBy.last]: the last entry of the group that is not NaN, and NaN
    when there is none. *)
Definition group_last (values : list float) : float :=
  fold_left (fun acc v => if is_nan v then acc else v) values nan.

Definition values_at (k : key) (s : Series) : list float :=
  map snd (filter (fun e => key_eqb (fst e) k) s).

(** [s.groupby(s.index).last()]: one entry per distinct key, keys sorted. *)
Definition groupby_index_last (s : Series) : Series :=
  map (fun k => (k, group_last (values_at k s)))
      (sorted_unique key_compare (map fst s)).

(** [pd.MultiIndex.from_tuples] cannot infer the levels of an empty list. *)
Definition from_tuples (s : Series) : result Series :=
  match s with
  | [] => Raise (TypeError "Cannot infer number of levels from empty list")
  | _ => Ok s
  end.

Definition series_get (k : key) (s : Series) : float :=
  match find (fun e => key_eqb (fst e) k) s with
  | Some e => snd e
  | None => nan
  end.

(** The table between [unstack] and the two relabellings: rows are the
    distinct first-level keys and columns the distinct second-level keys,
    each sorted; a cell with no entry is NaN. *)
Record Unstacked : Type :=
  { u_index : list string;
    u_columns : list string;
    u_data : list (list float) }.

Definition unstack (s : Series) : Unstacked :=
  let rows := sorted_unique String.compare (map (fun e => fst (fst e)) s) in
  let cols := sorted_unique String.compare (map (fun e => snd (fst e)) s) in
  {| u_index := rows;
     u_columns := cols;
     u_data := map (fun t => map (fun v => series_get (t, v) s) cols) rows |}.

Definition parse (input : list raw_record) : result DataFrame :=
  try df <- read_csv input ;;
  let df := groupby_index_last df in
  try df <- from_tuples df ;;
  let df := unstack df in
  try cols <- map_result drop_prefix (u_columns df) ;;
  try idx <- map_result to_datetime (u_index df) ;;
  Ok {| index := idx; columns := cols; data := u_data df |}.

(* ================================================================= *)
(** ** [group_key] *)

Definition group_key (df : DataFrame) (start_time end_time : option time)
  : result (list date) :=
  match start_time, end_time with
  | None, None => Ok (index_date (index df))
  | Some _, None =>
      try start_timedelta <- _timedelta_since_midnight start_time ;;
      Ok (index_date (index_shift (-1) start_timedelta (index df)))
  | _, Some _ =>
      try start_timedelta <- _timedelta_since_midnight start_time ;;
      try end_timedelta <- _timedelta_since_midnight end_time ;;
      if start_timedelta <? end_timedelta
      then Ok (index_date (index df))
      else Ok (index_date
                 (index_shift (-1)
                    (timedelta_rmul_half (start_timedelta + end_timedelta))
                    (index df)))
  end.

(* ================================================================= *)
(** ** Objects and references

    Python passes tables by reference.  The heap holds the tables that
    exist; a pandas call that builds a table allocates a new one, and an
    attribute assignment writes to the table it names. *)

Local Close Scope Z_scope.

Definition loc : Type := nat.
Definition heap : Type := list DataFrame.

Definition M (A : Type) : Type := heap -> result A * heap.

Definition ret {A : Type} (a : A) : M A := fun h => (Ok a, h).

Definition raise {A : Type} (e : exn) : M A := fun h => (Raise e, h).

Definition bind {A B : Type} (c : M A) (k : A -> M B) : M B :=
  fun h =>
    match c h with
    | (Ok a, h') => k a h'
    | (Raise e, h') => (Raise e, h')
    end.

Definition lift {A : Type} (r : result A) : M A := fun h => (r, h).

Notation "x <- c ;; k" := (bind c (fun x => k))
  (at level 61, c at next level, right associativity).
Notation "c ;;; k" := (bind c (fun _ => k))
  (at level 61, right associativity).

Definition alloc (df : DataFrame) : M loc :=
  fun h => (Ok (length h), h ++ [df]).

Definition load (r : loc) : M DataFrame :=
  fun h =>
    match nth_error h r with
    | Some df => (Ok df, h)
    | None => (Raise (Unsupported "dangling reference"), h)
    end.

Fixpoint update {A : Type} (i : nat) (a : A) (l : list A) : list A :=
  match l, i with
  | [], _ => []
  | _ :: l', O => a :: l'
  | b :: l', S i' => b :: update i' a l'
  end.

Definition store (r : loc) (df : DataFrame) : M unit :=
  fun h => (Ok tt, update r df h).

(* ================================================================= *)
(** ** The pandas calls of [summarize] *)

(** [df.iloc[positions, :]]: a new table with the rows at the positions. *)
Definition take_rows (positions : list nat) (df : DataFrame) : DataFrame :=
  {| index := map (fun i => nth i (index df) 0%Z) positions;
     columns := columns df;
     data := map (fun i => nth i (data df) []) positions |}.

Definition iloc_rows (df : loc) (positions : list nat) : M loc :=
  d <- load df ;;
  alloc (take_rows positions d).

(** Positions of the columns carrying a label. *)
Fixpoint label_positions (l : label) (i : nat) (cols : list label) : list nat :=
  match cols with
  | [] => []
  | c :: cols' =>
      if label_eqb c l then i :: label_positions l (S i) cols'
      else label_positions l (S i) cols'
  end.

(** [df[keys]] with a list of labels: every column carrying one of the
    labels, in the order of the list; a label no column carries is a
    [KeyError]. *)
Fixpoint columns_indexer (keys : list string) (cols : list label)
  : result (list nat) :=
  match keys with
  | [] => Ok []
  | k :: keys' =>
      match label_positions (Name k) 0 cols with
      | [] => Raise (KeyError k)
      | ps => try qs <- columns_indexer keys' cols ;; Ok (ps ++ qs)
      end
  end.

Definition take_columns (positions : list nat) (df : DataFrame) : DataFrame :=
  {| index := index df;
     columns := map (fun j => nth j (columns df) NaNLabel) positions;
     data := map (fun row => map (fun j => nth j row nan) positions)
                 (data df) |}.

Definition getitem_columns (df : loc) (keys : list string) : M loc :=
  d <- load df ;;
  ps <- lift (columns_indexer keys (columns d)) ;;
  alloc (take_columns ps d).

(** [df.replace(to_replace=..., value=...)]: a new table in which every
    cell equal to [to_replace] holds [value]. *)
Definition replace_cell (to_replace value x : float) : float :=
  if float_eqb x to_replace then value else x.

Definition replace_cells (to_replace value : float) (df : DataFrame)
  : DataFrame :=
  {| index := index df;
     columns := columns df;
     data := map (map (replace_cell to_replace value)) (data df) |}.

Definition replace (df : loc) (to_replace value : float) : M loc :=
  d <- load df ;;
  alloc (replace_cells to_replace value d).

(** A [DataFrameGroupBy]: the grouped table, one key per row, and the
    columns selected with [grouped[...]], if any. *)
Record DataFrameGroupBy : Type :=
  { gb_obj : loc;
    gb_keys : list date;
    gb_selection : option (list string) }.

Definition groupby (df : loc) (keys : list date) : DataFrameGroupBy :=
  {| gb_obj := df; gb_keys := keys; gb_selection := None |}.

Definition groupby_getitem (g : DataFrameGroupBy) (keys : list string)
  : M DataFrameGroupBy :=
  d <- load (gb_obj g) ;;
  _ <- lift (columns_indexer keys (columns d)) ;;
  ret {| gb_obj := gb_obj g; gb_keys := gb_keys g;
         gb_selection := Some keys |}.

(** The group reductions skip NaN and give NaN for a group without any
    other value: the running maximum starts at minus infinity and is
    replaced by each larger value, and the same for the minimum. *)
Definition group_max (values : list float) : float :=
  let '(nobs, maxx) :=
    fold_left (fun '(n, m) v =>
                 if is_nan v then (n, m)
                 else (S n, if float_ltb m v then v else m))
              values (0, S754_infinity true) in
  if nobs =? 0 then nan else maxx.

Definition group_min (values : list float) : float :=
  let '(nobs, minx) :=
    fold_left (fun '(n, m) v =>
                 if is_nan v then (n, m)
                 else (S n, if float_ltb v m then v else m))
              values (0, S754_infinity false) in
  if nobs =? 0 then nan else minx.

(** Rows of a table whose key is [k], in table order. *)
Fixpoint rows_with_key (k : date) (keys : list date) (rows : list (list float))
  : list (list float) :=
  match keys, rows with
  | k' :: keys', row :: rows' =>
      if Z.eqb k' k then row :: rows_with_key k keys' rows'
      else rows_with_key k keys' rows'
  | _, _ => []
  end.

Definition column_of (j : nat) (rows : list (list float)) : list float :=
  map (fun row => nth j row nan) rows.

(** [grouped.max()], [grouped.min()]: one row per distinct key, keys
    sorted; each cell reduces one column over the rows of the group. *)
Definition aggregate (agg : list float -> float) (keys : list date)
           (df : DataFrame) : DataFrame :=
  let groups := sorted_unique Z.compare keys in
  {| index := groups;
     columns := columns df;
     data := map (fun k =>
                    let rows := rows_with_key k keys (data df) in
                    map (fun j => agg (column_of j rows))
                        (seq 0 (length (columns df))))
                 groups |}.

Definition groupby_agg (agg : list float -> float) (g : DataFrameGroupBy)
  : M loc :=
  d <- load (gb_obj g) ;;
  selected <-
    match gb_selection g with
    | Some keys =>
        ps <- lift (columns_indexer keys (columns d)) ;;
        ret (take_columns ps d)
    | None => ret d
    end ;;
  alloc (aggregate agg (gb_keys g) selected).

(** Cell by cell operations.  Two tables are first aligned on their
    labels; the embedding covers operands whose index and columns are the
    same, which is the case of every use in the program. *)
Fixpoint zip_with {A B C : Type} (f : A -> B -> C) (l1 : list A) (l2 : list B)
  : list C :=
  match l1, l2 with
  | a :: l1', b :: l2' => f a b :: zip_with f l1' l2'
  | _, _ => []
  end.

Definition same_axes (a b : DataFrame) : bool :=
  list_eqb Z.eqb (index a) (index b)
  && list_eqb label_eqb (columns a) (columns b).

Definition frame_sub (a b : loc) : M loc :=
  x <- load a ;;
  y <- load b ;;
  if same_axes x y
  then alloc {| index := index x; columns := columns x;
                data := zip_with (zip_with float_sub) (data x) (data y) |}
  else raise (Unsupported "alignment of different axes").

Definition frame_mul (a : loc) (c : float) : M loc :=
  x <- load a ;;
  alloc {| index := index x; columns := columns x;
           data := map (map (fun v => float_mul v c)) (data x) |}.

(** [df.columns = labels] writes to the table itself; the number of labels
    must be the number of columns. *)
Definition set_columns (df : loc) (labels : list label) : M unit :=
  d <- load df ;;
  if length labels =? length (columns d)
  then store df {| index := index d; columns := labels; data := data d |}
  else raise (ValueError "Length mismatch").

(** [pd.concat((a, b), axis=1)] *)
Definition concat_columns (a b : loc) : M loc :=
  x <- load a ;;
  y <- load b ;;
  if list_eqb Z.eqb (index x) (index y)
  then alloc {| index := index x;
                columns := columns x ++ columns y;
                data := zip_with (@app float) (data x) (data y) |}
  else raise (Unsupported "alignment of different axes").

(* ================================================================= *)
(** ** [summarize] *)

Local Open Scope string_scope.

Definition summary_columns : list string :=
  [ "MAIN ELECTRIC METER.Analog Inputs.Energy.Main-kWh-Energy (Trend1)";
    "PANEL DHB ELECTRIC METER.Analog Inputs.Energy.DHB - kWh Total (Trend1)";
    "PANEL M1 ELECTRIC METER.Analog Inputs.Energy.M1-kWh-Energy (Trend1)";
    "PANEL DG ELECTRIC METER.Analog Inputs.Energy.DG-kWh-Energy (Trend1)";
    "PANEL DE-ATS ELECTRIC METER.Analog Inputs.Energy.DE-ATS-Energy-kWh (Trend1)";
    "PANEL COLLINS ELECTRIC METER.Analog Inputs.Energy.CollinCtr-Energy-kWh (Trend1)";
    "PANEL DL ELECTRIC METER.Analog Inputs.Energy.DL-Energy-kWh (Trend1)" ].

Definition summary_labels : list string :=
  [ "Main"; "DHB"; "M1"; "DG"; "DE-ATS"; "Collins"; "DL" ].

Definition summarize (df : loc) (cost : float)
           (start_time end_time : option time) : M loc :=
  df <- match start_time, end_time with
        | None, Some _ =>
            raise (ValueError
              "end_time should not be specified unless start_time is specified")
        | Some st, Some en =>
            d <- load df ;;
            iloc_rows df (indexer_between_time (index d) st en)
        | _, None => ret df
        end ;;
  subset <- getitem_columns df summary_columns ;;
  (* Sometimes measurements are incorrectly reported as 0 *)
  subset <- replace subset (float_of_Z 0) nan ;;
  s <- load subset ;;
  key <- lift (group_key s start_time end_time) ;;
  let grouped := groupby subset key in
  grouped_cumulative_energy <- groupby_getitem grouped summary_columns ;;
  highest <- groupby_agg group_max grouped_cumulative_energy ;;
  lowest <- groupby_agg group_min grouped_cumulative_energy ;;
  daily_energy <- frame_sub highest lowest ;;
  set_columns daily_energy
              (map (fun l => Name (l ++ " (kWh)")) summary_labels) ;;;
  daily_dollars <- frame_mul daily_energy cost ;;
  set_columns daily_dollars
              (map (fun l => Name (l ++ " ($)")) summary_labels) ;;;
  concat_columns daily_energy daily_dollars.

Local Close Scope string_scope.

(* ================================================================= *)
(** * Vocabulary of the properties *)

(* ================================================================= *)
(** ** What a match is

    [Match n0 r s g s' g']: the pattern [r] can read the text between [s]
    and its suffix [s'], taking group 1 from [g] to [g']. *)

Inductive Match (n0 : nat)
  : regex -> chars -> capture -> chars -> capture -> Prop :=
| M_Eps s g : Match n0 Eps s g s g
| M_Class (p : ascii -> bool) c s g :
    p c = true -> Match n0 (Class p) (c :: s) g s g
| M_Cat r1 r2 s g s1 g1 s2 g2 :
    Match n0 r1 s g s1 g1 -> Match n0 r2 s1 g1 s2 g2 ->
    Match n0 (Cat r1 r2) s g s2 g2
| M_Opt_some r s g s' g' :
    Match n0 r s g s' g' -> Match n0 (Opt r) s g s' g'
| M_Opt_none r s g : Match n0 (Opt r) s g s g
| M_Star_stop r s g : Match n0 (Star r) s g s g
| M_Star_more r s g s1 g1 s2 g2 :
    Match n0 r s g s1 g1 -> length s1 < length s ->
    Match n0 (Star r) s1 g1 s2 g2 ->
    Match n0 (Star r) s g s2 g2
| M_Group r s g s' g' :
    Match n0 r s g s' g' ->
    Match n0 (Group r) s g s' (Some (consumed s s'))
| M_Bos s g : length s = n0 -> Match n0 Bos s g s g
| M_Eos g : Match n0 Eos [] g [] g.

(** The shape of a value: a number made of optional leading digits, an
    optional point and at least one digit after them, then an optional
    blank, then optional unit letters. *)
Definition value_shape (s ds1 dot ds2 sp us : chars) : Prop :=
  s = ds1 ++ dot ++ ds2 ++ sp ++ us
  /\ forallb is_digit ds1 = true
  /\ (dot = [] \/ dot = ["."%char])
  /\ forallb is_digit ds2 = true
  /\ ds2 <> []
  /\ (sp = [] \/ sp = [" "%char])
  /\ forallb is_alpha us = true.

(** The same shape with the number as the specification words it:
    optional leading digits, an optional point, and at least one digit
    overall. *)
Definition loose_value_shape (s ds1 dot ds2 sp us : chars) : Prop :=
  s = ds1 ++ dot ++ ds2 ++ sp ++ us
  /\ forallb is_digit ds1 = true
  /\ (dot = [] \/ dot = ["."%char])
  /\ forallb is_digit ds2 = true
  /\ ds1 ++ ds2 <> []
  /\ (sp = [] \/ sp = [" "%char])
  /\ forallb is_alpha us = true.

(** The number such a value denotes, as the nearest float: the digits read
    as an integer, over ten to the number of digits after the point. *)
Definition numeric_value (ds1 dot ds2 : chars) : float :=
  float_of_ratio (decimal_value (ds1 ++ ds2))
                 (pow10 (match dot with [] => 0 | _ => length ds2 end)).

(* ================================================================= *)
(** ** Vocabulary of the day bucketer and of the time-of-day filter *)

Local Open Scope Z_scope.

Definition minutes_since_midnight (t : time) : Z := hour t * 60 + minute t.

Definition ns_per_minute : Z := 60 * 1000000000.

(** The bucket of a timestamp for a window with both ends, in the words of
    the specification: the calendar date when the start is earlier in the
    day than the end, else the date of the timestamp moved back by half the
    sum of the two offsets. *)
Definition window_bucket (start_time end_time : time) (ts : Timestamp) : date :=
  if minutes_since_midnight start_time <? minutes_since_midnight end_time
  then date_of ts
  else date_of (ts - (minutes_since_midnight start_time
                      + minutes_since_midnight end_time) * (ns_per_minute / 2)).

(** The bucket of a timestamp for a day that begins at [start_time]. *)
Definition start_bucket (start_time : time) (ts : Timestamp) : date :=
  date_of (ts - minutes_since_midnight start_time * ns_per_minute).

(** The interval as the specification words it: start included, end
    excluded. *)
Definition in_half_open (start_time end_time : time) (ts : Timestamp) : bool :=
  (time_micros start_time <=? timestamp_micros ts)
  && (timestamp_micros ts <? time_micros end_time).

(** The interval the filter implements: both ends included, and around
    midnight when the start is later in the day than the end. *)
Definition in_window (start_time end_time : time) (ts : Timestamp) : Prop :=
  let t := timestamp_micros ts in
  (time_micros start_time <= time_micros end_time ->
   time_micros start_time <= t <= time_micros end_time)
  /\ (time_micros end_time < time_micros start_time ->
      time_micros start_time <= t \/ t <= time_micros end_time).

Local Close Scope Z_scope.

(* ================================================================= *)
(** ** Vocabulary of the heap discipline *)

(** [frames n c Q]: run from a heap with at least [n] tables, [c] leaves
    the first [n] tables as they are, and a returned value satisfies [Q]. *)
Definition frames {A : Type} (n : nat) (c : M A) (Q : A -> Prop) : Prop :=
  forall h : heap,
    n <= length h ->
    firstn n (snd (c h)) = firstn n h
    /\ n <= length (snd (c h))
    /\ match fst (c h) with Ok a => Q a | Raise _ => True end.

(* ================================================================= *)
(** ** Vocabulary of the table builder *)

Definition is_numeric (c : ascii) : bool := is_digit c || is_dot c.

Definition starts_without_numeric (s : chars) : Prop :=
  match s with [] => True | c :: _ => is_numeric c = false end.

(** Strict order of a three-way comparison. *)
Definition before {A : Type} (cmp : A -> A -> comparison) (x y : A) : Prop :=
  cmp x y = Lt.

Definition record_key (r : raw_record) : key := (timestamp r, variable r).

(** The value a record carries once its text is converted. *)
Definition normalized (r : raw_record) : float :=
  match drop_units (object_value r) with
  | Ok v => v
  | Raise _ => nan
  end.

(** The converted values of the records with a given timestamp text and
    variable name, in file order. *)
Definition readings_of (t v : string) (input : list raw_record) : list float :=
  map normalized (filter (fun r => key_eqb (record_key r) (t, v)) input).

(** The last value of a list that is a number, NaN when there is none. *)
Definition last_number (values : list float) : float :=
  last (filter (fun x => negb (is_nan x)) values) nan.

(* ================================================================= *)
(** ** Vocabulary of the summariser *)

(** The rows [summarize] works on: those of the time-of-day window when
    both times are given, all of them otherwise. *)
Definition window (d : DataFrame) (start_time end_time : option time)
  : DataFrame :=
  match start_time, end_time with
  | Some st, Some en => take_rows (indexer_between_time (index d) st en) d
  | _, _ => d
  end.

(** Every meter of the summary labels exactly one column. *)
Definition has_meters (d : DataFrame) : bool :=
  forallb (fun name =>
             length (label_positions (Name name) 0 (columns d)) =? 1)
          summary_columns.

(** Position of the column of the [j]-th meter. *)
Definition meter_column (d : DataFrame) (j : nat) : nat :=
  hd 0 (label_positions (Name (nth j summary_columns EmptyString)) 0
                        (columns d)).

(** The rows of bucket [k]: a row belongs to it when the key at its
    position is [k]; they come in table order. *)
Definition bucket_rows (k : date) (keys : list date)
           (rows : list (list float)) : list (list float) :=
  map snd (filter (fun e => Z.eqb (fst e) k) (combine keys rows)).

(** The readings of the [j]-th meter in the rows of bucket [k], as the
    table has them, and with the zeros replaced by NaN. *)
Definition raw_readings (d : DataFrame) (keys : list date) (k : date)
           (j : nat) : list float :=
  map (fun row => nth (meter_column d j) row nan)
      (bucket_rows k keys (data d)).

Definition readings (d : DataFrame) (keys : list date) (k : date) (j : nat)
  : list float :=
  map (replace_cell (float_of_Z 0) nan) (raw_readings d keys k j).

Definition present (values : list float) : list float :=
  filter (fun x => negb (is_nan x)) values.

Definition kwh_labels : list label :=
  map (fun l => Name (l ++ " (kWh)")) summary_labels.

Definition dollar_labels : list label :=
  map (fun l => Name (l ++ " ($)")) summary_labels.

(** The columns [summarize] reduces: the seven meters, zeros replaced. *)
Definition selected (w : DataFrame) : DataFrame :=
  take_columns (seq 0 7)
    (replace_cells (float_of_Z 0) nan
       (take_columns
          (map (fun name => hd 0 (label_positions (Name name) 0 (columns w)))
               summary_columns)
          w)).

(** The table [summarize] returns, from the bucket keys and those columns. *)
Definition summary_of (keys : list date) (sel : DataFrame) (cost : float)
  : DataFrame :=
  let energy :=
    zip_with (zip_with float_sub)
             (data (aggregate group_max keys sel))
             (data (aggregate group_min keys sel)) in
  {| index := sorted_unique Z.compare keys;
     columns := kwh_labels ++ dollar_labels;
     data := zip_with (@app float) energy
                      (map (map (fun v => float_mul v cost)) energy) |}.

(** One step of the running maximum and of the running minimum. *)
Definition float_max (m v : float) : float := if float_ltb m v then v else m.
Definition float_min (m v : float) : float := if float_ltb v m then v else m.

(* ================================================================= *)
(** ** Example tables and exports *)

Local Open Scope Z_scope.

(** A row of the seven meters, the main meter first. *)
Definition example_row (main : float) : list float :=
  [main; float_of_Z 1; float_of_Z 2; float_of_Z 3;
   float_of_Z 4; float_of_Z 5; float_of_Z 6].

(** Two readings of one day, the second at 18:00. *)
Definition afternoon : DataFrame :=
  {| index := [make_timestamp 2020 1 2 12 0; make_timestamp 2020 1 2 18 0];
     columns := map Name summary_columns;
     data := [example_row (float_of_Z 100); example_row (float_of_Z 150)] |}.

(** One day of readings of the main meter: 100, 0 and 150. *)
Definition one_day : DataFrame :=
  {| index := [make_timestamp 2020 1 2 8 0; make_timestamp 2020 1 2 12 0;
               make_timestamp 2020 1 2 18 0];
     columns := map Name summary_columns;
     data := [example_row (float_of_Z 100); example_row (float_of_Z 0);
              example_row (float_of_Z 150)] |}.

(** Two days with one reading of the main meter each. *)
Definition two_days : DataFrame :=
  {| index := [make_timestamp 2020 1 2 12 0; make_timestamp 2020 1 3 12 0];
     columns := map Name summary_columns;
     data := [example_row (float_of_Z 100); example_row (float_of_Z 150)] |}.

(** One reading of the main meter in the day, finite or infinite. *)
Definition one_reading (main : float) : DataFrame :=
  {| index := [make_timestamp 2020 1 2 8 0];
     columns := map Name summary_columns;
     data := [example_row main] |}.

Local Close Scope Z_scope.

(** A reading whose digits overflow binary64. *)
Definition four_hundred_nines : string :=
  string_of_list_ascii (repeat "9"%char 400).

Local Open Scope string_scope.

(** Two records of one export with the same key: a reading, then a text
    that is no number. *)
Definition corrected_then_garbled : list raw_record :=
  [ {| timestamp := "03/04/2020 10:00"; variable := "Meter";
       object_value := "5 kWh" |};
    {| timestamp := "03/04/2020 10:00"; variable := "Meter";
       object_value := "abc" |} ].

(** Two records whose timestamps sort one way as text and the other way as
    dates. *)
Definition april_then_may : list raw_record :=
  [ {| timestamp := "03/04/2020 10:00"; variable := "Meter";
       object_value := "1 kWh" |};
    {| timestamp := "01/05/2020 10:00"; variable := "Meter";
       object_value := "2 kWh" |} ].

Local Close Scope string_scope.

(* ================================================================= *)
(** * The rest of the program *)

(* ================================================================= *)
(** ** [_string_to_time]

    Python's [int] reads more than plain digits (blanks around the number,
    a sign, underscores) and what it accepts has changed between releases;
    it is a parameter here.  [str.split], the unpacking of the two values
    and [datetime.time] are embedded as they are. *)

(** [text.split(sep)] for a one-character separator: the pieces between
    the separators, at least one. *)
Fixpoint split (sep : ascii) (text : string) : list string :=
  match text with
  | EmptyString => [EmptyString]
  | String c rest =>
      if Ascii.eqb c sep then EmptyString :: split sep rest
      else match split sep rest with
           | piece :: pieces => String c piece :: pieces
           | [] => [String c EmptyString]
           end
  end.

(** [datetime.time(hour=..., minute=...)] checks the two ranges, the hour
    first.  An argument that does not fit a C [int] is refused before that,
    with an [OverflowError] by the C implementation and a [ValueError] by
    the Python one: the embedding answers [Unsupported]. *)
Definition fits_c_int (z : Z) : bool :=
  ((-2147483648 <=? z) && (z <=? 2147483647))%Z.

Definition datetime_time (h m : Z) : result time :=
  if fits_c_int h && fits_c_int m then
    if ((0 <=? h) && (h <=? 23))%Z then
      if ((0 <=? m) && (m <=? 59))%Z
      then Ok {| hour := h; minute := m |}
      else Raise (ValueError "minute must be in 0..59")
    else Raise (ValueError "hour must be in 0..23")
  else Raise (Unsupported "datetime.time").

Section StringToTime.
Variable int : string -> result Z.

(** [hour, minute = map(int, pieces)]: [map] is lazy, so the pieces are
    converted one by one while the unpacking asks for them, a third one
    included when there is one. *)
Definition unpack_hour_minute (pieces : list string) : result (Z * Z) :=
  match pieces with
  | [] => Raise (ValueError "not enough values to unpack (expected 2, got 0)")
  | [p0] =>
      try _ <- int p0 ;;
      Raise (ValueError "not enough values to unpack (expected 2, got 1)")
  | [p0; p1] =>
      try h <- int p0 ;;
      try m <- int p1 ;;
      Ok (h, m)
  | p0 :: p1 :: p2 :: _ =>
      try _ <- int p0 ;;
      try _ <- int p1 ;;
      try _ <- int p2 ;;
      Raise (ValueError "too many values to unpack (expected 2)")
  end.

Definition _string_to_time (time_string : option string)
  : result (option time) :=
  match time_string with
  | None => Ok None
  | Some text =>
      try hm <- unpack_hour_minute (split ":" text) ;;
      try t <- datetime_time (fst hm) (snd hm) ;;
      Ok (Some t)
  end.
End StringToTime.

(* ================================================================= *)
(** ** Vocabulary of the further properties *)

Local Open Scope string_scope.

(** The prefix [drop_prefix] removes. *)
Definition site_prefix : string := "Town Of Andover:AHS-NAE1/FEC Bus2.".

Local Close Scope string_scope.

(** A text without a line feed. *)
Definition one_line (text : string) : bool :=
  forallb not_newline (list_ascii_of_string text).

(** A float that is not below zero: NaN apart, its sign is not set. *)
Definition sign_clear (x : float) : bool :=
  match x with
  | S754_zero s | S754_infinity s | S754_finite s _ _ => negb s
  | S754_nan => false
  end.

(** An optional time of day that is a time of day when it is there. *)
Definition valid_time_option (t : option time) : bool :=
  match t with
  | Some t => valid_time t
  | None => true
  end.

(** The bucket of a row kept by a window around midnight: the date of the
    row for the evening part, the date before for the morning part. *)
Definition night_bucket (start_time : time) (ts : Timestamp) : date :=
  if (time_micros start_time <=? timestamp_micros ts)%Z
  then date_of ts
  else (date_of ts - 1)%Z.

(** No meter of the summary labels two columns. *)
Definition meters_at_most_once (d : DataFrame) : bool :=
  forallb (fun name =>
             length (label_positions (Name name) 0 (columns d)) <=? 1)
          summary_columns.

Local Open Scope string_scope.

(** The column labels of a summary, in order. *)
Definition summary_names : list label :=
  map Name
      [ "Main (kWh)"; "DHB (kWh)"; "M1 (kWh)"; "DG (kWh)"; "DE-ATS (kWh)";
        "Collins (kWh)"; "DL (kWh)";
        "Main ($)"; "DHB ($)"; "M1 ($)"; "DG ($)"; "DE-ATS ($)";
        "Collins ($)"; "DL ($)" ].

Local Close Scope string_scope.

(** An export with one reading of each of the seven meters. *)
Definition seven_meters : list raw_record :=
  map (fun name => {| timestamp := "02/01/2020 08:00"%string;
                      variable := (site_prefix ++ name)%string;
                      object_value := "100 kWh"%string |})
      summary_columns.

(** A text in which the character [sep] does not occur. *)
Definition without (sep : ascii) (text : string) : bool :=
  forallb (fun c => negb (Ascii.eqb c sep)) (list_ascii_of_string text).

(** What [int] gives on the texts made of ASCII digits only, a few of
    them: their value in base ten.  Other texts are refused here. *)
Definition int_of_digits (text : string) : result Z :=
  let ds := list_ascii_of_string text in
  if (1 <=? length ds) && (length ds <=? 9) && forallb is_digit ds
  then Ok (decimal_value ds)
  else Raise (ValueError "invalid literal for int() with base 10").

(* ================================================================= *)
(** * Properties *)

(* ================================================================= *)
(** ** The day bucketer *)

Local Open Scope Z_scope.

Lemma timedelta_minutes (t : time) :
  hour t * us_per_hour + minute t * us_per_minute
  = minutes_since_midnight t * us_per_minute.
Proof.
  unfold minutes_since_midnight, us_per_hour. ring.
Qed.

Lemma divide_and_round_even (k : Z) : _divide_and_round (2 * k) 2 = k.
Proof.
  unfold _divide_and_round.
  replace (2 * k) with (k * 2) by ring.
  rewrite Z.div_mul, Z.mod_mul by lia.
  reflexivity.
Qed.

Lemma midpoint_minutes (a b : Z) :
  timedelta_rmul_half (a * us_per_minute + b * us_per_minute)
  = (a + b) * (us_per_minute / 2).
Proof.
  unfold timedelta_rmul_half.
  replace (a * us_per_minute + b * us_per_minute)
    with (2 * ((a + b) * (us_per_minute / 2))).
  - apply divide_and_round_even.
  - change (us_per_minute / 2) with 30000000.
    change us_per_minute with 60000000. ring.
Qed.

(** C3.  With both ends given, the key of every timestamp is its calendar
    date when the start offset is below the end offset, and otherwise the
    date of the timestamp minus the midpoint of the two offsets; for the
    window 22:00 to 06:00 the timestamps 2020-01-02 23:30 and
    2020-01-03 01:00 get the same key. *)
Theorem group_key_both_ends :
  (forall (df : DataFrame) (start_time end_time : time),
      group_key df (Some start_time) (Some end_time)
      = Ok (map (window_bucket start_time end_time) (index df)))
  /\ (let night := {| index := [make_timestamp 2020 1 2 23 30;
                                make_timestamp 2020 1 3 1 0];
                      columns := []; data := [[]; []] |} in
      group_key night (Some {| hour := 22; minute := 0 |})
                      (Some {| hour := 6; minute := 0 |})
      = Ok [days_from_civil 2020 1 2; days_from_civil 2020 1 2]).
Proof.
  split; [ | vm_compute; reflexivity ].
  intros df st en.
  unfold group_key, _timedelta_since_midnight, result_bind.
  rewrite !timedelta_minutes.
  assert (Hlt : (minutes_since_midnight st * us_per_minute
                 <? minutes_since_midnight en * us_per_minute)
                = (minutes_since_midnight st <? minutes_since_midnight en)).
  { unfold us_per_minute.
    destruct (Z.ltb_spec (minutes_since_midnight st) (minutes_since_midnight en));
      [ apply Z.ltb_lt | apply Z.ltb_ge ]; lia. }
  rewrite Hlt.
  unfold window_bucket.
  destruct (minutes_since_midnight st <? minutes_since_midnight en).
  - reflexivity.
  - f_equal. unfold index_date, index_shift. rewrite map_map.
    apply map_ext. intro ts. f_equal.
    rewrite midpoint_minutes.
    change (us_per_minute / 2) with 30000000.
    change ns_per_us with 1000.
    change (ns_per_minute / 2) with 30000000000. ring.
Qed.

(** C6.  With a start and no end, the key of every timestamp is the date
    of the timestamp minus the start offset; a timestamp whose time of day
    is before the start gets the previous calendar day. *)
Theorem group_key_start_only (df : DataFrame) (start_time : time) :
  valid_time start_time = true ->
  group_key df (Some start_time) None
  = Ok (map (start_bucket start_time) (index df))
  /\ forall ts : Timestamp,
      time_of_day_ns ts < minutes_since_midnight start_time * ns_per_minute ->
      start_bucket start_time ts = date_of ts - 1.
Proof.
  intro Hvalid. split.
  - unfold group_key, _timedelta_since_midnight, result_bind.
    rewrite timedelta_minutes. f_equal.
    unfold index_date, index_shift. rewrite map_map.
    apply map_ext. intro ts. unfold start_bucket. f_equal.
    change us_per_minute with 60000000.
    change ns_per_us with 1000.
    change ns_per_minute with 60000000000. ring.
  - intros ts Hbefore.
    unfold valid_time in Hvalid.
    apply andb_prop in Hvalid. destruct Hvalid as [Hvalid Hm59].
    apply andb_prop in Hvalid. destruct Hvalid as [Hvalid Hm0].
    apply andb_prop in Hvalid. destruct Hvalid as [Hh0 Hh23].
    apply Z.leb_le in Hm59, Hm0, Hh0, Hh23.
    unfold start_bucket, date_of, time_of_day_ns in *.
    unfold minutes_since_midnight in *.
    change ns_per_minute with 60000000000 in *.
    change ns_per_day with 86400000000000 in *.
    set (off := (hour start_time * 60 + minute start_time) * 60000000000) in *.
    assert (Hoff : 0 <= off <= 86400000000000) by (unfold off; lia).
    pose proof (Z.mod_pos_bound ts 86400000000000 ltac:(lia)) as Hr.
    pose proof (Z.div_mod ts 86400000000000 ltac:(lia)) as Hdm.
    symmetry. apply Z.div_unique with (r := ts mod 86400000000000 - off + 86400000000000).
    + left. lia.
    + lia.
Qed.

Lemma group_key_start_only_witness :
  group_key {| index := [make_timestamp 2020 1 2 5 0]; columns := []; data := [[]] |}
            (Some {| hour := 6; minute := 0 |}) None
  = Ok [days_from_civil 2020 1 1].
Proof.
  destruct (@group_key_start_only
              {| index := [make_timestamp 2020 1 2 5 0]; columns := []; data := [[]] |}
              {| hour := 6; minute := 0 |} eq_refl) as [H _].
  rewrite H. reflexivity.
Defined.

(* ================================================================= *)
(** ** The heap discipline of [summarize] *)

Local Close Scope Z_scope.

Lemma firstn_update {A : Type} (n i : nat) (a : A) (l : list A) :
  n <= i -> firstn n (update i a l) = firstn n l.
Proof.
  revert n i. induction l as [ | b l IH ]; intros n i Hle.
  - destruct i; reflexivity.
  - destruct i as [ | i ].
    + replace n with 0 by lia. reflexivity.
    + destruct n as [ | n ]; [ reflexivity | ].
      simpl. f_equal. apply IH. lia.
Qed.

Lemma length_update {A : Type} (i : nat) (a : A) (l : list A) :
  length (update i a l) = length l.
Proof.
  revert i. induction l as [ | b l IH ]; intros [ | i ]; simpl; auto.
Qed.

Lemma firstn_snoc {A : Type} (n : nat) (a : A) (l : list A) :
  n <= length l -> firstn n (l ++ [a]) = firstn n l.
Proof.
  intro Hle. rewrite firstn_app.
  replace (n - length l) with 0 by lia.
  simpl. apply app_nil_r.
Qed.

Section Frames.
Variable n : nat.

Lemma frames_ret {A : Type} (a : A) (Q : A -> Prop) :
  Q a -> frames n (ret a) Q.
Proof. intros HQ h Hn. simpl. auto. Qed.

Lemma frames_raise {A : Type} (e : exn) (Q : A -> Prop) :
  frames n (raise e) Q.
Proof. intros h Hn. simpl. auto. Qed.

Lemma frames_lift {A : Type} (r : result A) :
  frames n (lift r) (fun _ => True).
Proof. intros h Hn. simpl. destruct r; auto. Qed.

Lemma frames_load (r : loc) : frames n (load r) (fun _ => True).
Proof.
  intros h Hn. unfold load.
  destruct (nth_error h r); simpl; auto.
Qed.

Lemma frames_alloc (d : DataFrame) : frames n (alloc d) (fun r => n <= r).
Proof.
  intros h Hn. unfold alloc. simpl.
  rewrite firstn_snoc by assumption.
  rewrite length_app. simpl. repeat split; lia.
Qed.

Lemma frames_store (r : loc) (d : DataFrame) :
  n <= r -> frames n (store r d) (fun _ => True).
Proof.
  intros Hr h Hn. unfold store. simpl.
  rewrite firstn_update by assumption.
  rewrite length_update. auto.
Qed.

Lemma frames_bind {A B : Type} (c : M A) (k : A -> M B)
      (Q : A -> Prop) (R : B -> Prop) :
  frames n c Q ->
  (forall a, Q a -> frames n (k a) R) ->
  frames n (bind c k) R.
Proof.
  intros Hc Hk h Hn. unfold bind.
  destruct (Hc h Hn) as (Hfirst & Hlen & Hq).
  destruct (c h) as [[a | e] h1]; simpl in *.
  - destruct (Hk a Hq h1 Hlen) as (Hfirst' & Hlen' & Hr).
    repeat split; auto. congruence.
  - auto.
Qed.

Lemma frames_weaken {A : Type} (c : M A) (Q R : A -> Prop) :
  frames n c Q -> (forall a, Q a -> R a) -> frames n c R.
Proof.
  intros Hc HQR h Hn.
  destruct (Hc h Hn) as (Hfirst & Hlen & Hq).
  repeat split; auto.
  destruct (fst (c h)); auto.
Qed.

Lemma frames_if {A : Type} (b : bool) (c1 c2 : M A) (Q : A -> Prop) :
  frames n c1 Q -> frames n c2 Q -> frames n (if b then c1 else c2) Q.
Proof. destruct b; auto. Qed.

Local Ltac frame_step :=
  first
    [ apply frames_ret
    | apply frames_raise
    | apply frames_alloc
    | apply frames_if
    | eapply frames_bind; [ apply frames_load | intros ? _ ]
    | eapply frames_bind; [ apply frames_lift | intros ? _ ] ].

Lemma frames_iloc_rows df ps : frames n (iloc_rows df ps) (fun r => n <= r).
Proof. unfold iloc_rows. repeat frame_step. Qed.

Lemma frames_getitem_columns df keys :
  frames n (getitem_columns df keys) (fun r => n <= r).
Proof. unfold getitem_columns. repeat frame_step. Qed.

Lemma frames_replace df a b : frames n (replace df a b) (fun r => n <= r).
Proof. unfold replace. repeat frame_step. Qed.

Lemma frames_groupby_getitem g keys :
  frames n (groupby_getitem g keys) (fun _ => True).
Proof. unfold groupby_getitem. repeat frame_step. exact I. Qed.

Lemma frames_groupby_agg agg g :
  frames n (groupby_agg agg g) (fun r => n <= r).
Proof.
  unfold groupby_agg. frame_step.
  eapply frames_bind with (Q := fun _ => True).
  - destruct (gb_selection g); repeat frame_step; exact I.
  - intros sel _. frame_step.
Qed.

Lemma frames_frame_sub a b : frames n (frame_sub a b) (fun r => n <= r).
Proof. unfold frame_sub. repeat frame_step. Qed.

Lemma frames_frame_mul a c : frames n (frame_mul a c) (fun r => n <= r).
Proof. unfold frame_mul. repeat frame_step. Qed.

Lemma frames_concat_columns a b :
  frames n (concat_columns a b) (fun r => n <= r).
Proof. unfold concat_columns. repeat frame_step. Qed.

Lemma frames_set_columns df labels :
  n <= df -> frames n (set_columns df labels) (fun _ => True).
Proof.
  intro Hdf. unfold set_columns. frame_step.
  apply frames_if; [ apply frames_store; assumption | apply frames_raise ].
Qed.

End Frames.

(** The straight-line part of [summarize], after the first statement. *)
Ltac frames_pipeline :=
  eapply frames_bind; [ apply frames_getitem_columns | intros ? _ ];
  eapply frames_bind; [ apply frames_replace | intros ? _ ];
  eapply frames_bind; [ apply frames_load | intros ? _ ];
  eapply frames_bind; [ apply frames_lift | intros ? _ ];
  eapply frames_bind; [ apply frames_groupby_getitem | intros ? _ ];
  eapply frames_bind; [ apply frames_groupby_agg | intros ? _ ];
  eapply frames_bind; [ apply frames_groupby_agg | intros ? _ ];
  eapply frames_bind; [ apply frames_frame_sub | intros ? ? ];
  eapply frames_bind; [ apply frames_set_columns; assumption | intros _ _ ];
  eapply frames_bind; [ apply frames_frame_mul | intros ? ? ];
  eapply frames_bind; [ apply frames_set_columns; assumption | intros _ _ ];
  eapply frames_weaken; [ apply frames_concat_columns | auto ].

Lemma frames_summarize (n : nat) df cost start_time end_time :
  frames n (summarize df cost start_time end_time) (fun _ => True).
Proof.
  unfold summarize.
  eapply frames_bind with (Q := fun _ => True).
  { destruct start_time as [ st | ], end_time as [ en | ].
    - eapply frames_bind; [ apply frames_load | intros d _ ].
      eapply frames_weaken; [ apply frames_iloc_rows | auto ].
    - apply frames_ret. exact I.
    - apply frames_raise.
    - apply frames_ret. exact I. }
  intros df1 _. frames_pipeline.
Qed.

(** C9.  [summarize] leaves the table it is given unchanged: whatever the
    arguments and whether it returns or raises, every table of the heap it
    started from, [df] among them, is afterwards what it was before; the
    filtered table and the table with zeros replaced are new tables. *)
Theorem summarize_leaves_df_unchanged
        (h : heap) (df : loc) (cost : float) (start_time end_time : option time) :
  (exists fresh : list DataFrame,
      snd (summarize df cost start_time end_time h) = h ++ fresh)
  /\ forall d : DataFrame,
      nth_error h df = Some d ->
      nth_error (snd (summarize df cost start_time end_time h)) df = Some d.
Proof.
  destruct (@frames_summarize (length h) df cost start_time end_time h (le_n _))
    as (Hfirst & Hlen & _).
  rewrite firstn_all in Hfirst.
  set (h' := snd (summarize df cost start_time end_time h)) in *.
  assert (Hh' : h' = h ++ skipn (length h) h').
  { rewrite <- Hfirst at 1. symmetry. apply firstn_skipn. }
  split.
  - eexists. exact Hh'.
  - intros d Hd. rewrite Hh'.
    rewrite nth_error_app1; [ assumption | ].
    apply nth_error_Some. congruence.
Qed.

(** C7.  With an end time and no start time [summarize] raises the
    configuration error at once: no table has been built. *)
Theorem summarize_end_without_start
        (h : heap) (df : loc) (cost : float) (end_time : time) :
  summarize df cost None (Some end_time) h
  = (Raise (ValueError
       "end_time should not be specified unless start_time is specified"), h).
Proof. reflexivity. Qed.

Lemma summarize_leaves_df_unchanged_witness :
  nth_error [afternoon] 0 = Some afternoon
  /\ nth_error (snd (summarize 0 (float_of_ratio 16 100) None None [afternoon])) 0
     = Some afternoon.
Proof.
  split; [ reflexivity | ].
  destruct (@summarize_leaves_df_unchanged
              [afternoon] 0 (float_of_ratio 16 100) None None) as [_ Hkept].
  apply Hkept. reflexivity.
Defined.

(* ================================================================= *)
(** ** The time-of-day filter *)

Local Open Scope Z_scope.

Lemma between_time_iff (st en : time) (ts : Timestamp) :
  between_time st en ts = true <-> in_window st en ts.
Proof.
  unfold between_time, in_window.
  destruct (Z.leb_spec (time_micros st) (time_micros en)) as [Hle | Hgt].
  - rewrite andb_true_iff, !Z.leb_le. split.
    + intros [H1 H2]. split; intros; lia.
    + intros [H _]. specialize (H Hle). lia.
  - rewrite orb_true_iff, !Z.leb_le. split.
    + intros H. split; intros; [ lia | assumption ].
    + intros [_ H]. apply H. assumption.
Qed.

Lemma take_rows_filter (p : Timestamp -> bool) :
  forall (idx pre_i : list Z) (rows pre_r : list (list float)),
    length rows = length idx ->
    length pre_r = length pre_i ->
    let ps := positions_from p (length pre_i) idx in
    combine (map (fun i => nth i (pre_i ++ idx) 0) ps)
            (map (fun i => nth i (pre_r ++ rows) []) ps)
    = filter (fun e => p (fst e)) (combine idx rows).
Proof.
  induction idx as [ | ts idx IH ]; intros pre_i rows pre_r Hlen Hpre; simpl.
  - reflexivity.
  - destruct rows as [ | row rows ]; [ discriminate | ].
    simpl in Hlen. injection Hlen as Hlen.
    assert (IH' := IH (pre_i ++ [ts]) rows (pre_r ++ [row]) Hlen).
    rewrite !length_app in IH'. simpl in IH'.
    rewrite <- !app_assoc in IH'. simpl in IH'.
    replace (length pre_i + 1)%nat with (S (length pre_i)) in IH' by lia.
    specialize (IH' ltac:(lia)).
    simpl. destruct (p ts); simpl.
    + pose proof (nth_middle pre_r rows row []) as Hrow.
      rewrite Hpre in Hrow. rewrite Hrow, nth_middle.
      f_equal. exact IH'.
    + exact IH'.
Qed.

(* ================================================================= *)
(** ** The matcher finds exactly the matches *)

Local Close Scope Z_scope.

Lemma iterate_sound (n0 : nat) (r : regex) :
  (forall s g t, In t (exec n0 r s g) -> Match n0 r s g (fst t) (snd t)) ->
  forall fuel s g t,
    In t (iterate (exec n0 r) fuel s g) ->
    Match n0 (Star r) s g (fst t) (snd t).
Proof.
  intros Hr. induction fuel as [ | fuel IH ]; intros s g t Hin; simpl in Hin.
  - destruct Hin as [ <- | [] ]. apply M_Star_stop.
  - apply in_app_or in Hin. destruct Hin as [ Hin | [ <- | [] ] ].
    + apply in_flat_map in Hin. destruct Hin as (t1 & Ht1 & Hin).
      destruct (Nat.ltb_spec (length (fst t1)) (length s)) as [ Hlt | ];
        [ | destruct Hin ].
      eapply M_Star_more; eauto.
    + apply M_Star_stop.
Qed.

Lemma exec_sound (n0 : nat) (r : regex) :
  forall s g t, In t (exec n0 r s g) -> Match n0 r s g (fst t) (snd t).
Proof.
  induction r as [ | p | r1 IH1 r2 IH2 | r IH | r IH | r IH | | ];
    intros s g t Hin; simpl in Hin.
  - destruct Hin as [ <- | [] ]. apply M_Eps.
  - destruct s as [ | c s ]; [ destruct Hin | ].
    destruct (p c) eqn:Hp; [ | destruct Hin ].
    destruct Hin as [ <- | [] ]. apply M_Class. assumption.
  - apply in_flat_map in Hin. destruct Hin as (t1 & Ht1 & Hin).
    eapply M_Cat; eauto.
  - apply in_app_or in Hin. destruct Hin as [ Hin | [ <- | [] ] ].
    + apply M_Opt_some. auto.
    + apply M_Opt_none.
  - eapply iterate_sound; eauto.
  - apply in_map_iff in Hin. destruct Hin as (t1 & <- & Hin).
    simpl. apply M_Group with (g' := snd t1). auto.
  - destruct (Nat.eqb_spec (length s) n0); [ | destruct Hin ].
    destruct Hin as [ <- | [] ]. apply M_Bos. assumption.
  - destruct s; [ | destruct Hin ].
    destruct Hin as [ <- | [] ]. apply M_Eos.
Qed.

Lemma iterate_last (step : chars -> capture -> list thread) fuel s g :
  In (s, g) (iterate step fuel s g).
Proof.
  destruct fuel; simpl; [ auto | ].
  apply in_or_app. right. simpl. auto.
Qed.

Lemma iterate_more_fuel (step : chars -> capture -> list thread) :
  forall fuel fuel' s g t,
    fuel <= fuel' ->
    In t (iterate step fuel s g) -> In t (iterate step fuel' s g).
Proof.
  induction fuel as [ | fuel IH ]; intros fuel' s g t Hle Hin.
  - destruct Hin as [ <- | [] ]. apply iterate_last.
  - destruct fuel' as [ | fuel' ]; [ lia | ].
    simpl in *. apply in_app_or in Hin. apply in_or_app.
    destruct Hin as [ Hin | Hin ]; [ left | right; assumption ].
    apply in_flat_map in Hin. destruct Hin as (t1 & Ht1 & Hin).
    apply in_flat_map. exists t1. split; [ assumption | ].
    destruct (length (fst t1) <? length s); [ | assumption ].
    apply IH; [ lia | assumption ].
Qed.

Lemma exec_complete (n0 : nat) (r : regex) s g s' g' :
  Match n0 r s g s' g' -> In (s', g') (exec n0 r s g).
Proof.
  induction 1; simpl.
  - auto.
  - rewrite H. simpl. auto.
  - apply in_flat_map. exists (s1, g1). auto.
  - apply in_or_app. auto.
  - apply in_or_app. right. simpl. auto.
  - apply iterate_last.
  - destruct s as [ | c s ]; [ simpl in *; lia | ].
    simpl. apply in_or_app. left.
    apply in_flat_map. exists (s1, g1). split; [ assumption | ].
    simpl in *.
    destruct (Nat.ltb_spec (length s1) (S (length s))); [ | lia ].
    eapply iterate_more_fuel; [ | exact IHMatch2 ]. lia.
  - apply in_map_iff. exists (s', g'). auto.
  - rewrite H, Nat.eqb_refl. simpl. auto.
  - auto.
Qed.

(* ================================================================= *)
(** ** The value normaliser *)

Ltac inv H := inversion H; subst; clear H.

Lemma match_cat (n0 : nat) r1 r2 s g s2 g2 :
  Match n0 (Cat r1 r2) s g s2 g2 ->
  exists s1 g1, Match n0 r1 s g s1 g1 /\ Match n0 r2 s1 g1 s2 g2.
Proof. intro H. inv H. eauto. Qed.

Lemma match_group (n0 : nat) r s g s' g' :
  Match n0 (Group r) s g s' g' ->
  (exists g1, Match n0 r s g s' g1) /\ g' = Some (consumed s s').
Proof. intro H. inv H. eauto. Qed.

Lemma match_class (n0 : nat) (p : ascii -> bool) s g s' g' :
  Match n0 (Class p) s g s' g' ->
  exists c, s = c :: s' /\ p c = true /\ g' = g.
Proof. intro H. inv H. eauto. Qed.

Lemma match_bos (n0 : nat) s g s' g' :
  Match n0 Bos s g s' g' -> s' = s /\ g' = g.
Proof. intro H. inv H. auto. Qed.

Lemma match_eos (n0 : nat) s g s' g' :
  Match n0 Eos s g s' g' -> s = [] /\ s' = [] /\ g' = g.
Proof. intro H. inv H. auto. Qed.

Lemma match_star_class (n0 : nat) (p : ascii -> bool) s g s' g' :
  Match n0 (Star (Class p)) s g s' g' ->
  exists l, s = l ++ s' /\ forallb p l = true /\ g' = g.
Proof.
  intro H. remember (Star (Class p)) as r eqn:Hr.
  induction H; try discriminate; injection Hr as ->.
  - exists []. auto.
  - apply match_class in H. destruct H as (c & -> & Hc & ->).
    destruct (IHMatch2 eq_refl) as (l & -> & Hl & ->).
    exists (c :: l). simpl. rewrite Hc, Hl. auto.
Qed.

Lemma star_class_match (n0 : nat) (p : ascii -> bool) g s :
  forall l, forallb p l = true -> Match n0 (Star (Class p)) (l ++ s) g s g.
Proof.
  induction l as [ | c l IH ]; simpl; intro Hl.
  - apply M_Star_stop.
  - apply andb_prop in Hl. destruct Hl as [Hc Hl].
    eapply M_Star_more.
    + apply M_Class. exact Hc.
    + simpl. lia.
    + apply IH. exact Hl.
Qed.

Lemma match_opt_class (n0 : nat) (p : ascii -> bool) s g s' g' :
  Match n0 (Opt (Class p)) s g s' g' ->
  exists l, s = l ++ s' /\ (l = [] \/ exists c, l = [c] /\ p c = true)
            /\ g' = g.
Proof.
  intro H. inv H.
  - match goal with
    | H : Match _ (Class _) _ _ _ _ |- _ =>
        apply match_class in H; destruct H as (c & -> & Hc & ->)
    end.
    exists [c]. split; [ reflexivity | split; [ right; exists c | ] ]; auto.
  - exists []. auto.
Qed.

Lemma opt_class_match (n0 : nat) (p : ascii -> bool) g s l :
  l = [] \/ (exists c, l = [c] /\ p c = true) ->
  Match n0 (Opt (Class p)) (l ++ s) g s g.
Proof.
  intros [ -> | (c & -> & Hc) ]; simpl.
  - apply M_Opt_none.
  - apply M_Opt_some, M_Class, Hc.
Qed.

Lemma is_dot_eq (c : ascii) : is_dot c = true -> c = "."%char.
Proof. apply Ascii.eqb_eq. Qed.

Lemma is_space_eq (c : ascii) : is_space c = true -> c = " "%char.
Proof. apply Ascii.eqb_eq. Qed.

Lemma consumed_app (a b : chars) : consumed (a ++ b) b = a.
Proof.
  unfold consumed. rewrite length_app.
  replace (length a + length b - length b) with (length a) by lia.
  rewrite firstn_app, Nat.sub_diag, firstn_all. simpl. apply app_nil_r.
Qed.

Lemma units_match_shape (s s' : chars) (g' : capture) :
  Match (length s) units_pattern s None s' g' ->
  exists ds1 dot ds2 sp us,
    value_shape s ds1 dot ds2 sp us /\ g' = Some (ds1 ++ dot ++ ds2).
Proof.
  unfold units_pattern, Plus. intro H.
  apply match_cat in H. destruct H as (s0 & g0 & Hbos & H).
  apply match_bos in Hbos. destruct Hbos as [-> ->].
  apply match_cat in H. destruct H as (s1 & g1 & Hgroup & H).
  apply match_group in Hgroup. destruct Hgroup as [(g2 & Hnum) ->].
  apply match_cat in Hnum. destruct Hnum as (sa & ga & Hds1 & Hnum).
  apply match_star_class in Hds1. destruct Hds1 as (ds1 & Hs & Hds1 & ->).
  apply match_cat in Hnum. destruct Hnum as (sb & gb & Hdot & Hnum).
  apply match_opt_class in Hdot. destruct Hdot as (dot & Hsa & Hdot & ->).
  apply match_cat in Hnum. destruct Hnum as (sc & gc & Hc & Hds2).
  apply match_class in Hc. destruct Hc as (c & Hsb & Hc & ->).
  apply match_star_class in Hds2. destruct Hds2 as (ds2 & Hsc & Hds2 & ->).
  apply match_cat in H. destruct H as (sd & gd & Hsp & H).
  apply match_opt_class in Hsp. destruct Hsp as (sp & Hs1 & Hsp & ->).
  apply match_cat in H. destruct H as (se & ge & Hus & Heos).
  apply match_star_class in Hus. destruct Hus as (us & Hsd & Hus & ->).
  apply match_eos in Heos. destruct Heos as (-> & -> & ->).
  rewrite app_nil_r in Hsd. subst sd s1 sc sb sa.
  exists ds1, dot, (c :: ds2), sp, us. split.
  - unfold value_shape. simpl. rewrite Hc, Hds2.
    repeat split; auto.
    + destruct Hdot as [ -> | (c' & -> & Hc') ]; [ auto | right ].
      apply is_dot_eq in Hc'. congruence.
    + discriminate.
    + destruct Hsp as [ -> | (c' & -> & Hc') ]; [ auto | right ].
      apply is_space_eq in Hc'. congruence.
  - f_equal. rewrite Hs.
    replace (ds1 ++ dot ++ c :: ds2 ++ sp ++ us)
      with ((ds1 ++ dot ++ c :: ds2) ++ sp ++ us)
      by (rewrite <- !app_assoc; reflexivity).
    apply consumed_app.
Qed.

Lemma shape_units_match (s ds1 dot ds2 sp us : chars) :
  value_shape s ds1 dot ds2 sp us ->
  Match (length s) units_pattern s None [] (Some (ds1 ++ dot ++ ds2)).
Proof.
  intros (Hs & Hds1 & Hdot & Hds2 & Hne & Hsp & Hus).
  destruct ds2 as [ | c ds2 ]; [ congruence | ].
  simpl in Hds2. apply andb_prop in Hds2. destruct Hds2 as [Hc Hds2].
  unfold units_pattern, Plus.
  eapply M_Cat; [ apply M_Bos; reflexivity | ].
  eapply M_Cat with (s1 := sp ++ us) (g1 := Some (ds1 ++ dot ++ c :: ds2)).
  - replace (Some (ds1 ++ dot ++ c :: ds2))
      with (Some (consumed s (sp ++ us))).
    + apply M_Group with (g' := None). subst s.
      eapply M_Cat; [ apply star_class_match; exact Hds1 | ].
      eapply M_Cat.
      { apply opt_class_match.
        destruct Hdot as [ -> | -> ]; [ auto | right ].
        exists "."%char. auto. }
      simpl.
      eapply M_Cat; [ apply M_Class; exact Hc | ].
      apply star_class_match. exact Hds2.
    + f_equal. subst s.
      replace (ds1 ++ dot ++ (c :: ds2) ++ sp ++ us)
        with ((ds1 ++ dot ++ c :: ds2) ++ sp ++ us)
        by (rewrite <- !app_assoc; reflexivity).
      apply consumed_app.
  - eapply M_Cat.
    { apply opt_class_match.
      destruct Hsp as [ -> | -> ]; [ auto | right ].
      exists " "%char. auto. }
    eapply M_Cat.
    + rewrite <- (app_nil_r us) at 1. apply star_class_match. exact Hus.
    + apply M_Eos.
Qed.

(** *** Converting the captured text *)

Lemma span_digits (ds rest : chars) :
  forallb is_digit ds = true ->
  match rest with [] => True | c :: _ => is_digit c = false end ->
  span is_digit (ds ++ rest) = (ds, rest).
Proof.
  intros Hds Hrest. induction ds as [ | c ds IH ]; simpl in *.
  - destruct rest as [ | c rest ]; [ reflexivity | ].
    simpl. rewrite Hrest. reflexivity.
  - apply andb_prop in Hds. destruct Hds as [Hc Hds].
    rewrite Hc, (IH Hds). reflexivity.
Qed.

Lemma forallb_app_true {A : Type} (p : A -> bool) (l1 l2 : list A) :
  forallb p l1 = true -> forallb p l2 = true -> forallb p (l1 ++ l2) = true.
Proof. intros H1 H2. rewrite forallb_app, H1, H2. reflexivity. Qed.

Lemma python_float_shape (ds1 dot ds2 : chars) :
  forallb is_digit ds1 = true ->
  dot = [] \/ dot = ["."%char] ->
  forallb is_digit ds2 = true ->
  ds2 <> [] ->
  python_float (ds1 ++ dot ++ ds2) = Ok (numeric_value ds1 dot ds2).
Proof.
  intros Hds1 Hdot Hds2 Hne. unfold python_float, numeric_value.
  destruct Hdot as [ -> | -> ]; simpl app.
  - rewrite <- (app_nil_r (ds1 ++ ds2)) at 1.
    rewrite span_digits by (auto using forallb_app_true).
    destruct (ds1 ++ ds2) eqn:Heq; [ | reflexivity ].
    apply app_eq_nil in Heq. destruct Heq. contradiction.
  - rewrite span_digits by auto.
    change (is_dot ".") with true. rewrite Hds2. simpl andb.
    destruct ds2 as [ | c ds2 ]; [ contradiction | ].
    replace (length ds1 + length (c :: ds2) =? 0) with false.
    + reflexivity.
    + symmetry. apply Nat.eqb_neq. simpl. lia.
Qed.

(** *** The converted number is never NaN *)

Local Open Scope Z_scope.

Lemma shr_1_nonneg (mrs : shr_record) :
  0 <= shr_m mrs -> 0 <= shr_m (shr_1 mrs).
Proof.
  destruct mrs as [m r s]. simpl.
  destruct m as [ | [ p | p | ] | p ]; simpl; lia.
Qed.

Lemma iter_shr_1_nonneg (p : positive) :
  forall mrs, 0 <= shr_m mrs -> 0 <= shr_m (iter_pos shr_1 p mrs).
Proof.
  induction p as [ p IH | p IH | ]; intros mrs H; simpl.
  - apply IH, IH, shr_1_nonneg, H.
  - apply IH, IH, H.
  - apply shr_1_nonneg, H.
Qed.

Lemma shr_fexp_nonneg (m e : Z) (l : location) :
  0 <= m -> 0 <= shr_m (fst (shr_fexp prec emax m e l)).
Proof.
  intro H. unfold shr_fexp, shr.
  assert (H0 : 0 <= shr_m (shr_record_of_loc m l))
    by (destruct l as [ | [ | | ] ]; simpl; assumption).
  destruct (fexp prec emax (Zdigits2 m + e) - e); simpl;
    auto using iter_shr_1_nonneg.
Qed.

Lemma round_nearest_even_nonneg (m : Z) (l : location) :
  0 <= m -> 0 <= round_nearest_even m l.
Proof.
  intro H. destruct l as [ | [ | | ] ]; simpl; try lia.
  destruct (Z.even m); lia.
Qed.

Lemma binary_round_aux_not_nan (sx : bool) (m e : Z) (l : location) :
  0 <= m -> is_nan (binary_round_aux prec emax sx m e l) = false.
Proof.
  intro H. unfold binary_round_aux.
  pose proof (shr_fexp_nonneg e l H) as H1.
  destruct (shr_fexp prec emax m e l) as [mrs' e'] eqn:E1. simpl in H1.
  pose proof (@shr_fexp_nonneg
                (round_nearest_even (shr_m mrs') (loc_of_shr_record mrs'))
                e' loc_Exact
                (round_nearest_even_nonneg _ H1)) as H2.
  destruct (shr_fexp prec emax
              (round_nearest_even (shr_m mrs') (loc_of_shr_record mrs'))
              e' loc_Exact) as [mrs'' e''] eqn:E2.
  simpl in H2.
  destruct (shr_m mrs'') as [ | p | p ]; [ reflexivity | | lia ].
  destruct (e'' <=? emax - prec); reflexivity.
Qed.

Lemma float_of_ratio_not_nan (n : Z) (d : positive) :
  0 <= n -> is_nan (float_of_ratio n d) = false.
Proof.
  intro Hn. unfold float_of_ratio.
  destruct n as [ | p | p ]; [ reflexivity | | lia ].
  unfold SFdiv_core_binary.
  set (e' := Z.min _ _).
  set (m' := match 0 - 0 - e' with
             | 0 => Z.pos p
             | Z.pos _ => Z.shiftl (Z.pos p) (0 - 0 - e')
             | Z.neg _ => 0
             end).
  assert (Hm' : 0 <= m').
  { unfold m'. destruct (0 - 0 - e'); try lia.
    apply Z.shiftl_nonneg. lia. }
  pose proof (Z.div_pos m' (Z.pos d) Hm' ltac:(lia)) as Hq.
  unfold Z.div in Hq.
  destruct (Z.div_eucl m' (Z.pos d)) as [q r]. simpl in Hq.
  apply binary_round_aux_not_nan. exact Hq.
Qed.

Lemma digit_value_nonneg (c : ascii) : is_digit c = true -> 0 <= digit_value c.
Proof.
  unfold is_digit, digit_value. intro H.
  apply andb_prop in H. destruct H as [H _].
  apply N.leb_le in H. lia.
Qed.

Lemma decimal_value_nonneg (ds : chars) :
  forallb is_digit ds = true -> 0 <= decimal_value ds.
Proof.
  unfold decimal_value.
  assert (H : forall acc, 0 <= acc -> forallb is_digit ds = true ->
                          0 <= fold_left (fun a c => 10 * a + digit_value c) ds acc).
  { induction ds as [ | c ds IH ]; intros acc Hacc Hds;
      cbn [fold_left]; simpl in Hds.
    - assumption.
    - apply andb_prop in Hds. destruct Hds as [Hc Hds].
      apply IH; [ | assumption ].
      pose proof (digit_value_nonneg c Hc). lia. }
  apply H. lia.
Qed.

Lemma numeric_value_not_nan (ds1 dot ds2 : chars) :
  forallb is_digit ds1 = true ->
  forallb is_digit ds2 = true ->
  is_nan (numeric_value ds1 dot ds2) = false.
Proof.
  intros H1 H2. apply float_of_ratio_not_nan, decimal_value_nonneg.
  auto using forallb_app_true.
Qed.

Local Close Scope Z_scope.

(** *** A value has one number part *)

Lemma numeric_prefix_unique :
  forall a a' b b' : chars,
    a ++ b = a' ++ b' ->
    forallb is_numeric a = true -> forallb is_numeric a' = true ->
    starts_without_numeric b -> starts_without_numeric b' ->
    a = a'.
Proof.
  induction a as [ | c a IH ]; intros [ | c' a' ] b b' Heq Ha Ha' Hb Hb';
    simpl in *.
  - reflexivity.
  - subst b. simpl in Hb. apply andb_prop in Ha'. destruct Ha'. congruence.
  - subst b'. simpl in Hb'. apply andb_prop in Ha. destruct Ha. congruence.
  - injection Heq as -> Heq.
    apply andb_prop in Ha. apply andb_prop in Ha'.
    f_equal. eapply IH; eauto; tauto.
Qed.

Lemma alpha_not_numeric (c : ascii) : is_alpha c = true -> is_numeric c = false.
Proof.
  destruct c as [[] [] [] [] [] [] [] []]; vm_compute; congruence.
Qed.

Lemma digit_is_numeric (ds : chars) :
  forallb is_digit ds = true -> forallb is_numeric ds = true.
Proof.
  induction ds as [ | c ds IH ]; simpl; [ auto | ].
  intro H. apply andb_prop in H. destruct H as [Hc Hds].
  unfold is_numeric at 1. rewrite Hc, (IH Hds). reflexivity.
Qed.

Lemma shape_number_numeric (s ds1 dot ds2 sp us : chars) :
  value_shape s ds1 dot ds2 sp us ->
  forallb is_numeric (ds1 ++ dot ++ ds2) = true
  /\ starts_without_numeric (sp ++ us).
Proof.
  intros (_ & Hds1 & Hdot & Hds2 & _ & Hsp & Hus). split.
  - apply forallb_app_true; [ apply digit_is_numeric, Hds1 | ].
    apply forallb_app_true; [ | apply digit_is_numeric, Hds2 ].
    destruct Hdot as [ -> | -> ]; reflexivity.
  - destruct Hsp as [ -> | -> ]; [ | reflexivity ].
    destruct us as [ | c us ]; simpl in *; [ exact I | ].
    apply andb_prop in Hus. apply alpha_not_numeric, Hus.
Qed.

Lemma shape_number_unique (s ds1 dot ds2 sp us ds1' dot' ds2' sp' us' : chars) :
  value_shape s ds1 dot ds2 sp us ->
  value_shape s ds1' dot' ds2' sp' us' ->
  ds1 ++ dot ++ ds2 = ds1' ++ dot' ++ ds2'.
Proof.
  intros H H'.
  destruct (shape_number_numeric H) as [Hn Hr].
  destruct (shape_number_numeric H') as [Hn' Hr'].
  destruct H as (Hs & _). destruct H' as (Hs' & _).
  apply numeric_prefix_unique with (b := sp ++ us) (b' := sp' ++ us'); auto.
  rewrite <- !app_assoc. congruence.
Qed.

Local Open Scope string_scope.

Lemma drop_units_cases (value : string) :
  (exists v, drop_units value = Ok v)
  /\ (forall ds1 dot ds2 sp us,
         value_shape (list_ascii_of_string value) ds1 dot ds2 sp us ->
         drop_units value = Ok (numeric_value ds1 dot ds2)
         /\ is_nan (numeric_value ds1 dot ds2) = false)
  /\ ((forall ds1 dot ds2 sp us,
          ~ value_shape (list_ascii_of_string value) ds1 dot ds2 sp us) ->
      drop_units value = Ok nan).
Proof.
  unfold drop_units, re_match.
  set (s := list_ascii_of_string value).
  destruct (exec (length s) units_pattern s None) as [ | t ts ] eqn:Hexec.
  - split; [ eauto | split; [ | reflexivity ] ].
    intros ds1 dot ds2 sp us Hshape.
    apply shape_units_match, exec_complete in Hshape.
    rewrite Hexec in Hshape. destruct Hshape.
  - assert (Hin : In t (exec (length s) units_pattern s None))
      by (rewrite Hexec; left; reflexivity).
    apply exec_sound, units_match_shape in Hin.
    destruct Hin as (e1 & edot & e2 & esp & eus & Hfound & Hcapture).
    rewrite Hcapture. simpl group1. cbv iota.
    pose proof Hfound as (_ & He1 & Hedot & He2 & Hne & _).
    rewrite (python_float_shape _ He1 Hedot He2 Hne).
    split; [ eauto | split ].
    + intros ds1 dot ds2 sp us Hshape.
      pose proof Hshape as (_ & Hd1 & Hdot & Hd2 & Hne' & _).
      split; [ | apply numeric_value_not_nan; assumption ].
      rewrite <- (python_float_shape _ He1 Hedot He2 Hne).
      rewrite <- (python_float_shape _ Hd1 Hdot Hd2 Hne').
      f_equal. eapply shape_number_unique; eassumption.
    + intro Hnone. destruct (Hnone _ _ _ _ _ Hfound).
Qed.

(** C8, as amended.  [drop_units] never raises.  On a text of the shape
    number, optional blank, optional letters, the number being optional
    digits, an optional point and then at least one digit, it returns the
    number as a float, which is not NaN; on any other text it returns NaN.
    So ["309.2 kWh"] gives 309.2, ["12"] gives 12.0, and ["abc"] and the
    empty text give NaN. *)
Theorem drop_units_spec :
  (forall value : string,
      (exists v, drop_units value = Ok v)
      /\ (forall ds1 dot ds2 sp us,
             value_shape (list_ascii_of_string value) ds1 dot ds2 sp us ->
             drop_units value = Ok (numeric_value ds1 dot ds2)
             /\ is_nan (numeric_value ds1 dot ds2) = false)
      /\ ((forall ds1 dot ds2 sp us,
              ~ value_shape (list_ascii_of_string value) ds1 dot ds2 sp us) ->
          drop_units value = Ok nan))
  /\ drop_units "309.2 kWh" = Ok (float_of_ratio 3092 10)
  /\ float_of_ratio 3092 10 = S754_finite false 5439503924933427 (-44)
  /\ drop_units "12" = Ok (float_of_Z 12)
  /\ drop_units "abc" = Ok nan
  /\ drop_units "" = Ok nan.
Proof.
  split; [ exact drop_units_cases | vm_compute; repeat split ].
Qed.

Lemma drop_units_spec_witness :
  value_shape (list_ascii_of_string "309.2 kWh")
              (list_ascii_of_string "309") (list_ascii_of_string ".")
              (list_ascii_of_string "2") (list_ascii_of_string " ")
              (list_ascii_of_string "kWh")
  /\ drop_units "309.2 kWh"
     = Ok (numeric_value (list_ascii_of_string "309") (list_ascii_of_string ".")
                         (list_ascii_of_string "2")).
Proof.
  assert (H : value_shape (list_ascii_of_string "309.2 kWh")
                (list_ascii_of_string "309") (list_ascii_of_string ".")
                (list_ascii_of_string "2") (list_ascii_of_string " ")
                (list_ascii_of_string "kWh")).
  { unfold value_shape. simpl.
    repeat split; auto; discriminate. }
  split; [ exact H | ].
  destruct drop_units_spec as [Hall _].
  destruct (Hall "309.2 kWh") as (_ & Hshape & _).
  destruct (Hshape _ _ _ _ _ H) as [Hvalue _].
  exact Hvalue.
Defined.

(** C8 as stated fails: ["5."] has a leading digit, a point and one digit
    overall, and [drop_units] returns NaN for it, since the pattern wants a
    digit after the point. *)
Lemma drop_units_rejects_trailing_point :
  loose_value_shape (list_ascii_of_string "5.")
                    (list_ascii_of_string "5") (list_ascii_of_string ".")
                    [] [] []
  /\ drop_units "5." = Ok nan.
Proof.
  split; [ | vm_compute; reflexivity ].
  unfold loose_value_shape. simpl.
  repeat split; auto. discriminate.
Qed.

Local Close Scope string_scope.

(* ================================================================= *)
(** ** Sorted lists of distinct keys *)

Section SortedUniqueFacts.
Variable A : Type.
Variable cmp : A -> A -> comparison.
Hypothesis cmp_eq : forall x y, cmp x y = Eq -> x = y.
Hypothesis cmp_refl : forall x, cmp x x = Eq.
Hypothesis cmp_antisym : forall x y, cmp x y = CompOpp (cmp y x).
Hypothesis cmp_trans :
  forall x y z, cmp x y = Lt -> cmp y z = Lt -> cmp x z = Lt.

Lemma insert_In (x y : A) (l : list A) :
  In y (insert cmp x l) <-> y = x \/ In y l.
Proof.
  induction l as [ | z l IH ]; simpl.
  - intuition.
  - destruct (cmp x z) eqn:Hc; simpl.
    + apply cmp_eq in Hc. subst z. intuition.
    + intuition.
    + rewrite IH. intuition.
Qed.

Lemma sorted_unique_In (y : A) (l : list A) :
  In y (sorted_unique cmp l) <-> In y l.
Proof.
  induction l as [ | x l IH ]; simpl.
  - tauto.
  - rewrite insert_In, IH. intuition.
Qed.

Lemma insert_sorted (x : A) (l : list A) :
  StronglySorted (before cmp) l -> StronglySorted (before cmp) (insert cmp x l).
Proof.
  induction 1 as [ | z l Hsorted IH Hz ]; simpl.
  - repeat constructor.
  - destruct (cmp x z) eqn:Hc.
    + constructor; assumption.
    + constructor; [ constructor; assumption | ].
      constructor; [ exact Hc | ].
      rewrite Forall_forall in *. intros w Hw.
      eapply cmp_trans; [ exact Hc | apply Hz, Hw ].
    + constructor; [ exact IH | ].
      rewrite Forall_forall in *. intros w Hw.
      apply insert_In in Hw. destruct Hw as [ -> | Hw ]; [ | auto ].
      unfold before. rewrite cmp_antisym, Hc. reflexivity.
Qed.

Lemma sorted_unique_sorted (l : list A) :
  StronglySorted (before cmp) (sorted_unique cmp l).
Proof.
  induction l as [ | x l IH ]; simpl.
  - constructor.
  - apply insert_sorted, IH.
Qed.

Lemma sorted_NoDup (l : list A) : StronglySorted (before cmp) l -> NoDup l.
Proof.
  induction 1 as [ | z l Hsorted IH Hz ]; constructor; [ | exact IH ].
  intro Hin. rewrite Forall_forall in Hz.
  specialize (Hz z Hin). unfold before in Hz.
  rewrite cmp_refl in Hz. discriminate.
Qed.
End SortedUniqueFacts.

Lemma string_compare_refl (s : string) : String.compare s s = Eq.
Proof.
  induction s as [ | c s IH ]; simpl; [ reflexivity | ].
  unfold Ascii.compare. rewrite N.compare_refl. exact IH.
Qed.

Lemma string_compare_trans (x y z : string) :
  String.compare x y = Lt -> String.compare y z = Lt ->
  String.compare x z = Lt.
Proof.
  revert y z. induction x as [ | a x IH ]; intros [ | b y ] [ | c z ];
    simpl; try congruence.
  unfold Ascii.compare.
  destruct (N.compare_spec (N_of_ascii a) (N_of_ascii b)) as [ Hab | Hab | Hab ];
    try discriminate;
    destruct (N.compare_spec (N_of_ascii b) (N_of_ascii c)) as [ Hbc | Hbc | Hbc ];
    try discriminate; intros Hxy Hyz.
  - rewrite Hab, Hbc, N.compare_refl. eapply IH; eassumption.
  - rewrite Hab. apply N.compare_lt_iff in Hbc. rewrite Hbc. reflexivity.
  - rewrite <- Hbc. apply N.compare_lt_iff in Hab. rewrite Hab. reflexivity.
  - assert (H : (N_of_ascii a < N_of_ascii c)%N) by lia.
    apply N.compare_lt_iff in H. rewrite H. reflexivity.
Qed.

Lemma key_compare_eq (a b : key) : key_compare a b = Eq -> a = b.
Proof.
  destruct a as [a1 a2], b as [b1 b2]. unfold key_compare. simpl.
  destruct (String.compare a1 b1) eqn:H1; try discriminate.
  intro H2. apply String.compare_eq_iff in H1, H2. congruence.
Qed.

Lemma key_eqb_eq (a b : key) : key_eqb a b = true <-> a = b.
Proof.
  destruct a as [a1 a2], b as [b1 b2]. unfold key_eqb. simpl.
  rewrite andb_true_iff, !String.eqb_eq. split.
  - intros [-> ->]. reflexivity.
  - intros [= -> ->]. auto.
Qed.

(* ================================================================= *)
(** ** The table builder *)

Lemma map_result_Forall2 {A B : Type} (f : A -> result B) :
  forall (l : list A) (l' : list B),
    map_result f l = Ok l' -> Forall2 (fun x y => f x = Ok y) l l'.
Proof.
  induction l as [ | a l IH ]; simpl; intros l' H.
  - injection H as <-. constructor.
  - destruct (f a) as [ b | e ] eqn:Hf; simpl in H; [ | discriminate ].
    destruct (map_result f l) as [ bs | e ]; simpl in H; [ | discriminate ].
    injection H as <-. constructor; auto.
Qed.

Lemma read_csv_values (input : list raw_record) :
  map_result
    (fun r => try v <- drop_units (object_value r) ;;
              Ok ((timestamp r, variable r), v))
    input
  = Ok (map (fun r => (record_key r, normalized r)) input).
Proof.
  induction input as [ | r input IH ]; simpl.
  - reflexivity.
  - unfold normalized at 1.
    destruct (drop_units_cases (object_value r)) as ((v & Hv) & _).
    rewrite Hv. simpl. rewrite IH. reflexivity.
Qed.

Lemma read_csv_ok (input : list raw_record) :
  forallb index_kept_as_text input = true ->
  read_csv input = Ok (map (fun r => (record_key r, normalized r)) input).
Proof.
  intro H. unfold read_csv. rewrite H. apply read_csv_values.
Qed.

Lemma read_csv_returns (input : list raw_record) (s : Series) :
  read_csv input = Ok s ->
  forallb index_kept_as_text input = true
  /\ s = map (fun r => (record_key r, normalized r)) input.
Proof.
  unfold read_csv.
  destruct (forallb index_kept_as_text input); [ | discriminate ].
  rewrite read_csv_values. intro H. injection H as <-. auto.
Qed.

Lemma parse_index_kept (input : list raw_record) (df : DataFrame) :
  parse input = Ok df -> forallb index_kept_as_text input = true.
Proof.
  unfold parse.
  destruct (read_csv input) as [ s | e ] eqn:Hs; [ | discriminate ].
  intros _. apply (read_csv_returns _ Hs).
Qed.

Lemma last_cons_default {A : Type} (l : list A) :
  forall a d : A, last (a :: l) d = last l a.
Proof.
  induction l as [ | b l IH ]; intros a d; [ reflexivity | ].
  change (last (a :: b :: l) d) with (last (b :: l) d).
  rewrite (IH b d), (IH b a). reflexivity.
Qed.

Lemma group_last_last (values : list float) :
  group_last values = last_number values.
Proof.
  unfold group_last, last_number. generalize nan.
  induction values as [ | v values IH ]; intro acc; cbn [fold_left filter].
  - reflexivity.
  - destruct (is_nan v); cbn [negb].
    + apply IH.
    + rewrite last_cons_default. apply IH.
Qed.

Lemma series_get_tabulate (f : key -> float) (k : key) (ks : list key) :
  series_get k (map (fun k' => (k', f k')) ks)
  = if existsb (fun k' => key_eqb k' k) ks then f k else nan.
Proof.
  unfold series_get. induction ks as [ | k' ks IH ]; simpl.
  - reflexivity.
  - destruct (key_eqb k' k) eqn:Hk; simpl.
    + apply key_eqb_eq in Hk. subst. reflexivity.
    + exact IH.
Qed.

Lemma values_at_absent (k : key) (s : Series) :
  ~ In k (map fst s) -> values_at k s = [].
Proof.
  unfold values_at. induction s as [ | e s IH ]; simpl; intro H.
  - reflexivity.
  - destruct (key_eqb (fst e) k) eqn:Hk.
    + apply key_eqb_eq in Hk. tauto.
    + apply IH. tauto.
Qed.

Lemma values_at_records (k : key) (input : list raw_record) :
  values_at k (map (fun r => (record_key r, normalized r)) input)
  = map normalized (filter (fun r => key_eqb (record_key r) k) input).
Proof.
  unfold values_at. induction input as [ | r input IH ]; simpl.
  - reflexivity.
  - destruct (key_eqb (record_key r) k); simpl; rewrite IH; reflexivity.
Qed.

Lemma series_get_grouped (k : key) (s : Series) :
  series_get k (groupby_index_last s) = group_last (values_at k s).
Proof.
  unfold groupby_index_last.
  rewrite (series_get_tabulate (fun k => group_last (values_at k s))).
  destruct (existsb _ _) eqn:Hex; [ reflexivity | ].
  rewrite values_at_absent; [ reflexivity | ].
  intro Hin.
  rewrite <- (sorted_unique_In key_compare key_compare_eq) in Hin.
  assert (Htrue : existsb (fun k' => key_eqb k' k)
                          (sorted_unique key_compare (map fst s)) = true).
  { apply existsb_exists. exists k. split; [ exact Hin | ].
    apply key_eqb_eq. reflexivity. }
  congruence.
Qed.

(** The rows and the columns of the table built from an export. *)
Lemma unstacked_index (s : Series) :
  forall t, In t (u_index (unstack (groupby_index_last s)))
            <-> In t (map (fun e => fst (fst e)) s).
Proof.
  intro t. unfold unstack. simpl.
  rewrite (sorted_unique_In String.compare String.compare_eq_iff).
  unfold groupby_index_last. rewrite map_map. simpl.
  rewrite !in_map_iff. split.
  - intros (k & <- & Hk).
    rewrite (sorted_unique_In key_compare key_compare_eq) in Hk.
    apply in_map_iff in Hk. destruct Hk as (e & <- & He). eauto.
  - intros (e & <- & He). exists (fst e). split; [ reflexivity | ].
    rewrite (sorted_unique_In key_compare key_compare_eq).
    apply in_map. exact He.
Qed.

Lemma unstacked_columns (s : Series) :
  forall v, In v (u_columns (unstack (groupby_index_last s)))
            <-> In v (map (fun e => snd (fst e)) s).
Proof.
  intro v. unfold unstack. simpl.
  rewrite (sorted_unique_In String.compare String.compare_eq_iff).
  unfold groupby_index_last. rewrite map_map. simpl.
  rewrite !in_map_iff. split.
  - intros (k & <- & Hk).
    rewrite (sorted_unique_In key_compare key_compare_eq) in Hk.
    apply in_map_iff in Hk. destruct Hk as (e & <- & He). eauto.
  - intros (e & <- & He). exists (fst e). split; [ reflexivity | ].
    rewrite (sorted_unique_In key_compare key_compare_eq).
    apply in_map. exact He.
Qed.

Lemma unstacked_cell (s : Series) (i j : nat) (t v : string) :
  let u := unstack (groupby_index_last s) in
  nth_error (u_index u) i = Some t ->
  nth_error (u_columns u) j = Some v ->
  nth j (nth i (u_data u) []) nan = group_last (values_at (t, v) s).
Proof.
  intros u Ht Hv. unfold u, unstack in *. simpl in *.
  set (g := groupby_index_last s) in *.
  set (rows := sorted_unique String.compare (map (fun e => fst (fst e)) g)) in *.
  set (cols := sorted_unique String.compare (map (fun e => snd (fst e)) g)) in *.
  erewrite (@nth_error_nth _ _ i) by (rewrite nth_error_map, Ht; reflexivity).
  erewrite (@nth_error_nth _ _ j) by (rewrite nth_error_map, Hv; reflexivity).
  apply series_get_grouped.
Qed.

Lemma parse_table (input : list raw_record) (df : DataFrame) :
  parse input = Ok df ->
  let u := unstack (groupby_index_last
                      (map (fun r => (record_key r, normalized r)) input)) in
  map_result drop_prefix (u_columns u) = Ok (columns df)
  /\ map_result to_datetime (u_index u) = Ok (index df)
  /\ data df = u_data u.
Proof.
  unfold parse.
  destruct (read_csv input) as [ s | e ] eqn:Hs; cbn [result_bind];
    [ | discriminate ].
  apply read_csv_returns in Hs. destruct Hs as (_ & ->).
  set (g := groupby_index_last _).
  destruct (from_tuples g) as [ g' | e ] eqn:Hg; cbn [result_bind];
    [ | discriminate ].
  assert (g' = g) as -> by (destruct g; simpl in Hg; congruence).
  destruct (map_result drop_prefix _) as [ cols | e ]; cbn [result_bind];
    [ | discriminate ].
  destruct (map_result to_datetime _) as [ idx | e ]; cbn [result_bind];
    [ | discriminate ].
  intros [= <-]. auto.
Qed.

Lemma strings_sorted (l : list string) :
  StronglySorted (before String.compare) (sorted_unique String.compare l).
Proof.
  apply sorted_unique_sorted.
  - apply String.compare_eq_iff.
  - apply String.compare_antisym.
  - apply string_compare_trans.
Qed.

Lemma parse_rows_columns (input : list raw_record) (df : DataFrame) :
  parse input = Ok df ->
  exists rows cols : list string,
    StronglySorted (before String.compare) rows
    /\ StronglySorted (before String.compare) cols
    /\ (forall t, In t rows <-> exists r, In r input /\ timestamp r = t)
    /\ (forall v, In v cols <-> exists r, In r input /\ variable r = v)
    /\ Forall2 (fun t ts => to_datetime t = Ok ts) rows (index df)
    /\ Forall2 (fun v l => drop_prefix v = Ok l) cols (columns df)
    /\ forall i j t v,
        nth_error rows i = Some t -> nth_error cols j = Some v ->
        cell df i j = last_number (readings_of t v input).
Proof.
  intro Hparse. apply parse_table in Hparse.
  destruct Hparse as (Hcols & Hrows & Hdata).
  set (s := map (fun r => (record_key r, normalized r)) input) in *.
  exists (u_index (unstack (groupby_index_last s))),
         (u_columns (unstack (groupby_index_last s))).
  split; [ apply strings_sorted | ].
  split; [ apply strings_sorted | ].
  split; [ | split; [ | split; [ | split ] ] ].
  - intro t. rewrite unstacked_index. unfold s. rewrite map_map. simpl.
    rewrite in_map_iff. split; intros (r & H1 & H2); eauto.
  - intro v. rewrite unstacked_columns. unfold s. rewrite map_map. simpl.
    rewrite in_map_iff. split; intros (r & H1 & H2); eauto.
  - apply map_result_Forall2. exact Hrows.
  - apply map_result_Forall2. exact Hcols.
  - intros i j t v Ht Hv. unfold cell. rewrite Hdata.
    rewrite (unstacked_cell s i j Ht Hv).
    rewrite group_last_last. unfold s, readings_of.
    rewrite values_at_records. reflexivity.
Qed.

Local Open Scope string_scope.

(** C1, as amended.  The table has one row per distinct timestamp text and
    one column per distinct variable name, so one cell per key; the cell
    holds the value of the last record with that key whose value is a
    number, and NaN when no record with that key carries a number. *)
Theorem parse_keeps_last_number (input : list raw_record) (df : DataFrame) :
  parse input = Ok df ->
  exists rows cols : list string,
    NoDup rows /\ NoDup cols
    /\ (forall r, In r input -> In (timestamp r) rows /\ In (variable r) cols)
    /\ Forall2 (fun t ts => to_datetime t = Ok ts) rows (index df)
    /\ Forall2 (fun v l => drop_prefix v = Ok l) cols (columns df)
    /\ forall i j t v,
        nth_error rows i = Some t -> nth_error cols j = Some v ->
        cell df i j = last_number (readings_of t v input).
Proof.
  intro Hparse.
  destruct (@parse_rows_columns _ _ Hparse)
    as (rows & cols & Hrs & Hcs & Hrows & Hcols & Hidx & Hlab & Hcell).
  exists rows, cols.
  split; [ eapply sorted_NoDup; [ apply string_compare_refl | exact Hrs ] | ].
  split; [ eapply sorted_NoDup; [ apply string_compare_refl | exact Hcs ] | ].
  split; [ | auto ].
  intros r Hr. split; [ apply Hrows | apply Hcols ]; eauto.
Qed.

Lemma parse_keeps_last_number_witness :
  exists df,
    parse corrected_then_garbled = Ok df
    /\ exists rows cols : list string,
        NoDup rows /\ NoDup cols
        /\ (forall r, In r corrected_then_garbled ->
                      In (timestamp r) rows /\ In (variable r) cols)
        /\ Forall2 (fun t ts => to_datetime t = Ok ts) rows (index df)
        /\ Forall2 (fun v l => drop_prefix v = Ok l) cols (columns df)
        /\ forall i j t v,
            nth_error rows i = Some t -> nth_error cols j = Some v ->
            cell df i j = last_number (readings_of t v corrected_then_garbled).
Proof.
  assert (Hparse : parse corrected_then_garbled
                   = Ok {| index := [make_timestamp 2020 4 3 10 0];
                           columns := [NaNLabel];
                           data := [[float_of_Z 5]] |})
    by (vm_compute; reflexivity).
  eexists. split; [ exact Hparse | ].
  exact (@parse_keeps_last_number _ _ Hparse).
Defined.

(** C1 as stated fails: the later of two records with one key carries no
    number, and the cell keeps the value of the earlier one. *)
Lemma parse_keeps_earlier_number :
  exists df,
    parse corrected_then_garbled = Ok df
    /\ cell df 0 0 = float_of_Z 5
    /\ map normalized corrected_then_garbled = [float_of_Z 5; nan].
Proof.
  eexists. split; [ vm_compute; reflexivity | ].
  split; vm_compute; reflexivity.
Qed.

(** C5, as amended.  The index holds the timestamps read day first
    (["03/04/2020 10:00"] is 3 April 2020); the rows are in ascending order
    of the timestamp texts, compared as strings. *)
Theorem parse_rows_in_text_order :
  (to_datetime "03/04/2020 10:00" = Ok (make_timestamp 2020 4 3 10 0)
   /\ civil_from_days (date_of (make_timestamp 2020 4 3 10 0)) = (2020, 4, 3)%Z
   /\ make_timestamp 2020 4 3 10 0 <> make_timestamp 2020 3 4 10 0)
  /\ forall (input : list raw_record) (df : DataFrame),
      parse input = Ok df ->
      exists rows : list string,
        StronglySorted (before String.compare) rows
        /\ (forall t, In t rows <-> exists r, In r input /\ timestamp r = t)
        /\ Forall2 (fun t ts => to_datetime t = Ok ts) rows (index df).
Proof.
  split.
  - vm_compute. repeat split. discriminate.
  - intros input df Hparse.
    destruct (@parse_rows_columns _ _ Hparse)
      as (rows & cols & Hrs & _ & Hrows & _ & Hidx & _).
    exists rows. auto.
Qed.

Lemma parse_rows_in_text_order_witness :
  exists df rows,
    parse april_then_may = Ok df
    /\ StronglySorted (before String.compare) rows
    /\ Forall2 (fun t ts => to_datetime t = Ok ts) rows (index df).
Proof.
  assert (Hparse : parse april_then_may
                   = Ok {| index := [make_timestamp 2020 5 1 10 0;
                                     make_timestamp 2020 4 3 10 0];
                           columns := [NaNLabel];
                           data := [[float_of_Z 2]; [float_of_Z 1]] |})
    by (vm_compute; reflexivity).
  destruct parse_rows_in_text_order as [_ Hall].
  destruct (Hall _ _ Hparse) as (rows & Hsorted & _ & Hidx).
  eexists. exists rows. split; [ exact Hparse | split; assumption ].
Defined.

(** C5 as stated fails: 1 May 2020 comes before 3 April 2020 in the index,
    because ["01/05/2020 10:00"] sorts before ["03/04/2020 10:00"]. *)
Lemma parse_rows_not_in_time_order :
  exists df,
    parse april_then_may = Ok df
    /\ index df = [make_timestamp 2020 5 1 10 0; make_timestamp 2020 4 3 10 0]
    /\ (make_timestamp 2020 4 3 10 0 < make_timestamp 2020 5 1 10 0)%Z.
Proof.
  eexists. split; [ vm_compute; reflexivity | ].
  split; vm_compute; reflexivity.
Qed.

Local Close Scope string_scope.

(* ================================================================= *)
(** ** Running the pandas calls *)

Lemma bind_run {A B : Type} (c : M A) (k : A -> M B) (h h' : heap) (a : A) :
  c h = (Ok a, h') -> bind c k h = k a h'.
Proof. intro H. unfold bind. rewrite H. reflexivity. Qed.

Lemma nth_error_snoc_last {A : Type} (l : list A) (a : A) :
  nth_error (l ++ [a]) (length l) = Some a.
Proof. rewrite nth_error_app2, Nat.sub_diag by lia. reflexivity. Qed.

Lemma nth_error_snoc_old {A : Type} (l : list A) (a b : A) (i : nat) :
  nth_error l i = Some b -> nth_error (l ++ [a]) i = Some b.
Proof.
  intro H. rewrite nth_error_app1; [ exact H | ].
  apply nth_error_Some. congruence.
Qed.

Lemma update_last {A : Type} (l : list A) (a b : A) :
  update (length l) b (l ++ [a]) = l ++ [b].
Proof. induction l as [ | c l IH ]; simpl; [ | rewrite IH ]; reflexivity. Qed.

Ltac lookup :=
  repeat first [ apply nth_error_snoc_last | apply nth_error_snoc_old ];
  try assumption.

Lemma load_run (h : heap) (r : loc) (d : DataFrame) :
  nth_error h r = Some d -> load r h = (Ok d, h).
Proof. intro H. unfold load. rewrite H. reflexivity. Qed.

Lemma getitem_columns_run (h : heap) (df : loc) (d : DataFrame)
      (keys : list string) (ps : list nat) :
  nth_error h df = Some d ->
  columns_indexer keys (columns d) = Ok ps ->
  getitem_columns df keys h = (Ok (length h), h ++ [take_columns ps d]).
Proof.
  intros Hd Hps. unfold getitem_columns.
  erewrite bind_run by (apply load_run; exact Hd).
  unfold bind, lift. rewrite Hps. reflexivity.
Qed.

Lemma replace_run (h : heap) (df : loc) (d : DataFrame) (a b : float) :
  nth_error h df = Some d ->
  replace df a b h = (Ok (length h), h ++ [replace_cells a b d]).
Proof.
  intros Hd. unfold replace. erewrite bind_run by (apply load_run; exact Hd). reflexivity.
Qed.

Lemma groupby_getitem_run (h : heap) (g : DataFrameGroupBy) (d : DataFrame)
      (keys : list string) (ps : list nat) :
  nth_error h (gb_obj g) = Some d ->
  columns_indexer keys (columns d) = Ok ps ->
  groupby_getitem g keys h
  = (Ok {| gb_obj := gb_obj g; gb_keys := gb_keys g;
           gb_selection := Some keys |}, h).
Proof.
  intros Hd Hps. unfold groupby_getitem.
  erewrite bind_run by (apply load_run; exact Hd).
  unfold bind, lift. rewrite Hps. reflexivity.
Qed.

Lemma groupby_agg_run (h : heap) (agg : list float -> float)
      (obj : loc) (keys : list date) (names : list string)
      (d : DataFrame) (ps : list nat) :
  nth_error h obj = Some d ->
  columns_indexer names (columns d) = Ok ps ->
  groupby_agg agg {| gb_obj := obj; gb_keys := keys;
                     gb_selection := Some names |} h
  = (Ok (length h), h ++ [aggregate agg keys (take_columns ps d)]).
Proof.
  intros Hd Hps. unfold groupby_agg. cbn [gb_obj gb_keys gb_selection].
  erewrite bind_run by (apply load_run; exact Hd).
  unfold bind, lift, ret. rewrite Hps. reflexivity.
Qed.

Lemma frame_sub_run (h : heap) (a b : loc) (x y : DataFrame) :
  nth_error h a = Some x -> nth_error h b = Some y ->
  same_axes x y = true ->
  frame_sub a b h
  = (Ok (length h),
     h ++ [{| index := index x; columns := columns x;
              data := zip_with (zip_with float_sub) (data x) (data y) |}]).
Proof.
  intros Hx Hy Hsame. unfold frame_sub.
  erewrite bind_run by (apply load_run; exact Hx).
  erewrite bind_run by (apply load_run; exact Hy).
  rewrite Hsame.
  reflexivity.
Qed.

Lemma frame_mul_run (h : heap) (a : loc) (c : float) (x : DataFrame) :
  nth_error h a = Some x ->
  frame_mul a c h
  = (Ok (length h),
     h ++ [{| index := index x; columns := columns x;
              data := map (map (fun v => float_mul v c)) (data x) |}]).
Proof.
  intros Hx. unfold frame_mul. erewrite bind_run by (apply load_run; exact Hx). reflexivity.
Qed.

Lemma set_columns_last_run (h : heap) (d : DataFrame) (labels : list label) :
  length labels = length (columns d) ->
  set_columns (length h) labels (h ++ [d])
  = (Ok tt, h ++ [{| index := index d; columns := labels; data := data d |}]).
Proof.
  intros Hlen. unfold set_columns.
  erewrite bind_run by (apply load_run, nth_error_snoc_last).
  rewrite Hlen, Nat.eqb_refl. unfold store. rewrite update_last. reflexivity.
Qed.

Lemma concat_columns_run (h : heap) (a b : loc) (x y : DataFrame) :
  nth_error h a = Some x -> nth_error h b = Some y ->
  list_eqb Z.eqb (index x) (index y) = true ->
  concat_columns a b h
  = (Ok (length h),
     h ++ [{| index := index x; columns := columns x ++ columns y;
              data := zip_with (@app float) (data x) (data y) |}]).
Proof.
  intros Hx Hy Hsame. unfold concat_columns.
  erewrite bind_run by (apply load_run; exact Hx).
  erewrite bind_run by (apply load_run; exact Hy).
  rewrite Hsame.
  reflexivity.
Qed.

Lemma list_eqb_refl {A : Type} (eqb : A -> A -> bool) (l : list A) :
  (forall a, eqb a a = true) -> list_eqb eqb l l = true.
Proof.
  intro H. induction l as [ | a l IH ]; simpl; [ | rewrite H, IH ]; reflexivity.
Qed.

Lemma label_eqb_refl (l : label) : label_eqb l l = true.
Proof. destruct l; simpl; [ apply String.eqb_refl | reflexivity ]. Qed.

Lemma label_eqb_eq (a b : label) : label_eqb a b = true -> a = b.
Proof.
  destruct a, b; simpl; try discriminate; [ | reflexivity ].
  intro H. apply String.eqb_eq in H. congruence.
Qed.

(* ================================================================= *)
(** ** The columns of the summary *)

Lemma columns_indexer_singles (cols : list label) :
  forall keys : list string,
    forallb (fun name => length (label_positions (Name name) 0 cols) =? 1)
            keys = true ->
    columns_indexer keys cols
    = Ok (map (fun name => hd 0 (label_positions (Name name) 0 cols)) keys).
Proof.
  induction keys as [ | k keys IH ]; simpl; intro H.
  - reflexivity.
  - apply andb_prop in H. destruct H as [Hk Hkeys].
    apply Nat.eqb_eq in Hk.
    destruct (label_positions (Name k) 0 cols) as [ | p [ | q ps ] ];
      try discriminate.
    rewrite (IH Hkeys). reflexivity.
Qed.

Lemma label_positions_nth (l : label) (cols : list label) :
  forall i p,
    In p (label_positions l i cols) ->
    i <= p /\ nth (p - i) cols NaNLabel = l.
Proof.
  induction cols as [ | c cols IH ]; simpl; intros i p Hin.
  - destruct Hin.
  - destruct (label_eqb c l) eqn:Hc.
    + destruct Hin as [ <- | Hin ].
      * rewrite Nat.sub_diag. split; [ lia | ]. apply label_eqb_eq, Hc.
      * apply IH in Hin. destruct Hin as [Hle Hnth]. split; [ lia | ].
        replace (p - i) with (S (p - S i)) by lia. exact Hnth.
    + apply IH in Hin. destruct Hin as [Hle Hnth]. split; [ lia | ].
      replace (p - i) with (S (p - S i)) by lia. exact Hnth.
Qed.

Lemma picked_labels (cols : list label) :
  forall keys : list string,
    forallb (fun name => length (label_positions (Name name) 0 cols) =? 1)
            keys = true ->
    map (fun j => nth j cols NaNLabel)
        (map (fun name => hd 0 (label_positions (Name name) 0 cols)) keys)
    = map Name keys.
Proof.
  induction keys as [ | k keys IH ]; simpl; intro H.
  - reflexivity.
  - apply andb_prop in H. destruct H as [Hk Hkeys].
    apply Nat.eqb_eq in Hk. rewrite (IH Hkeys). f_equal.
    destruct (label_positions (Name k) 0 cols) as [ | p [ | q ps ] ] eqn:Hp;
      try discriminate.
    destruct (@label_positions_nth (Name k) cols 0 p) as [_ Hnth].
    { rewrite Hp. left. reflexivity. }
    rewrite Nat.sub_0_r in Hnth. exact Hnth.
Qed.

Lemma window_columns (d : DataFrame) (st en : option time) :
  columns (window d st en) = columns d.
Proof. destruct st, en; reflexivity. Qed.

Lemma selected_indexer :
  columns_indexer summary_columns (map Name summary_columns)
  = Ok (seq 0 7).
Proof. vm_compute. reflexivity. Qed.

(* ================================================================= *)
(** ** The cells of the summary *)

Lemma zip_with_map {A B C D : Type} (f : B -> C -> D) (g : A -> B) (g' : A -> C)
      (l : list A) :
  zip_with f (map g l) (map g' l) = map (fun x => f (g x) (g' x)) l.
Proof.
  induction l as [ | a l IH ]; simpl; [ | rewrite IH ]; reflexivity.
Qed.

Lemma nth_map_some {A B : Type} (G : A -> B) (l : list A) (i : nat) (x : A)
      (d : B) :
  nth_error l i = Some x -> nth i (map G l) d = G x.
Proof.
  intro H. apply nth_error_nth. rewrite nth_error_map, H. reflexivity.
Qed.

Lemma rows_with_key_map (F : list float -> list float) (k : date) :
  forall (keys : list date) (rows : list (list float)),
    rows_with_key k keys (map F rows) = map F (rows_with_key k keys rows).
Proof.
  induction keys as [ | k' keys IH ]; intros [ | row rows ]; simpl;
    try reflexivity.
  destruct (Z.eqb k' k); simpl; rewrite IH; reflexivity.
Qed.

(** The rows a group reduction reads are the rows of the bucket. *)
Lemma rows_with_key_bucket (k : date) :
  forall (keys : list date) (rows : list (list float)),
    rows_with_key k keys rows = bucket_rows k keys rows.
Proof.
  unfold bucket_rows.
  induction keys as [ | k' keys IH ]; intros [ | row rows ]; simpl;
    try reflexivity.
  destruct (Z.eqb k' k); simpl; rewrite IH; reflexivity.
Qed.

Lemma selected_column (w : DataFrame) (keys : list date) (k : date) (j : nat) :
  j < 7 ->
  column_of j (rows_with_key k keys (data (selected w)))
  = readings w keys k j.
Proof.
  intro Hj. unfold selected, take_columns, replace_cells. cbn [data].
  rewrite !map_map, rows_with_key_map, rows_with_key_bucket.
  unfold column_of, readings, raw_readings. rewrite !map_map.
  apply map_ext. intro row.
  do 7 (destruct j as [ | j ]; [ reflexivity | ]). lia.
Qed.

Lemma summary_cell (w : DataFrame) (keys : list date) (cost : float)
      (i j : nat) (k : date) :
  nth_error (sorted_unique Z.compare keys) i = Some k ->
  j < 7 ->
  cell (summary_of keys (selected w) cost) i j
  = float_sub (group_max (readings w keys k j))
              (group_min (readings w keys k j))
  /\ cell (summary_of keys (selected w) cost) i (7 + j)
     = float_mul (cell (summary_of keys (selected w) cost) i j) cost.
Proof.
  intros Hk Hj.
  assert (Hrow : nth i (data (summary_of keys (selected w) cost)) []
                 = let e := map (fun j => float_sub
                                   (group_max (readings w keys k j))
                                   (group_min (readings w keys k j)))
                                (seq 0 7) in
                   e ++ map (fun v => float_mul v cost) e).
  { unfold summary_of, aggregate. cbn [data].
    change (length (columns (selected w))) with 7.
    rewrite zip_with_map.
    rewrite (map_ext _ (fun k => map (fun j => float_sub
                                   (group_max (readings w keys k j))
                                   (group_min (readings w keys k j)))
                                (seq 0 7))).
    - rewrite map_map, zip_with_map.
      erewrite nth_map_some by exact Hk. reflexivity.
    - intro k'. rewrite zip_with_map. apply map_ext_in.
      intros j' Hj'. apply in_seq in Hj'.
      rewrite !selected_column by lia. reflexivity. }
  unfold cell. rewrite Hrow. cbv zeta.
  do 7 (destruct j as [ | j ]; [ split; reflexivity | ]). lia.
Qed.

(* ================================================================= *)
(** ** What [summarize] returns *)

Lemma summarize_run (h : heap) (df : loc) (d : DataFrame) (cost : float)
      (start_time end_time : option time) (keys : list date) :
  nth_error h df = Some d ->
  has_meters d = true ->
  group_key (window d start_time end_time) start_time end_time = Ok keys ->
  exists (r : loc) (h' : heap),
    summarize df cost start_time end_time h = (Ok r, h')
    /\ nth_error h' r
       = Some (summary_of keys (selected (window d start_time end_time)) cost).
Proof.
  intros Hd Hmeters Hkeys. unfold summarize.
  set (w := window d start_time end_time) in *.
  match goal with
  | |- exists r h', bind ?c ?k h = _ /\ _ => set (first := c); set (K := k)
  end.
  assert (Hfirst : exists df1 h1,
             first h = (Ok df1, h1) /\ nth_error h1 df1 = Some w).
  { subst first w. destruct start_time as [ st | ], end_time as [ en | ];
      cbn [window] in *.
    - exists (length h), (h ++ [take_rows (indexer_between_time (index d) st en) d]).
      split; [ | apply nth_error_snoc_last ].
      erewrite bind_run by (apply load_run; exact Hd).
      unfold iloc_rows.
      erewrite bind_run by (apply load_run; exact Hd).
      reflexivity.
    - exists df, h. split; [ reflexivity | exact Hd ].
    - discriminate.
    - exists df, h. split; [ reflexivity | exact Hd ]. }
  destruct Hfirst as (df1 & h1 & Hrun1 & Hw).
  erewrite bind_run by exact Hrun1. subst K. cbv beta.
  clear first Hrun1.
  assert (Hmw : forallb (fun name =>
                   length (label_positions (Name name) 0 (columns w)) =? 1)
                        summary_columns = true).
  { unfold w. rewrite window_columns. exact Hmeters. }
  pose proof (columns_indexer_singles _ _ Hmw) as Hps.
  set (ps := map (fun name => hd 0 (label_positions (Name name) 0 (columns w)))
                 summary_columns) in *.
  erewrite bind_run by (eapply getitem_columns_run; [ exact Hw | exact Hps ]).
  set (picked := take_columns ps w).
  erewrite bind_run by (apply replace_run; lookup).
  set (cleaned := replace_cells (float_of_Z 0) nan picked).
  erewrite bind_run by (apply load_run; lookup).
  change (group_key cleaned start_time end_time)
    with (group_key w start_time end_time).
  rewrite Hkeys.
  erewrite bind_run by reflexivity.
  assert (Hsel : columns_indexer summary_columns (columns cleaned)
                 = Ok (seq 0 7)).
  { change (columns cleaned)
      with (map (fun j => nth j (columns w) NaNLabel) ps).
    unfold ps. rewrite (picked_labels _ _ Hmw). apply selected_indexer. }
  erewrite bind_run
    by (eapply groupby_getitem_run; [ cbn [gb_obj groupby]; lookup | exact Hsel ]).
  cbn [gb_obj gb_keys groupby].
  erewrite bind_run by (eapply groupby_agg_run; [ lookup | exact Hsel ]).
  erewrite bind_run by (eapply groupby_agg_run; [ lookup | exact Hsel ]).
  set (sel := take_columns (seq 0 7) cleaned).
  erewrite bind_run.
  2: { eapply frame_sub_run; [ lookup | lookup | ].
       unfold same_axes, aggregate. cbn [index columns].
       rewrite (list_eqb_refl Z.eqb _ Z.eqb_refl).
       rewrite (list_eqb_refl label_eqb _ label_eqb_refl). reflexivity. }
  erewrite bind_run by (apply set_columns_last_run; reflexivity).
  erewrite bind_run by (apply frame_mul_run; lookup).
  erewrite bind_run by (apply set_columns_last_run; reflexivity).
  erewrite concat_columns_run; cycle 1.
  - lookup.
  - lookup.
  - cbn [index aggregate]. apply list_eqb_refl, Z.eqb_refl.
  - do 2 eexists. split; [ reflexivity | ].
    rewrite nth_error_snoc_last. reflexivity.
Qed.

(* ================================================================= *)
(** ** The order of floats, and the group reductions *)

Ltac compare_cases :=
  repeat match goal with
         | H : context [ Pos.compare_cont Eq ?a ?b ] |- _ =>
             change (Pos.compare_cont Eq a b) with (Pos.compare a b) in H
         | |- context [ Pos.compare_cont Eq ?a ?b ] =>
             change (Pos.compare_cont Eq a b) with (Pos.compare a b)
         end;
  repeat match goal with
         | H : context [ Z.compare ?a ?b ] |- _ =>
             destruct (Z.compare_spec a b); simpl in H
         | H : context [ Pos.compare ?a ?b ] |- _ =>
             destruct (Pos.compare_spec a b); simpl in H
         | |- context [ Z.compare ?a ?b ] =>
             destruct (Z.compare_spec a b); simpl
         | |- context [ Pos.compare ?a ?b ] =>
             destruct (Pos.compare_spec a b); simpl
         end;
  try discriminate; try reflexivity; try lia.

Lemma float_leb_refl (x : float) : is_nan x = false -> float_leb x x = true.
Proof.
  unfold float_leb, SFleb.
  destruct x as [ [ | ] | [ | ] | | [ | ] m e ]; simpl; intro H;
    try discriminate; try reflexivity;
    rewrite Z.compare_refl, Pos.compare_cont_refl; reflexivity.
Qed.

Lemma float_ltb_leb (a b : float) :
  float_ltb a b = true -> float_leb a b = true.
Proof.
  unfold float_ltb, float_leb, SFltb, SFleb.
  destruct (SFcompare a b) as [ [ | | ] | ]; congruence.
Qed.

Lemma float_not_ltb_leb (a b : float) :
  is_nan a = false -> is_nan b = false ->
  float_ltb a b = false -> float_leb b a = true.
Proof.
  unfold float_ltb, float_leb, SFltb, SFleb.
  destruct a as [ [ | ] | [ | ] | | [ | ] ma ea ],
           b as [ [ | ] | [ | ] | | [ | ] mb eb ];
    simpl; intros Ha Hb H; try discriminate; try reflexivity;
    compare_cases.
Qed.

Lemma float_leb_trans (a b c : float) :
  float_leb a b = true -> float_leb b c = true -> float_leb a c = true.
Proof.
  unfold float_leb, SFleb.
  destruct a as [ [ | ] | [ | ] | | [ | ] ma ea ],
           b as [ [ | ] | [ | ] | | [ | ] mb eb ],
           c as [ [ | ] | [ | ] | | [ | ] mc ec ];
    simpl; intros Hab Hbc; try discriminate; try reflexivity;
    compare_cases.
Qed.

Lemma float_max_from_bottom (v : float) :
  is_nan v = false -> float_max (S754_infinity true) v = v.
Proof.
  unfold float_max, float_ltb, SFltb.
  destruct v as [ [ | ] | [ | ] | | [ | ] m e ]; simpl; intro H;
    try discriminate; reflexivity.
Qed.

Lemma float_min_from_top (v : float) :
  is_nan v = false -> float_min (S754_infinity false) v = v.
Proof.
  unfold float_min, float_ltb, SFltb.
  destruct v as [ [ | ] | [ | ] | | [ | ] m e ]; simpl; intro H;
    try discriminate; reflexivity.
Qed.

(** A NaN-skipping fold is a fold over the values that are present. *)
Lemma fold_skipna (pick : float -> float -> float) (values : list float) :
  forall (n : nat) (m : float),
    fold_left (fun '(n, m) v =>
                 if is_nan v then (n, m) else (S n, pick m v))
              values (n, m)
    = (n + length (present values), fold_left pick (present values) m).
Proof.
  induction values as [ | v values IH ]; intros n m; cbn [fold_left].
  - simpl. f_equal. lia.
  - unfold present in *. cbn [filter].
    destruct (is_nan v); cbn [negb].
    + apply IH.
    + rewrite IH. cbn [fold_left length]. f_equal. lia.
Qed.

Lemma group_max_fold (values : list float) :
  group_max values
  = match present values with
    | [] => nan
    | x :: xs => fold_left float_max xs x
    end.
Proof.
  unfold group_max.
  change (fun '(n, m) v =>
            if is_nan v then (n, m)
            else (S n, if float_ltb m v then v else m))
    with (fun '(n, m) v =>
            if is_nan v then (n, m) else (S n, float_max m v)).
  rewrite (fold_skipna float_max).
  assert (Hp : forallb (fun x => negb (is_nan x)) (present values) = true).
  { unfold present. apply forallb_forall. intros x Hx.
    apply filter_In in Hx. tauto. }
  destruct (present values) as [ | x xs ]; [ reflexivity | ].
  simpl in Hp. apply andb_prop in Hp. destruct Hp as [Hx _].
  apply negb_true_iff in Hx.
  cbn [fold_left length Nat.add Nat.eqb].
  rewrite float_max_from_bottom by exact Hx. reflexivity.
Qed.

Lemma group_min_fold (values : list float) :
  group_min values
  = match present values with
    | [] => nan
    | x :: xs => fold_left float_min xs x
    end.
Proof.
  unfold group_min.
  change (fun '(n, m) v =>
            if is_nan v then (n, m)
            else (S n, if float_ltb v m then v else m))
    with (fun '(n, m) v =>
            if is_nan v then (n, m) else (S n, float_min m v)).
  rewrite (fold_skipna float_min).
  assert (Hp : forallb (fun x => negb (is_nan x)) (present values) = true).
  { unfold present. apply forallb_forall. intros x Hx.
    apply filter_In in Hx. tauto. }
  destruct (present values) as [ | x xs ]; [ reflexivity | ].
  simpl in Hp. apply andb_prop in Hp. destruct Hp as [Hx _].
  apply negb_true_iff in Hx.
  cbn [fold_left length Nat.add Nat.eqb].
  rewrite float_min_from_top by exact Hx. reflexivity.
Qed.

Lemma fold_max_greatest (xs : list float) :
  forall x : float,
    is_nan x = false ->
    Forall (fun y => is_nan y = false) xs ->
    In (fold_left float_max xs x) (x :: xs)
    /\ forall y, In y (x :: xs) ->
                 float_leb y (fold_left float_max xs x) = true.
Proof.
  induction xs as [ | v xs IH ]; intros x Hx Hxs; cbn [fold_left].
  - split; [ left; reflexivity | ].
    intros y [ <- | [] ]. apply float_leb_refl, Hx.
  - inversion Hxs as [ | v' xs' Hv Hxs' ]; subst.
    assert (Hm : is_nan (float_max x v) = false)
      by (unfold float_max; destruct (float_ltb x v); assumption).
    destruct (IH (float_max x v) Hm Hxs') as [Hin Hub].
    assert (Hxm : float_leb x (float_max x v) = true
                  /\ float_leb v (float_max x v) = true).
    { unfold float_max. destruct (float_ltb x v) eqn:Hlt.
      - split; [ apply float_ltb_leb, Hlt | apply float_leb_refl, Hv ].
      - split; [ apply float_leb_refl, Hx
               | apply float_not_ltb_leb; assumption ]. }
    split.
    + destruct Hin as [ Hin | Hin ]; [ | right; right; exact Hin ].
      rewrite <- Hin. unfold float_max.
      destruct (float_ltb x v); [ right; left | left ]; reflexivity.
    + intros y [ <- | [ <- | Hy ] ].
      * eapply float_leb_trans; [ apply Hxm | apply Hub; left; reflexivity ].
      * eapply float_leb_trans; [ apply Hxm | apply Hub; left; reflexivity ].
      * apply Hub. right. exact Hy.
Qed.

Lemma fold_min_least (xs : list float) :
  forall x : float,
    is_nan x = false ->
    Forall (fun y => is_nan y = false) xs ->
    In (fold_left float_min xs x) (x :: xs)
    /\ forall y, In y (x :: xs) ->
                 float_leb (fold_left float_min xs x) y = true.
Proof.
  induction xs as [ | v xs IH ]; intros x Hx Hxs; cbn [fold_left].
  - split; [ left; reflexivity | ].
    intros y [ <- | [] ]. apply float_leb_refl, Hx.
  - inversion Hxs as [ | v' xs' Hv Hxs' ]; subst.
    assert (Hm : is_nan (float_min x v) = false)
      by (unfold float_min; destruct (float_ltb v x); assumption).
    destruct (IH (float_min x v) Hm Hxs') as [Hin Hlb].
    assert (Hxm : float_leb (float_min x v) x = true
                  /\ float_leb (float_min x v) v = true).
    { unfold float_min. destruct (float_ltb v x) eqn:Hlt.
      - split; [ apply float_ltb_leb, Hlt | apply float_leb_refl, Hv ].
      - split; [ apply float_leb_refl, Hx
               | apply float_not_ltb_leb; assumption ]. }
    split.
    + destruct Hin as [ Hin | Hin ]; [ | right; right; exact Hin ].
      rewrite <- Hin. unfold float_min.
      destruct (float_ltb v x); [ right; left | left ]; reflexivity.
    + intros y [ <- | [ <- | Hy ] ].
      * eapply float_leb_trans; [ apply Hlb; left; reflexivity | apply Hxm ].
      * eapply float_leb_trans; [ apply Hlb; left; reflexivity | apply Hxm ].
      * apply Hlb. right. exact Hy.
Qed.

Lemma present_not_nan (values : list float) :
  Forall (fun y => is_nan y = false) (present values).
Proof.
  apply Forall_forall. intros y Hy. unfold present in Hy.
  apply filter_In in Hy. destruct Hy as [_ Hy].
  apply negb_true_iff. exact Hy.
Qed.

(** The kWh of a bucket, from the readings with zeros already replaced. *)
Lemma kwh_of_readings (values : list float) :
  (present values = [] ->
   float_sub (group_max values) (group_min values) = nan)
  /\ (present values <> [] ->
      exists hi lo : float,
        In hi (present values) /\ In lo (present values)
        /\ (forall x, In x (present values) ->
                      float_leb x hi = true /\ float_leb lo x = true)
        /\ float_sub (group_max values) (group_min values)
           = float_sub hi lo).
Proof.
  rewrite group_max_fold, group_min_fold.
  pose proof (present_not_nan values) as Hp.
  destruct (present values) as [ | x xs ].
  - split; [ reflexivity | congruence ].
  - split; [ discriminate | intros _ ].
    inversion Hp as [ | x' xs' Hx Hxs ]; subst.
    destruct (@fold_max_greatest xs x Hx Hxs) as [Hin Hub].
    destruct (@fold_min_least xs x Hx Hxs) as [Hin' Hlb].
    exists (fold_left float_max xs x), (fold_left float_min xs x).
    repeat split; auto.
Qed.

(* ================================================================= *)
(** ** The summary *)

Lemma replace_zero (x : float) :
  replace_cell (float_of_Z 0) nan x = if is_zero x then nan else x.
Proof.
  unfold replace_cell, float_eqb, SFeqb.
  destruct x as [ [ | ] | [ | ] | | [ | ] m e ]; reflexivity.
Qed.

Lemma present_replaced (values : list float) :
  present (map (replace_cell (float_of_Z 0) nan) values)
  = filter (fun v => negb (is_nan v) && negb (is_zero v)) values.
Proof.
  unfold present. induction values as [ | v values IH ]; cbn [map filter].
  - reflexivity.
  - rewrite replace_zero, IH.
    destruct v as [ [ | ] | [ | ] | | [ | ] m e ]; reflexivity.
Qed.

Lemma float_sub_self (s : bool) (m : positive) (e : Z) :
  float_sub (S754_finite s m e) (S754_finite s m e) = S754_zero false.
Proof.
  unfold float_sub, SFsub, shl_align.
  rewrite Z.min_id, Z.sub_diag. reflexivity.
Qed.

Lemma meter_column_label (d : DataFrame) (j : nat) :
  has_meters d = true ->
  j < 7 ->
  nth (meter_column d j) (columns d) NaNLabel
  = Name (nth j summary_columns EmptyString).
Proof.
  intros Hmeters Hj. unfold has_meters in Hmeters.
  rewrite forallb_forall in Hmeters.
  assert (Hin : In (nth j summary_columns EmptyString) summary_columns)
    by (apply nth_In; exact Hj).
  specialize (Hmeters _ Hin). apply Nat.eqb_eq in Hmeters.
  unfold meter_column.
  destruct (label_positions (Name (nth j summary_columns EmptyString)) 0
                            (columns d)) as [ | p ps ] eqn:Hps;
    [ discriminate | ].
  cbn [hd].
  destruct (@label_positions_nth (Name (nth j summary_columns EmptyString))
                                 (columns d) 0 p) as [_ Hp].
  { rewrite Hps. left. reflexivity. }
  rewrite Nat.sub_0_r in Hp. exact Hp.
Qed.

(** C2.  Whenever the seven meter columns are there, [summarize] returns a
    table with one row per bucket of the day bucketer.  The readings of a
    bucket and meter are the cells, in the column that carries the name of
    the meter, of the rows whose key is the bucket; zeros are first
    replaced by NaN, and the kWh of the bucket and meter is the greatest of
    these readings that are not NaN minus the least of them, and NaN when
    the bucket has no such reading.  Readings 100, 0, 150 in one bucket
    give 50. *)
Theorem summarize_kwh_is_max_minus_min :
  (forall (h : heap) (df : loc) (d : DataFrame) (cost : float)
          (start_time end_time : option time) (keys : list date),
      nth_error h df = Some d ->
      has_meters d = true ->
      group_key (window d start_time end_time) start_time end_time = Ok keys ->
      exists (r : loc) (h' : heap) (summary : DataFrame),
        summarize df cost start_time end_time h = (Ok r, h')
        /\ nth_error h' r = Some summary
        /\ index summary = sorted_unique Z.compare keys
        /\ forall (i : nat) (k : date) (j : nat),
            nth_error (index summary) i = Some k ->
            j < 7 ->
            let w := window d start_time end_time in
            let values := readings w keys k j in
            nth (meter_column w j) (columns w) NaNLabel
            = Name (nth j summary_columns EmptyString)
            /\ values
               = map (fun row => replace_cell (float_of_Z 0) nan
                                   (nth (meter_column w j) row nan))
                     (map snd (filter (fun e => Z.eqb (fst e) k)
                                      (combine keys (data w))))
            /\ (present values = [] -> cell summary i j = nan)
            /\ (present values <> [] ->
                exists hi lo : float,
                  In hi (present values) /\ In lo (present values)
                  /\ (forall x, In x (present values) ->
                                float_leb x hi = true /\ float_leb lo x = true)
                  /\ cell summary i j = float_sub hi lo))
  /\ (forall x : float,
         replace_cell (float_of_Z 0) nan x = if is_zero x then nan else x)
  /\ (let run := summarize 0 (float_of_ratio 16 100) None None [one_day] in
      fst run = Ok 7
      /\ option_map (fun s => cell s 0 0) (nth_error (snd run) 7)
         = Some (float_of_Z 50)
      /\ readings one_day (index_date (index one_day))
                  (days_from_civil 2020 1 2) 0
         = [float_of_Z 100; nan; float_of_Z 150]).
Proof.
  split; [ | split; [ exact replace_zero | vm_compute; repeat split ] ].
  intros h df d cost start_time end_time keys Hd Hmeters Hkeys.
  destruct (@summarize_run h df d cost start_time end_time keys
                           Hd Hmeters Hkeys) as (r & h' & Hrun & Hr).
  exists r, h', (summary_of keys (selected (window d start_time end_time)) cost).
  split; [ exact Hrun | split; [ exact Hr | split; [ reflexivity | ] ] ].
  intros i k j Hk Hj w values.
  split; [ | split ].
  - apply meter_column_label; [ | exact Hj ].
    unfold has_meters, w. rewrite window_columns. exact Hmeters.
  - unfold values, readings, raw_readings, bucket_rows.
    rewrite map_map. reflexivity.
  - destruct (@summary_cell w keys cost i j k Hk Hj) as [Hcell _].
    fold w. rewrite Hcell. apply kwh_of_readings.
Qed.

Lemma summarize_kwh_is_max_minus_min_witness :
  exists (r : loc) (h' : heap) (summary : DataFrame),
    summarize 0 (float_of_ratio 16 100) None None [two_days] = (Ok r, h')
    /\ nth_error h' r = Some summary
    /\ index summary = [days_from_civil 2020 1 2; days_from_civil 2020 1 3]
    /\ cell summary 0 0 = S754_zero false
    /\ cell summary 1 0 = S754_zero false.
Proof.
  destruct summarize_kwh_is_max_minus_min as [Hall _].
  destruct (Hall [two_days] 0 two_days (float_of_ratio 16 100) None None
                 (index_date (index two_days)) eq_refl eq_refl eq_refl)
    as (r & h' & summary & Hrun & Hr & Hidx & Hcells).
  assert (H0 : nth_error (index summary) 0 = Some (days_from_civil 2020 1 2))
    by (rewrite Hidx; reflexivity).
  assert (H1 : nth_error (index summary) 1 = Some (days_from_civil 2020 1 3))
    by (rewrite Hidx; reflexivity).
  destruct (Hcells 0 (days_from_civil 2020 1 2) 0 H0 ltac:(lia))
    as (_ & _ & _ & Hfirst).
  destruct (Hcells 1 (days_from_civil 2020 1 3) 0 H1 ltac:(lia))
    as (_ & _ & _ & Hsecond).
  destruct Hfirst as (hi & lo & Hhi & Hlo & _ & Hcell0);
    [ vm_compute; discriminate | ].
  vm_compute in Hhi, Hlo. destruct Hhi as [ <- | [] ], Hlo as [ <- | [] ].
  destruct Hsecond as (hi & lo & Hhi & Hlo & _ & Hcell1);
    [ vm_compute; discriminate | ].
  vm_compute in Hhi, Hlo. destruct Hhi as [ <- | [] ], Hlo as [ <- | [] ].
  exists r, h', summary.
  split; [ exact Hrun | split; [ exact Hr | split; [ exact Hidx | ] ] ].
  split; [ rewrite Hcell0 | rewrite Hcell1 ]; reflexivity.
Defined.

(** C10, as amended.  When the bucket has exactly one reading of a meter
    that is neither NaN nor zero, and that reading is finite, the kWh is 0
    and the dollars are 0 times the cost, which is a zero whenever the cost
    is finite. *)
Theorem summarize_single_finite_reading
        (h : heap) (df : loc) (d : DataFrame) (cost : float)
        (start_time end_time : option time) (keys : list date) :
  nth_error h df = Some d ->
  has_meters d = true ->
  group_key (window d start_time end_time) start_time end_time = Ok keys ->
  exists (r : loc) (h' : heap) (summary : DataFrame),
    summarize df cost start_time end_time h = (Ok r, h')
    /\ nth_error h' r = Some summary
    /\ forall (i : nat) (k : date) (j : nat) (x : float),
        nth_error (index summary) i = Some k ->
        j < 7 ->
        filter (fun v => negb (is_nan v) && negb (is_zero v))
               (raw_readings (window d start_time end_time) keys k j) = [x] ->
        is_finite x = true ->
        cell summary i j = S754_zero false
        /\ cell summary i (7 + j) = float_mul (S754_zero false) cost
        /\ (is_finite cost = true -> is_zero (cell summary i (7 + j)) = true).
Proof.
  intros Hd Hmeters Hkeys.
  destruct (@summarize_run h df d cost start_time end_time keys
                           Hd Hmeters Hkeys) as (r & h' & Hrun & Hr).
  exists r, h', (summary_of keys (selected (window d start_time end_time)) cost).
  split; [ exact Hrun | split; [ exact Hr | ] ].
  intros i k j x Hk Hj Hone Hfinite.
  destruct (@summary_cell (window d start_time end_time) keys cost i j k Hk Hj)
    as [Hcell Hdollars].
  assert (Hzero : cell (summary_of keys
                          (selected (window d start_time end_time)) cost) i j
                  = S754_zero false).
  { rewrite Hcell, group_max_fold, group_min_fold.
    unfold readings. rewrite present_replaced, Hone. cbn [fold_left].
    assert (Hx : In x [x]) by (left; reflexivity).
    rewrite <- Hone in Hx. apply filter_In in Hx. destruct Hx as [_ Hx].
    destruct x as [ [ | ] | [ | ] | | s m e ]; try discriminate.
    apply float_sub_self. }
  split; [ exact Hzero | ].
  rewrite Hdollars, Hzero. split; [ reflexivity | ].
  intro Hcost.
  destruct cost as [ [ | ] | [ | ] | | [ | ] m e ]; try discriminate;
    reflexivity.
Qed.

Lemma summarize_single_finite_reading_witness :
  exists (r : loc) (h' : heap) (summary : DataFrame),
    summarize 0 (float_of_ratio 16 100) None None [two_days] = (Ok r, h')
    /\ nth_error h' r = Some summary
    /\ index summary = [days_from_civil 2020 1 2; days_from_civil 2020 1 3]
    /\ cell summary 0 0 = S754_zero false
    /\ cell summary 1 0 = S754_zero false
    /\ is_zero (cell summary 1 7) = true.
Proof.
  destruct (@summarize_single_finite_reading
              [two_days] 0 two_days (float_of_ratio 16 100) None None
              (index_date (index two_days)) eq_refl eq_refl eq_refl)
    as (r & h' & summary & Hrun & Hr & Hcells).
  assert (Hidx : index summary
                 = [days_from_civil 2020 1 2; days_from_civil 2020 1 3]).
  { vm_compute in Hrun. injection Hrun as <- <-.
    vm_compute in Hr. injection Hr as <-. reflexivity. }
  assert (H0 : nth_error (index summary) 0 = Some (days_from_civil 2020 1 2))
    by (rewrite Hidx; reflexivity).
  assert (H1 : nth_error (index summary) 1 = Some (days_from_civil 2020 1 3))
    by (rewrite Hidx; reflexivity).
  destruct (Hcells 0 (days_from_civil 2020 1 2) 0 (float_of_Z 100)
                   H0 ltac:(lia) eq_refl eq_refl)
    as (Hkwh0 & _ & _).
  destruct (Hcells 1 (days_from_civil 2020 1 3) 0 (float_of_Z 150)
                   H1 ltac:(lia) eq_refl eq_refl)
    as (Hkwh1 & _ & Hzero).
  exists r, h', summary.
  split; [ exact Hrun | split; [ exact Hr | split; [ exact Hidx | ] ] ].
  split; [ exact Hkwh0 | split; [ exact Hkwh1 | ] ].
  apply Hzero. reflexivity.
Defined.

(** C10 as stated fails.  A bucket whose only reading is infinite, as a
    reading of four hundred digits is, gets NaN for its kWh; and with a
    cost that is NaN a bucket with a single finite reading gets NaN for its
    dollars. *)
Lemma summarize_single_reading_missing :
  drop_units four_hundred_nines = Ok (S754_infinity false)
  /\ (let run := summarize 0 (float_of_ratio 16 100) None None
                           [one_reading (S754_infinity false)] in
      fst run = Ok 7
      /\ option_map (fun s => cell s 0 0) (nth_error (snd run) 7) = Some nan)
  /\ (let run := summarize 0 nan None None
                           [one_reading (float_of_Z 100)] in
      fst run = Ok 7
      /\ option_map (fun s => (cell s 0 0, cell s 0 7))
                    (nth_error (snd run) 7)
         = Some (S754_zero false, nan)).
Proof. vm_compute. repeat split. Qed.
(* ================================================================= *)
(** ** The rows of the window *)

Lemma group_key_returns (df : DataFrame) (start_time end_time : option time) :
  (start_time = None -> end_time = None) ->
  exists keys, group_key df start_time end_time = Ok keys.
Proof.
  intro Hargs. destruct start_time as [ st | ], end_time as [ en | ];
    cbn [group_key _timedelta_since_midnight result_bind].
  - destruct (_ <? _)%Z; eauto.
  - eauto.
  - specialize (Hargs eq_refl). discriminate.
  - eauto.
Qed.

(** C4, as amended.  With both times given, [summarize] goes on with a
    new table holding exactly the rows whose time of day, to the
    microsecond, lies between the two times, both ends included, and around
    midnight when the start is the later of the two; rows whose time of day
    is the start time or the end time are kept.  The bucketing and the
    summary are those of that table: its rows are given their keys, and
    the kWh of a bucket and meter is the greatest reading minus the least
    among its rows with the key of the bucket. *)
Theorem summarize_keeps_closed_window
        (h : heap) (df : loc) (d : DataFrame) (cost : float)
        (start_time end_time : time) :
  nth_error h df = Some d ->
  length (data d) = length (index d) ->
  (exists w : DataFrame,
      nth_error (snd (summarize df cost (Some start_time) (Some end_time) h))
                (length h) = Some w
      /\ columns w = columns d
      /\ length (data w) = length (index w)
      /\ combine (index w) (data w)
         = filter (fun row => between_time start_time end_time (fst row))
                  (combine (index d) (data d))
      /\ (has_meters d = true ->
          exists (keys : list date) (r : loc) (summary : DataFrame),
            group_key w (Some start_time) (Some end_time) = Ok keys
            /\ fst (summarize df cost (Some start_time) (Some end_time) h)
               = Ok r
            /\ nth_error
                 (snd (summarize df cost (Some start_time) (Some end_time) h))
                 r = Some summary
            /\ index summary = sorted_unique Z.compare keys
            /\ forall (i : nat) (k : date) (j : nat),
                nth_error (index summary) i = Some k ->
                j < 7 ->
                let values := readings w keys k j in
                (present values = [] -> cell summary i j = nan)
                /\ (present values <> [] ->
                    exists hi lo : float,
                      In hi (present values) /\ In lo (present values)
                      /\ (forall x, In x (present values) ->
                                    float_leb x hi = true
                                    /\ float_leb lo x = true)
                      /\ cell summary i j = float_sub hi lo)
                /\ cell summary i (7 + j)
                   = float_mul (cell summary i j) cost))
  /\ (forall ts, between_time start_time end_time ts = true
                 <-> in_window start_time end_time ts)
  /\ (forall ts, timestamp_micros ts = time_micros start_time ->
                 between_time start_time end_time ts = true)
  /\ (forall ts, timestamp_micros ts = time_micros end_time ->
                 between_time start_time end_time ts = true).
Proof.
  intros Hdf Hlen. split; [ | split; [ | split ] ].
  - exists (take_rows (indexer_between_time (index d) start_time end_time) d).
    split; [ | split; [ | split; [ | split ] ] ].
    + unfold summarize.
      match goal with
      | |- context [ bind _ ?k ] => set (K := k)
      end.
      assert (HK : frames (S (length h)) (K (length h)) (fun _ => True))
        by (subst K; cbv beta; frames_pipeline).
      set (w := take_rows (indexer_between_time (index d) start_time end_time) d).
      assert (Hrun : bind (d0 <- load df ;;
                           iloc_rows df (indexer_between_time (index d0)
                                           start_time end_time)) K h
                     = K (length h) (h ++ [w])).
      { cbv beta iota zeta delta [bind iloc_rows load alloc].
        rewrite Hdf. cbv beta iota. rewrite Hdf. reflexivity. }
      rewrite Hrun.
      destruct (HK (h ++ [w])) as (Hfirst & _ & _).
      { rewrite length_app. simpl. lia. }
      rewrite firstn_all2 with (l := h ++ [w]) in Hfirst
        by (rewrite length_app; simpl; lia).
      rewrite <- (firstn_skipn (S (length h)) (snd (K (length h) (h ++ [w])))).
      rewrite Hfirst.
      rewrite nth_error_app1 by (rewrite length_app; simpl; lia).
      rewrite nth_error_app2 by lia.
      rewrite Nat.sub_diag. reflexivity.
    + reflexivity.
    + unfold take_rows. cbn [index data]. rewrite !length_map. reflexivity.
    + unfold take_rows, indexer_between_time. simpl.
      apply (@take_rows_filter (between_time start_time end_time)
                               (index d) [] (data d) []); auto.
    + intro Hmeters.
      set (w := take_rows (indexer_between_time (index d) start_time end_time) d).
      destruct (@group_key_returns w (Some start_time) (Some end_time))
        as (keys & Hkeys); [ discriminate | ].
      destruct (@summarize_run h df d cost (Some start_time) (Some end_time)
                               keys Hdf Hmeters Hkeys)
        as (r & h' & Hrun & Hr).
      exists keys, r, (summary_of keys (selected w) cost).
      rewrite Hrun. cbv beta iota delta [fst snd].
      split; [ exact Hkeys | split; [ reflexivity | split; [ exact Hr | ] ] ].
      split; [ reflexivity | ].
      intros i k j Hk Hj values.
      destruct (@summary_cell w keys cost i j k Hk Hj) as [Hcell Hdollars].
      split; [ | split; [ | exact Hdollars ] ];
        rewrite Hcell; apply kwh_of_readings.
  - intro ts. apply between_time_iff.
  - intros ts Heq. apply between_time_iff. unfold in_window.
    rewrite Heq. split; intros; lia.
  - intros ts Heq. apply between_time_iff. unfold in_window.
    rewrite Heq. split; intros; lia.
Qed.

Lemma summarize_keeps_closed_window_witness :
  let st := {| hour := 12; minute := 0 |} in
  let en := {| hour := 18; minute := 0 |} in
  exists w summary : DataFrame,
    nth_error (snd (summarize 0 (float_of_ratio 16 100) (Some st) (Some en)
                              [one_day])) 1 = Some w
    /\ index w = [make_timestamp 2020 1 2 12 0; make_timestamp 2020 1 2 18 0]
    /\ nth_error (snd (summarize 0 (float_of_ratio 16 100) (Some st) (Some en)
                                 [one_day])) 8 = Some summary
    /\ cell summary 0 0 = S754_zero false.
Proof.
  intros st en.
  destruct (@summarize_keeps_closed_window
              [one_day] 0 one_day (float_of_ratio 16 100) st en
              eq_refl eq_refl)
    as ((w & Hw & _ & _ & _ & Hsummary) & _).
  destruct (Hsummary eq_refl)
    as (keys & r & summary & Hkeys & Hr & Hs & Hidx & Hcells).
  vm_compute in Hw. injection Hw as <-.
  vm_compute in Hkeys. injection Hkeys as <-.
  vm_compute in Hr. injection Hr as <-.
  assert (Hk : nth_error (index summary) 0 = Some (days_from_civil 2020 1 2))
    by (rewrite Hidx; reflexivity).
  destruct (Hcells 0 (days_from_civil 2020 1 2) 0 Hk ltac:(lia))
    as (_ & Hpresent & _).
  destruct Hpresent as (hi & lo & Hhi & Hlo & _ & Hcell);
    [ vm_compute; discriminate | ].
  vm_compute in Hhi, Hlo.
  destruct Hhi as [ <- | [] ], Hlo as [ <- | [] ].
  eexists. exists summary.
  split; [ vm_compute; reflexivity | ].
  split; [ reflexivity | ].
  split; [ exact Hs | ].
  rewrite Hcell. reflexivity.
Defined.

(** C4 as stated fails: for the window 08:00 to 18:00 the row stamped
    18:00 is outside the half-open interval, yet it is in the table
    [summarize] goes on with, and the day's usage counts it. *)
Lemma summarize_keeps_row_at_end_time :
  let st := {| hour := 8; minute := 0 |} in
  let en := {| hour := 18; minute := 0 |} in
  let run := summarize 0%nat (float_of_ratio 16 100) (Some st) (Some en)
                       [afternoon] in
  in_half_open st en (make_timestamp 2020 1 2 18 0) = false
  /\ option_map index (nth_error (snd run) 1%nat)
     = Some [make_timestamp 2020 1 2 12 0; make_timestamp 2020 1 2 18 0]
  /\ fst run = Ok 8%nat
  /\ option_map (fun s => cell s 0 0) (nth_error (snd run) 8%nat)
     = Some (float_of_Z 50).
Proof. vm_compute. repeat split. Qed.

(* ================================================================= *)
(** * Further properties *)

(* ================================================================= *)
(** ** The name normaliser *)

Lemma match_eps (n0 : nat) s g s' g' :
  Match n0 Eps s g s' g' -> s' = s /\ g' = g.
Proof. intro H. inv H. auto. Qed.

Lemma match_literal (n0 : nat) (l : chars) :
  forall s g s' g',
    Match n0 (fold_right (fun c r => Cat (Class (Ascii.eqb c)) r) Eps l)
          s g s' g' ->
    s = l ++ s' /\ g' = g.
Proof.
  induction l as [ | c l IH ]; simpl; intros s g s' g' H.
  - apply match_eps in H. destruct H as [-> ->]. auto.
  - apply match_cat in H. destruct H as (s1 & g1 & Hc & H).
    apply match_class in Hc. destruct Hc as (c' & -> & Hc & ->).
    apply Ascii.eqb_eq in Hc. subst c'.
    apply IH in H. destruct H as [-> ->]. auto.
Qed.

Lemma literal_match (n0 : nat) (l : chars) (s : chars) (g : capture) :
  Match n0 (fold_right (fun c r => Cat (Class (Ascii.eqb c)) r) Eps l)
        (l ++ s) g s g.
Proof.
  induction l as [ | c l IH ]; simpl.
  - apply M_Eps.
  - eapply M_Cat; [ apply M_Class, Ascii.eqb_refl | exact IH ].
Qed.

Lemma consumed_all (s : chars) : consumed s [] = s.
Proof. rewrite <- (app_nil_r s) at 1. apply consumed_app. Qed.

Lemma list_ascii_app (a b : string) :
  list_ascii_of_string (a ++ b)
  = list_ascii_of_string a ++ list_ascii_of_string b.
Proof.
  induction a as [ | c a IH ]; simpl; [ | rewrite IH ]; reflexivity.
Qed.

Lemma prefix_match_shape (s s' : chars) (g' : capture) :
  Match (length s) prefix_pattern s None s' g' ->
  exists rest,
    s = list_ascii_of_string site_prefix ++ rest
    /\ forallb not_newline rest = true
    /\ g' = Some rest.
Proof.
  unfold prefix_pattern, Lit. intro H.
  apply match_cat in H. destruct H as (s0 & g0 & Hbos & H).
  apply match_bos in Hbos. destruct Hbos as [-> ->].
  apply match_cat in H. destruct H as (s1 & g1 & Hlit & H).
  apply match_literal in Hlit. destruct Hlit as [Hs ->].
  apply match_cat in H. destruct H as (s2 & g2 & Hgroup & Heos).
  apply match_eos in Heos. destruct Heos as (Hs2 & _ & Hg').
  apply match_group in Hgroup. destruct Hgroup as [(g3 & Hstar) Hg].
  apply match_star_class in Hstar. destruct Hstar as (rest & Hrest & Hline & _).
  rewrite Hs2, app_nil_r in Hrest. subst s1.
  exists rest. split; [ exact Hs | split; [ exact Hline | ] ].
  rewrite Hg', Hg, Hs2. f_equal. apply consumed_all.
Qed.

Lemma shape_prefix_match (rest : chars) :
  forallb not_newline rest = true ->
  let s := list_ascii_of_string site_prefix ++ rest in
  Match (length s) prefix_pattern s None [] (Some rest).
Proof.
  intros Hline s. unfold prefix_pattern, Lit.
  eapply M_Cat; [ apply M_Bos; reflexivity | ].
  eapply M_Cat; [ apply literal_match | ].
  eapply M_Cat with (s1 := []) (g1 := Some rest); [ | apply M_Eos ].
  rewrite <- (consumed_all rest) at 2.
  apply M_Group with (g' := None).
  rewrite <- (app_nil_r rest) at 1. apply star_class_match. exact Hline.
Qed.

Lemma drop_prefix_cases (variable_name : string) :
  (forall rest : chars,
      list_ascii_of_string variable_name
      = list_ascii_of_string site_prefix ++ rest ->
      forallb not_newline rest = true ->
      drop_prefix variable_name = Ok (Name (string_of_list_ascii rest)))
  /\ ((forall rest : chars,
          list_ascii_of_string variable_name
          = list_ascii_of_string site_prefix ++ rest ->
          forallb not_newline rest = false) ->
      drop_prefix variable_name = Ok NaNLabel)
  /\ (drop_prefix variable_name = Ok NaNLabel
      \/ exists rest : chars,
          list_ascii_of_string variable_name
          = list_ascii_of_string site_prefix ++ rest
          /\ forallb not_newline rest = true
          /\ drop_prefix variable_name = Ok (Name (string_of_list_ascii rest))).
Proof.
  unfold drop_prefix, re_match.
  set (s := list_ascii_of_string variable_name).
  destruct (exec (length s) prefix_pattern s None) as [ | t ts ] eqn:Hexec.
  - split; [ | split; [ reflexivity | left; reflexivity ] ].
    intros rest Hs Hline.
    pose proof (shape_prefix_match rest Hline) as Hm. cbv zeta in Hm.
    rewrite <- Hs in Hm. apply exec_complete in Hm.
    rewrite Hexec in Hm. destruct Hm.
  - assert (Hin : In t (exec (length s) prefix_pattern s None))
      by (rewrite Hexec; left; reflexivity).
    apply exec_sound, prefix_match_shape in Hin.
    destruct Hin as (found & Hs & Hline & Hcapture).
    rewrite Hcapture. cbn [group1].
    split; [ | split ].
    + intros rest Hs' _. rewrite Hs in Hs'.
      apply app_inv_head in Hs'. subst. reflexivity.
    + intro Hnone. rewrite (Hnone found Hs) in Hline. discriminate.
    + right. exists found. auto.
Qed.

Lemma list_ascii_inj (a b : string) :
  list_ascii_of_string a = list_ascii_of_string b -> a = b.
Proof.
  intro H. rewrite <- (string_of_list_ascii_of_string a),
             <- (string_of_list_ascii_of_string b), H.
  reflexivity.
Qed.

Lemma drop_prefix_name_iff (variable_name n : string) :
  drop_prefix variable_name = Ok (Name n)
  <-> variable_name = (site_prefix ++ n)%string /\ one_line n = true.
Proof.
  destruct (drop_prefix_cases variable_name) as (Hstrip & _ & Hcases).
  unfold one_line. split.
  - intro Hn. destruct Hcases as [ Hnan | (rest & Hs & Hline & Hrest) ];
      [ congruence | ].
    rewrite Hn in Hrest. injection Hrest as ->.
    rewrite list_ascii_of_string_of_list_ascii. split; [ | exact Hline ].
    apply list_ascii_inj.
    rewrite list_ascii_app, list_ascii_of_string_of_list_ascii. exact Hs.
  - intros [-> Hline].
    rewrite <- (string_of_list_ascii_of_string n) at 2.
    apply Hstrip; [ apply list_ascii_app | exact Hline ].
Qed.

Lemma drop_prefix_returns (variable_name : string) :
  exists l : label, drop_prefix variable_name = Ok l.
Proof.
  destruct (drop_prefix_cases variable_name)
    as (_ & _ & [ Hnan | (rest & _ & _ & Hrest) ]); eauto.
Qed.

(** X1.  [drop_prefix] never raises.  It returns a name exactly for the
    texts made of the site prefix followed by a remainder without line
    feed, and the name is that remainder; for every other text, a remainder
    with a line feed included, it returns the NaN label. *)
Theorem drop_prefix_strips_site_prefix (variable_name : string) :
  (forall n : string,
      drop_prefix variable_name = Ok (Name n)
      <-> variable_name = (site_prefix ++ n)%string /\ one_line n = true)
  /\ (drop_prefix variable_name = Ok NaNLabel
      \/ exists n : string, drop_prefix variable_name = Ok (Name n)).
Proof.
  split; [ intro n; apply drop_prefix_name_iff | ].
  destruct (drop_prefix_cases variable_name)
    as (_ & _ & [ Hnan | (rest & _ & _ & Hrest) ]); eauto.
Qed.

Lemma drop_prefix_strips_site_prefix_witness :
  drop_prefix (site_prefix ++ "PANEL M1 ELECTRIC METER.X")
  = Ok (Name "PANEL M1 ELECTRIC METER.X").
Proof.
  apply (proj1 (drop_prefix_strips_site_prefix
                  (site_prefix ++ "PANEL M1 ELECTRIC METER.X"))).
  split; reflexivity.
Defined.

(* ================================================================= *)
(** ** The value normaliser, further *)

Lemma drop_units_result (value : string) :
  drop_units value = Ok nan
  \/ exists ds1 dot ds2 sp us,
      value_shape (list_ascii_of_string value) ds1 dot ds2 sp us
      /\ drop_units value = Ok (numeric_value ds1 dot ds2).
Proof.
  destruct (drop_units_cases value) as (_ & Hshape & _).
  unfold drop_units, re_match in *.
  set (s := list_ascii_of_string value) in *.
  destruct (exec (length s) units_pattern s None) as [ | t ts ] eqn:Hexec.
  - left. reflexivity.
  - right.
    assert (Hin : In t (exec (length s) units_pattern s None))
      by (rewrite Hexec; left; reflexivity).
    apply exec_sound, units_match_shape in Hin.
    destruct Hin as (ds1 & dot & ds2 & sp & us & Hfound & _).
    exists ds1, dot, ds2, sp, us. split; [ exact Hfound | ].
    apply (Hshape _ _ _ _ _ Hfound).
Qed.

Lemma binary_round_aux_sign (m e : Z) (l : location) :
  is_nan (binary_round_aux prec emax false m e l) = true
  \/ sign_clear (binary_round_aux prec emax false m e l) = true.
Proof.
  unfold binary_round_aux.
  destruct (shr_fexp prec emax m e l) as [mrs' e'].
  destruct (shr_fexp prec emax _ e' loc_Exact) as [mrs'' e''].
  destruct (shr_m mrs'') as [ | p | p ]; simpl; auto.
  destruct (e'' <=? 971)%Z; simpl; auto.
Qed.

Lemma float_of_ratio_sign (n : Z) (d : positive) :
  is_nan (float_of_ratio n d) = true \/ sign_clear (float_of_ratio n d) = true.
Proof.
  unfold float_of_ratio. destruct n as [ | p | p ]; simpl; auto.
  destruct (SFdiv_core_binary prec emax (Z.pos p) 0 (Z.pos d) 0)
    as [[q e] l].
  apply binary_round_aux_sign.
Qed.

Lemma shape_starts_numeric (s ds1 dot ds2 sp us : chars) :
  value_shape s ds1 dot ds2 sp us ->
  exists c rest, s = c :: rest /\ is_numeric c = true.
Proof.
  intro H. destruct (shape_number_numeric H) as [Hnum _].
  destruct H as (Hs & _ & _ & _ & Hne & _).
  destruct (ds1 ++ dot ++ ds2) as [ | c number ] eqn:Hnumber.
  - apply app_eq_nil in Hnumber. destruct Hnumber as [_ Hnumber].
    apply app_eq_nil in Hnumber. destruct Hnumber. contradiction.
  - simpl in Hnum. apply andb_prop in Hnum. destruct Hnum as [Hc _].
    exists c, (number ++ sp ++ us). split; [ | exact Hc ].
    rewrite Hs.
    replace (ds1 ++ dot ++ ds2 ++ sp ++ us)
      with ((ds1 ++ dot ++ ds2) ++ sp ++ us)
      by (rewrite <- !app_assoc; reflexivity).
    rewrite Hnumber. reflexivity.
Qed.

(** X2.  [drop_units] never returns a number below zero: its result is NaN
    or a float whose sign is clear.  A text that does not begin with a digit
    or a point, a minus sign or a blank for instance, gives NaN. *)
Theorem drop_units_never_negative (value : string) :
  (forall v : float,
      drop_units value = Ok v -> is_nan v = true \/ sign_clear v = true)
  /\ (forall (c : ascii) (rest : string),
         value = String c rest -> is_numeric c = false ->
         drop_units value = Ok nan).
Proof.
  split.
  - intros v Hv.
    destruct (drop_units_result value)
      as [ Hnan | (ds1 & dot & ds2 & sp & us & _ & Hnum) ].
    + left. rewrite Hnan in Hv. injection Hv as <-. reflexivity.
    + rewrite Hnum in Hv. injection Hv as <-. apply float_of_ratio_sign.
  - intros c rest -> Hc.
    destruct (drop_units_result (String c rest))
      as [ Hnan | (ds1 & dot & ds2 & sp & us & Hshape & _) ];
      [ exact Hnan | ].
    apply shape_starts_numeric in Hshape.
    destruct Hshape as (c' & rest' & Hs & Hc').
    simpl in Hs. injection Hs as <- _. congruence.
Qed.

Lemma drop_units_never_negative_witness :
  drop_units "-5 kWh" = Ok nan
  /\ sign_clear (float_of_ratio 3092 10) = true.
Proof.
  destruct (drop_units_never_negative "-5 kWh") as [_ Hminus].
  destruct (drop_units_never_negative "309.2 kWh") as [Hsign _].
  split.
  - apply (Hminus "-"%char "5 kWh"%string); reflexivity.
  - destruct (Hsign (float_of_ratio 3092 10)) as [ Hnan | Hclear ].
    + vm_compute. reflexivity.
    + vm_compute in Hnan. discriminate.
    + exact Hclear.
Defined.

(* ================================================================= *)
(** ** The table builder, further *)

Lemma map_result_total {A B : Type} (f : A -> result B) (l : list A) :
  (forall a, In a l -> exists b, f a = Ok b) ->
  exists l', map_result f l = Ok l'.
Proof.
  induction l as [ | a l IH ]; simpl; intro H.
  - eauto.
  - destruct (H a (or_introl eq_refl)) as (b & Hb).
    destruct IH as (l' & Hl'); [ auto | ].
    rewrite Hb, Hl'. simpl. eauto.
Qed.

Lemma map_result_length {A B : Type} (f : A -> result B) (l : list A)
      (l' : list B) :
  map_result f l = Ok l' -> length l' = length l.
Proof.
  intro H. apply map_result_Forall2 in H.
  symmetry. eapply Forall2_length. exact H.
Qed.

Lemma insert_not_nil {A : Type} (cmp : A -> A -> comparison) (x : A)
      (l : list A) :
  insert cmp x l <> [].
Proof.
  destruct l as [ | y l ]; simpl; [ discriminate | ].
  destruct (cmp x y); discriminate.
Qed.

Lemma sorted_unique_not_nil {A : Type} (cmp : A -> A -> comparison)
      (l : list A) :
  l <> [] -> sorted_unique cmp l <> [].
Proof.
  destruct l as [ | x l ]; [ congruence | ].
  intros _. simpl. apply insert_not_nil.
Qed.

Lemma Forall2_In_left {A B : Type} (R : A -> B -> Prop) (l : list A)
      (l' : list B) (a : A) :
  Forall2 R l l' -> In a l -> exists b, In b l' /\ R a b.
Proof.
  induction 1 as [ | x y l l' Hxy _ IH ]; intro Hin.
  - destruct Hin.
  - destruct Hin as [ <- | Hin ].
    + exists y. split; [ left; reflexivity | exact Hxy ].
    + destruct (IH Hin) as (b & Hb & Hab). exists b. split; [ right | ]; auto.
Qed.

Lemma in_span_rest (p : ascii -> bool) (c : ascii) :
  forall s a rest : chars, span p s = (a, rest) -> In c rest -> In c s.
Proof.
  induction s as [ | c' s IH ]; intros a rest Hspan Hin; simpl in Hspan.
  - injection Hspan as <- <-. exact Hin.
  - destruct (p c').
    + destruct (span p s) as [ a' rest' ] eqn:Hs.
      injection Hspan as <- <-. right. eapply IH; [ reflexivity | exact Hin ].
    + injection Hspan as <- <-. exact Hin.
Qed.

Lemma expect_cons (c : ascii) (s s' : chars) :
  expect c s = Some s' -> s = c :: s'.
Proof.
  destruct s as [ | c' s ]; simpl; [ discriminate | ].
  destruct (Ascii.eqb c c') eqn:Hc; [ | discriminate ].
  apply Ascii.eqb_eq in Hc. congruence.
Qed.

Lemma timestamp_fields_colon (s : chars)
      (fields : chars * chars * chars * chars * chars) :
  timestamp_fields s = Some fields -> In ":"%char s.
Proof.
  unfold timestamp_fields.
  destruct (span is_digit s) as [ a s1 ] eqn:H1.
  destruct (expect "/" s1) as [ s2 | ] eqn:H2; [ | discriminate ].
  destruct (span is_digit s2) as [ b s3 ] eqn:H3.
  destruct (expect "/" s3) as [ s4 | ] eqn:H4; [ | discriminate ].
  destruct (span is_digit s4) as [ y s5 ] eqn:H5.
  destruct (expect " " s5) as [ s6 | ] eqn:H6; [ | discriminate ].
  destruct (span is_digit s6) as [ H s7 ] eqn:H7.
  destruct (expect ":" s7) as [ s8 | ] eqn:H8; [ | discriminate ].
  intros _.
  apply expect_cons in H2, H4, H6, H8. subst s1 s3 s5 s7.
  eapply in_span_rest; [ exact H1 | right ].
  eapply in_span_rest; [ exact H3 | right ].
  eapply in_span_rest; [ exact H5 | right ].
  eapply in_span_rest; [ exact H7 | left; reflexivity ].
Qed.

(** A text with a colon is kept as text: no NA spelling has one. *)
Lemma colon_kept_as_text (field : string) :
  In ":"%char (list_ascii_of_string field) -> kept_as_text field = true.
Proof.
  intro Hin. unfold kept_as_text. apply andb_true_iff. split.
  - apply negb_true_iff. apply not_true_is_false. intro Hna.
    apply existsb_exists in Hna. destruct Hna as (token & Htoken & Heq).
    apply String.eqb_eq in Heq. subst token.
    unfold na_values in Htoken. simpl in Htoken.
    repeat (destruct Htoken as [ <- | Htoken ];
            [ simpl in Hin; intuition discriminate | ]).
    destruct Htoken.
  - apply existsb_exists. exists ":"%char. split; [ exact Hin | reflexivity ].
Qed.

Lemma timestamp_kept_as_text (text : string) (ts : Timestamp) :
  to_datetime text = Ok ts -> kept_as_text text = true.
Proof.
  intro H. apply colon_kept_as_text. unfold to_datetime in H.
  destruct (timestamp_fields (list_ascii_of_string text)) as [ fields | ]
    eqn:Hfields; [ | discriminate ].
  eapply timestamp_fields_colon. exact Hfields.
Qed.

(** X3.  [parse] returns a table for every export that has a record, whose
    timestamps [to_datetime] converts and whose variable names [read_csv]
    keeps as text, as it does every name that begins with the site prefix;
    the values do not matter: one that is no number never makes it raise.
    On an export without records it raises a [TypeError]. *)
Theorem parse_returns_on_well_formed_export (input : list raw_record) :
  (input <> [] ->
   (forall r, In r input -> exists ts, to_datetime (timestamp r) = Ok ts) ->
   (forall r, In r input -> kept_as_text (variable r) = true) ->
   exists df, parse input = Ok df)
  /\ (forall name : string, kept_as_text (site_prefix ++ name) = true)
  /\ exists msg, parse [] = Raise (TypeError msg).
Proof.
  split; [ | split ].
  - intros Hne Hconv Hnames. unfold parse.
    rewrite read_csv_ok.
    2: { apply forallb_forall. intros r Hr. unfold index_kept_as_text.
         destruct (Hconv r Hr) as (ts & Hts).
         rewrite (timestamp_kept_as_text _ Hts), (Hnames r Hr). reflexivity. }
    cbn [result_bind].
    set (s := map (fun r => (record_key r, normalized r)) input).
    set (g := groupby_index_last s).
    assert (Hg : from_tuples g = Ok g).
    { assert (Hgn : g <> []).
      { unfold g, groupby_index_last. intro Hnil.
        apply map_eq_nil in Hnil. revert Hnil.
        apply sorted_unique_not_nil. unfold s. rewrite map_map.
        intro Hnil. apply map_eq_nil in Hnil. contradiction. }
      destruct g; [ contradiction | reflexivity ]. }
    rewrite Hg. cbn [result_bind].
    destruct (@map_result_total _ _ drop_prefix (u_columns (unstack g)))
      as (cols & Hcols).
    { intros v _.
      destruct (drop_prefix_returns v) as (l & Hl). eauto. }
    destruct (@map_result_total _ _ to_datetime (u_index (unstack g)))
      as (idx & Hidx).
    { intros t Ht. unfold g in Ht. apply unstacked_index in Ht.
      unfold s in Ht. rewrite map_map in Ht. simpl in Ht.
      apply in_map_iff in Ht. destruct Ht as (r & <- & Hr). auto. }
    rewrite Hcols, Hidx. cbn [result_bind]. eauto.
  - intro name. apply colon_kept_as_text.
    unfold site_prefix. simpl. do 15 right. left. reflexivity.
  - eexists. reflexivity.
Qed.

Lemma parse_returns_on_well_formed_export_witness :
  exists df, parse april_then_may = Ok df.
Proof.
  apply (proj1 (parse_returns_on_well_formed_export april_then_may)).
  - discriminate.
  - intros r [ <- | [ <- | [] ] ]; eexists; vm_compute; reflexivity.
  - intros r [ <- | [ <- | [] ] ]; reflexivity.
Defined.

(** X4.  The table [parse] returns is a rectangle that is not empty: it
    has at least one row and one column, one row of cells per index entry,
    and in every row one cell per column. *)
Theorem parse_table_is_rectangular (input : list raw_record) (df : DataFrame) :
  parse input = Ok df ->
  1 <= length (index df)
  /\ 1 <= length (columns df)
  /\ length (data df) = length (index df)
  /\ Forall (fun row => length row = length (columns df)) (data df).
Proof.
  intro Hparse.
  assert (Hne : input <> []) by (intros ->; discriminate).
  apply parse_table in Hparse. cbv zeta in Hparse.
  destruct Hparse as (Hcols & Hidx & Hdata).
  apply map_result_length in Hcols, Hidx.
  set (s := map (fun r => (record_key r, normalized r)) input) in *.
  set (g := groupby_index_last s) in *.
  assert (Hgn : g <> []).
  { unfold g, groupby_index_last. intro Hnil.
    apply map_eq_nil in Hnil. revert Hnil.
    apply sorted_unique_not_nil. unfold s. rewrite map_map.
    intro Hnil. apply map_eq_nil in Hnil. contradiction. }
  assert (Hidx' : length (index df) = length (u_index (unstack g)))
    by exact Hidx.
  rewrite Hdata, Hcols, Hidx'. unfold unstack.
  cbn [u_index u_columns u_data].
  assert (Hpos : forall l : list string, l <> [] -> 1 <= length l).
  { intros [ | x l ] H; [ contradiction | simpl; lia ]. }
  split; [ | split; [ | split ] ].
  - apply Hpos, sorted_unique_not_nil. intro Hnil.
    apply map_eq_nil in Hnil. contradiction.
  - apply Hpos, sorted_unique_not_nil. intro Hnil.
    apply map_eq_nil in Hnil. contradiction.
  - apply length_map.
  - apply Forall_forall. intros row Hrow.
    apply in_map_iff in Hrow. destruct Hrow as (t & <- & _).
    apply length_map.
Qed.

Lemma parse_table_is_rectangular_witness :
  exists df,
    parse april_then_may = Ok df
    /\ length (data df) = length (index df)
    /\ Forall (fun row => length row = length (columns df)) (data df).
Proof.
  assert (Hparse : parse april_then_may
                   = Ok {| index := [make_timestamp 2020 5 1 10 0;
                                     make_timestamp 2020 4 3 10 0];
                           columns := [NaNLabel];
                           data := [[float_of_Z 2]; [float_of_Z 1]] |})
    by (vm_compute; reflexivity).
  eexists. split; [ exact Hparse | ].
  destruct (@parse_table_is_rectangular _ _ Hparse) as (_ & _ & H1 & H2).
  split; assumption.
Defined.

Lemma last_number_snoc (values : list float) (x : float) :
  last_number (values ++ [x])
  = if is_nan x then last_number values else x.
Proof.
  unfold last_number. rewrite filter_app. cbn [filter].
  destruct (is_nan x); cbn [negb].
  - rewrite app_nil_r. reflexivity.
  - apply last_last.
Qed.

Lemma readings_of_snoc (t v : string) (input : list raw_record)
      (r : raw_record) :
  readings_of t v (input ++ [r])
  = readings_of t v input
    ++ (if key_eqb (record_key r) (t, v) then [normalized r] else []).
Proof.
  unfold readings_of. rewrite filter_app, map_app. cbn [filter].
  destruct (key_eqb (record_key r) (t, v)); reflexivity.
Qed.

(** X5.  A record appended to an export overrides the earlier records
    with its key when its value is a number: the cell of its timestamp and
    variable then holds its value.  When its value is no number the cell
    holds what the earlier records give. *)
Theorem parse_appended_record (input : list raw_record) (r : raw_record)
        (df : DataFrame) :
  parse (input ++ [r]) = Ok df ->
  exists (i j : nat) (ts : Timestamp) (l : label),
    nth_error (index df) i = Some ts
    /\ to_datetime (timestamp r) = Ok ts
    /\ nth_error (columns df) j = Some l
    /\ drop_prefix (variable r) = Ok l
    /\ cell df i j
       = if is_nan (normalized r)
         then last_number (readings_of (timestamp r) (variable r) input)
         else normalized r.
Proof.
  intro Hparse.
  destruct (@parse_rows_columns _ _ Hparse)
    as (rows & cols & _ & _ & Hrows & Hcols & Hidx & Hlab & Hcell).
  assert (Hr : In r (input ++ [r]))
    by (apply in_or_app; right; left; reflexivity).
  assert (Ht : In (timestamp r) rows) by (apply Hrows; eauto).
  assert (Hv : In (variable r) cols) by (apply Hcols; eauto).
  apply In_nth_error in Ht, Hv.
  destruct Ht as (i & Hi). destruct Hv as (j & Hj).
  assert (Hts : exists ts, nth_error (index df) i = Some ts
                           /\ to_datetime (timestamp r) = Ok ts).
  { clear - Hidx Hi. revert i Hi.
    induction Hidx as [ | t ts rows idx Ht _ IH ]; intros [ | i ] Hi;
      simpl in *; try discriminate.
    - injection Hi as <-. eauto.
    - apply IH. exact Hi. }
  assert (Hl : exists l, nth_error (columns df) j = Some l
                         /\ drop_prefix (variable r) = Ok l).
  { clear - Hlab Hj. revert j Hj.
    induction Hlab as [ | v l cols labs Hv _ IH ]; intros [ | j ] Hj;
      simpl in *; try discriminate.
    - injection Hj as <-. eauto.
    - apply IH. exact Hj. }
  destruct Hts as (ts & Hts1 & Hts2). destruct Hl as (l & Hl1 & Hl2).
  exists i, j, ts, l. repeat (split; [ assumption | ]).
  rewrite (Hcell i j _ _ Hi Hj), readings_of_snoc.
  assert (Hkey : key_eqb (record_key r) (timestamp r, variable r) = true)
    by (apply key_eqb_eq; reflexivity).
  rewrite Hkey. apply last_number_snoc.
Qed.

Lemma parse_appended_record_witness :
  exists df,
    parse ([ {| timestamp := "03/04/2020 10:00"; variable := "Meter";
                object_value := "abc" |} ]
           ++ [ {| timestamp := "03/04/2020 10:00"; variable := "Meter";
                   object_value := "5 kWh" |} ]) = Ok df
    /\ exists i j, cell df i j = float_of_Z 5.
Proof.
  set (r := {| timestamp := "03/04/2020 10:00"%string;
               variable := "Meter"%string;
               object_value := "5 kWh"%string |}).
  set (r0 := {| timestamp := "03/04/2020 10:00"%string;
                variable := "Meter"%string;
                object_value := "abc"%string |}).
  assert (Hparse : parse ([r0] ++ [r])
                   = Ok {| index := [make_timestamp 2020 4 3 10 0];
                           columns := [NaNLabel];
                           data := [[float_of_Z 5]] |})
    by (vm_compute; reflexivity).
  eexists. split; [ exact Hparse | ].
  destruct (@parse_appended_record [r0] r _ Hparse)
    as (i & j & ts & l & _ & _ & _ & _ & Hcell).
  exists i, j. rewrite Hcell. vm_compute. reflexivity.
Defined.

Lemma Forall2_nth_right {A B : Type} (R : A -> B -> Prop) (l : list A)
      (l' : list B) :
  Forall2 R l l' ->
  forall i b, nth_error l' i = Some b ->
              exists a, nth_error l i = Some a /\ R a b.
Proof.
  induction 1 as [ | x y l l' Hxy _ IH ]; intros [ | i ] b Hb;
    simpl in *; try discriminate.
  - injection Hb as <-. eauto.
  - apply IH. exact Hb.
Qed.

Lemma parse_names_injective (input : list raw_record) (df : DataFrame)
      (i j : nat) (n : string) :
  parse input = Ok df ->
  nth_error (columns df) i = Some (Name n) ->
  nth_error (columns df) j = Some (Name n) ->
  i = j.
Proof.
  intros Hparse Hi Hj.
  destruct (@parse_rows_columns _ _ Hparse)
    as (rows & cols & _ & Hsorted & _ & _ & _ & Hlab & _).
  destruct (Forall2_nth_right Hlab _ Hi) as (vi & Hvi & Hdi).
  destruct (Forall2_nth_right Hlab _ Hj) as (vj & Hvj & Hdj).
  apply drop_prefix_name_iff in Hdi, Hdj.
  destruct Hdi as [-> _]. destruct Hdj as [-> _].
  assert (Hnodup : NoDup cols)
    by (eapply sorted_NoDup; [ apply string_compare_refl | exact Hsorted ]).
  eapply NoDup_nth_error; [ exact Hnodup | | congruence ].
  apply nth_error_Some. congruence.
Qed.

(** X6.  Two columns of the table [parse] returns never carry the same
    name: the names that lose the prefix stay distinct, and only the NaN
    label can repeat. *)
Theorem parse_column_names_distinct (input : list raw_record) (df : DataFrame)
        (i j : nat) (n : string) :
  parse input = Ok df ->
  nth_error (columns df) i = Some (Name n) ->
  nth_error (columns df) j = Some (Name n) ->
  i = j.
Proof. apply parse_names_injective. Qed.

Lemma parse_column_names_distinct_witness :
  exists (df : DataFrame) (n : string),
    parse seven_meters = Ok df
    /\ length (columns df) = 7
    /\ nth_error (columns df) 0 = Some (Name n)
    /\ 0 = 0.
Proof.
  destruct (parse seven_meters) as [ df | e ] eqn:Hparse;
    [ | vm_compute in Hparse; discriminate ].
  assert (Hdf := Hparse). vm_compute in Hdf. injection Hdf as Hdf.
  assert (H0 : nth_error (columns df) 0
               = Some (Name (nth 0 summary_columns EmptyString)))
    by (rewrite <- Hdf; reflexivity).
  exists df, (nth 0 summary_columns EmptyString).
  split; [ reflexivity | ].
  split; [ rewrite <- Hdf; reflexivity | ].
  split; [ exact H0 | ].
  exact (@parse_column_names_distinct seven_meters df 0 0 _ Hparse H0 H0).
Defined.

(* ================================================================= *)
(** ** What the table depends on *)

Section SortedSameElements.
Variable A : Type.
Variable cmp : A -> A -> comparison.
Hypothesis cmp_refl : forall x, cmp x x = Eq.
Hypothesis cmp_trans :
  forall x y z, cmp x y = Lt -> cmp y z = Lt -> cmp x z = Lt.

Lemma sorted_same_elements (l1 l2 : list A) :
  StronglySorted (before cmp) l1 ->
  StronglySorted (before cmp) l2 ->
  (forall x, In x l1 <-> In x l2) ->
  l1 = l2.
Proof.
  intro H1. revert l2.
  induction H1 as [ | x l1 Hs1 IH Hx ]; intros l2 H2 Hsame.
  - destruct l2 as [ | y l2 ]; [ reflexivity | ].
    destruct (proj2 (Hsame y) (or_introl eq_refl)).
  - destruct H2 as [ | y l2 Hs2 Hy ].
    + destruct (proj1 (Hsame x) (or_introl eq_refl)).
    + rewrite Forall_forall in Hx, Hy.
      assert (Hirr : forall z, ~ before cmp z z)
        by (intros z Hz; unfold before in Hz; rewrite cmp_refl in Hz;
            discriminate).
      assert (Hxy : x = y).
      { destruct (proj1 (Hsame x) (or_introl eq_refl)) as [ Heq | Hin ];
          [ congruence | ].
        destruct (proj2 (Hsame y) (or_introl eq_refl)) as [ Heq | Hin' ];
          [ congruence | ].
        exfalso. apply (Hirr x).
        eapply cmp_trans; [ apply Hx, Hin' | apply Hy, Hin ]. }
      subst y. f_equal. apply IH; [ exact Hs2 | ].
      intro z. split; intro Hz.
      * destruct (proj1 (Hsame z) (or_intror Hz)) as [ Heq | Hin ];
          [ | exact Hin ].
        subst z. destruct (Hirr x). apply Hx, Hz.
      * destruct (proj2 (Hsame z) (or_intror Hz)) as [ Heq | Hin ];
          [ | exact Hin ].
        subst z. destruct (Hirr x). apply Hy, Hz.
Qed.
End SortedSameElements.

Lemma key_compare_refl (k : key) : key_compare k k = Eq.
Proof. unfold key_compare. rewrite !string_compare_refl. reflexivity. Qed.

Lemma key_compare_antisym (a b : key) :
  key_compare a b = CompOpp (key_compare b a).
Proof.
  unfold key_compare.
  rewrite (String.compare_antisym (fst a) (fst b)).
  destruct (String.compare (fst b) (fst a)); simpl; try reflexivity.
  apply String.compare_antisym.
Qed.

Lemma key_compare_trans (a b c : key) :
  key_compare a b = Lt -> key_compare b c = Lt -> key_compare a c = Lt.
Proof.
  unfold key_compare.
  destruct (String.compare (fst a) (fst b)) eqn:Hab; try discriminate;
    destruct (String.compare (fst b) (fst c)) eqn:Hbc; try discriminate;
    intros H1 H2.
  - apply String.compare_eq_iff in Hab, Hbc.
    rewrite Hab, Hbc, string_compare_refl.
    eapply string_compare_trans; eassumption.
  - apply String.compare_eq_iff in Hab. rewrite Hab, Hbc. reflexivity.
  - apply String.compare_eq_iff in Hbc. rewrite <- Hbc, Hab. reflexivity.
  - rewrite (string_compare_trans _ _ _ Hab Hbc). reflexivity.
Qed.

Lemma keys_sorted (l : list key) :
  StronglySorted (before key_compare) (sorted_unique key_compare l).
Proof.
  apply sorted_unique_sorted.
  - apply key_compare_eq.
  - apply key_compare_antisym.
  - apply key_compare_trans.
Qed.

Lemma last_number_twice (values : list float) :
  last_number (values ++ values) = last_number values.
Proof.
  unfold last_number. rewrite filter_app.
  destruct (filter (fun x => negb (is_nan x)) values) as [ | x xs ] eqn:Hf.
  - reflexivity.
  - rewrite <- Hf.
    assert (Hne : filter (fun x => negb (is_nan x)) values <> [])
      by (rewrite Hf; discriminate).
    destruct (exists_last Hne) as (front & y & Hlast).
    rewrite Hlast, app_assoc, !last_last. reflexivity.
Qed.

Lemma groupby_index_last_ext (s1 s2 : Series) :
  (forall k, In k (map fst s1) <-> In k (map fst s2)) ->
  (forall k, group_last (values_at k s1) = group_last (values_at k s2)) ->
  groupby_index_last s1 = groupby_index_last s2.
Proof.
  intros Hkeys Hvalues. unfold groupby_index_last.
  assert (E : sorted_unique key_compare (map fst s1)
              = sorted_unique key_compare (map fst s2)).
  { apply (sorted_same_elements key_compare_refl key_compare_trans);
      try apply keys_sorted.
    intro k.
    rewrite !(sorted_unique_In key_compare key_compare_eq). apply Hkeys. }
  rewrite E. apply map_ext. intro k. f_equal. apply Hvalues.
Qed.

Lemma forallb_same_elements {A : Type} (p : A -> bool) (l1 l2 : list A) :
  (forall x, In x l1 <-> In x l2) -> forallb p l1 = forallb p l2.
Proof.
  intro Hsame.
  destruct (forallb p l1) eqn:H1, (forallb p l2) eqn:H2; try reflexivity.
  - rewrite forallb_forall in H1.
    assert (H : forallb p l2 = true)
      by (apply forallb_forall; intros x Hx; apply H1, Hsame, Hx).
    congruence.
  - rewrite forallb_forall in H2.
    assert (H : forallb p l1 = true)
      by (apply forallb_forall; intros x Hx; apply H2, Hsame, Hx).
    congruence.
Qed.

Lemma index_kept_same_keys (input1 input2 : list raw_record) :
  (forall k : key,
      In k (map record_key input1) <-> In k (map record_key input2)) ->
  forallb index_kept_as_text input1 = forallb index_kept_as_text input2.
Proof.
  intro Hkeys.
  assert (Hmap : forall input,
             forallb index_kept_as_text input
             = forallb (fun k : key =>
                          kept_as_text (fst k) && kept_as_text (snd k))
                       (map record_key input)).
  { induction input as [ | r input IH ]; simpl; [ | rewrite IH ];
      reflexivity. }
  rewrite !Hmap. apply forallb_same_elements. exact Hkeys.
Qed.

(** X7.  The table depends on the export only through its keys and, for
    each key, the last of its values that is a number: two exports with the
    same keys and the same last numbers give the same result.  Reading an
    export twice over therefore gives the table of reading it once. *)
Theorem parse_depends_on_last_numbers :
  (forall input1 input2 : list raw_record,
      (forall k : key,
          In k (map record_key input1) <-> In k (map record_key input2)) ->
      (forall t v : string,
          last_number (readings_of t v input1)
          = last_number (readings_of t v input2)) ->
      parse input1 = parse input2)
  /\ forall input : list raw_record, parse (input ++ input) = parse input.
Proof.
  assert (Hgen : forall input1 input2 : list raw_record,
             (forall k : key,
                 In k (map record_key input1) <-> In k (map record_key input2)) ->
             (forall t v : string,
                 last_number (readings_of t v input1)
                 = last_number (readings_of t v input2)) ->
             parse input1 = parse input2).
  { intros input1 input2 Hkeys Hlast. unfold parse, read_csv.
    rewrite (@index_kept_same_keys input1 input2 Hkeys).
    destruct (forallb index_kept_as_text input2); [ | reflexivity ].
    rewrite !read_csv_values. cbn [result_bind].
    rewrite (@groupby_index_last_ext
               (map (fun r => (record_key r, normalized r)) input1)
               (map (fun r => (record_key r, normalized r)) input2));
      [ reflexivity | | ].
    - intro k. rewrite !map_map. apply Hkeys.
    - intros [t v]. rewrite !group_last_last, !values_at_records.
      apply Hlast. }
  split; [ exact Hgen | ].
  intro input. apply Hgen.
  - intro k. rewrite map_app, in_app_iff. tauto.
  - intros t v. unfold readings_of. rewrite filter_app, map_app.
    apply last_number_twice.
Qed.

Lemma parse_depends_on_last_numbers_witness :
  parse (corrected_then_garbled ++ corrected_then_garbled)
  = parse corrected_then_garbled.
Proof.
  apply (proj2 parse_depends_on_last_numbers).
Defined.

(* ================================================================= *)
(** ** The day bucketer, further *)

Local Open Scope Z_scope.

Lemma valid_time_bounds (t : time) :
  valid_time t = true -> 0 <= minutes_since_midnight t <= 1439.
Proof.
  unfold valid_time, minutes_since_midnight. intro H.
  apply andb_prop in H. destruct H as [H Hm59].
  apply andb_prop in H. destruct H as [H Hm0].
  apply andb_prop in H. destruct H as [Hh0 Hh23].
  apply Z.leb_le in Hm59, Hm0, Hh0, Hh23. lia.
Qed.

Lemma date_of_shifted (ts off k : Z) :
  date_of (ts - off) = k
  <-> k * ns_per_day + off <= ts < (k + 1) * ns_per_day + off.
Proof.
  unfold date_of. change ns_per_day with 86400000000000.
  pose proof (Z.div_mod (ts - off) 86400000000000 ltac:(lia)) as Hdm.
  pose proof (Z.mod_pos_bound (ts - off) 86400000000000 ltac:(lia)) as Hr.
  split.
  - intros <-. lia.
  - intros H. symmetry.
    apply Z.div_unique with (r := ts - off - k * 86400000000000);
      [ left; lia | lia ].
Qed.

Lemma group_key_shape (df : DataFrame) (start_time end_time : option time)
      (keys : list date) :
  group_key df start_time end_time = Ok keys ->
  exists off : Z,
    keys = map (fun ts => date_of (ts - off)) (index df)
    /\ (valid_time_option start_time = true ->
        valid_time_option end_time = true ->
        0 <= off < ns_per_day).
Proof.
  unfold group_key, _timedelta_since_midnight, result_bind.
  destruct start_time as [ st | ], end_time as [ en | ]; intro H;
    try discriminate.
  - rewrite !timedelta_minutes in H.
    destruct (_ <? _) in H; injection H as <-.
    + exists 0. split.
      * unfold index_date. apply map_ext. intro ts. f_equal. lia.
      * intros _ _. change ns_per_day with 86400000000000. lia.
    + exists ((minutes_since_midnight st + minutes_since_midnight en)
              * (ns_per_minute / 2)).
      split.
      * unfold index_date, index_shift. rewrite map_map.
        apply map_ext. intro ts. f_equal. rewrite midpoint_minutes.
        change (us_per_minute / 2) with 30000000.
        change ns_per_us with 1000.
        change (ns_per_minute / 2) with 30000000000. ring.
      * simpl. intros Hst Hen.
        apply valid_time_bounds in Hst, Hen.
        change (ns_per_minute / 2) with 30000000000.
        change ns_per_day with 86400000000000. lia.
  - rewrite timedelta_minutes in H. injection H as <-.
    exists (minutes_since_midnight st * ns_per_minute). split.
    + unfold index_date, index_shift. rewrite map_map.
      apply map_ext. intro ts. f_equal.
      change us_per_minute with 60000000.
      change ns_per_us with 1000.
      change ns_per_minute with 60000000000. ring.
    + simpl. intros Hst _. apply valid_time_bounds in Hst.
      change ns_per_minute with 60000000000.
      change ns_per_day with 86400000000000. lia.
  - injection H as <-. exists 0. split.
    + unfold index_date. apply map_ext. intro ts. f_equal. lia.
    + intros _ _. change ns_per_day with 86400000000000. lia.
Qed.

(** X8.  Whatever the window, the buckets of the day bucketer are the
    successive periods of 24 hours that begin at one offset after midnight,
    an offset of less than a day: a timestamp has key [k] exactly when it
    lies in the [k]-th such period.  There is one key per row, and a later
    timestamp never has an earlier key. *)
Theorem group_key_buckets_are_days
        (df : DataFrame) (start_time end_time : option time)
        (keys : list date) :
  valid_time_option start_time = true ->
  valid_time_option end_time = true ->
  group_key df start_time end_time = Ok keys ->
  exists off : Z,
    0 <= off < ns_per_day
    /\ length keys = length (index df)
    /\ (forall (i : nat) (ts : Timestamp),
           nth_error (index df) i = Some ts ->
           exists k : date,
             nth_error keys i = Some k
             /\ forall k' : date,
                 k = k' <-> k' * ns_per_day + off <= ts
                            /\ ts < (k' + 1) * ns_per_day + off)
    /\ (forall (i j : nat) (ts ts' : Timestamp) (k k' : date),
           nth_error (index df) i = Some ts ->
           nth_error (index df) j = Some ts' ->
           nth_error keys i = Some k ->
           nth_error keys j = Some k' ->
           ts <= ts' -> k <= k').
Proof.
  intros Hst Hen Hkeys.
  destruct (group_key_shape _ _ _ Hkeys) as (off & -> & Hoff).
  exists off.
  split; [ auto | split; [ apply length_map | split ] ].
  - intros i ts Hts. exists (date_of (ts - off)). split.
    + apply (map_nth_error (fun ts => date_of (ts - off)) i (index df) Hts).
    + intro k'. rewrite date_of_shifted. tauto.
  - intros i j ts ts' k k' Hi Hj Hk Hk' Hle.
    rewrite (map_nth_error (fun ts => date_of (ts - off)) i (index df) Hi)
      in Hk.
    rewrite (map_nth_error (fun ts => date_of (ts - off)) j (index df) Hj)
      in Hk'.
    injection Hk as <-. injection Hk' as <-.
    unfold date_of. apply Z.div_le_mono; [ | lia ].
    change ns_per_day with 86400000000000. lia.
Qed.

Lemma group_key_buckets_are_days_witness :
  exists off : Z,
    0 <= off < ns_per_day
    /\ length [days_from_civil 2020 1 1]
       = length [make_timestamp 2020 1 2 5 0].
Proof.
  destruct (@group_key_buckets_are_days
              {| index := [make_timestamp 2020 1 2 5 0];
                 columns := []; data := [[]] |}
              (Some {| hour := 6; minute := 0 |}) None
              [days_from_civil 2020 1 1] eq_refl eq_refl eq_refl)
    as (off & Hoff & Hlen & _ & _).
  exists off. split; [ exact Hoff | exact Hlen ].
Defined.

Lemma group_key_window_buckets (df : DataFrame) (start_time end_time : time) :
  group_key df (Some start_time) (Some end_time)
  = Ok (map (window_bucket start_time end_time) (index df)).
Proof.
  unfold group_key, _timedelta_since_midnight, result_bind.
  rewrite !timedelta_minutes.
  assert (Hlt : (minutes_since_midnight start_time * us_per_minute
                 <? minutes_since_midnight end_time * us_per_minute)
                = (minutes_since_midnight start_time
                   <? minutes_since_midnight end_time)).
  { unfold us_per_minute.
    destruct (Z.ltb_spec (minutes_since_midnight start_time)
                         (minutes_since_midnight end_time));
      [ apply Z.ltb_lt | apply Z.ltb_ge ]; lia. }
  rewrite Hlt. unfold window_bucket.
  destruct (minutes_since_midnight start_time
            <? minutes_since_midnight end_time); [ reflexivity | ].
  f_equal. unfold index_date, index_shift. rewrite map_map.
  apply map_ext. intro ts. f_equal. rewrite midpoint_minutes.
  change (us_per_minute / 2) with 30000000.
  change ns_per_us with 1000.
  change (ns_per_minute / 2) with 30000000000. ring.
Qed.

Lemma time_micros_minutes (t : time) :
  time_micros t = minutes_since_midnight t * 60000000.
Proof.
  unfold time_micros. rewrite timedelta_minutes. reflexivity.
Qed.

Lemma night_bucket_of_kept_row (start_time end_time : time) (ts : Timestamp) :
  valid_time start_time = true ->
  valid_time end_time = true ->
  time_micros end_time < time_micros start_time ->
  between_time start_time end_time ts = true ->
  window_bucket start_time end_time ts = night_bucket start_time ts.
Proof.
  intros Hst Hen Hnight Hkept.
  apply valid_time_bounds in Hst, Hen.
  unfold between_time in Hkept. unfold window_bucket, night_bucket.
  rewrite !time_micros_minutes in *.
  set (s := minutes_since_midnight start_time) in *.
  set (e := minutes_since_midnight end_time) in *.
  replace (s * 60000000 <=? e * 60000000) with false in Hkept
    by (symmetry; apply Z.leb_gt; lia).
  replace (s <? e) with false by (symmetry; apply Z.ltb_ge; lia).
  unfold timestamp_micros, time_of_day_ns, date_of in *.
  change ns_per_us with 1000 in *.
  change ns_per_day with 86400000000000 in *.
  change (ns_per_minute / 2) with 30000000000.
  pose proof (Z.div_mod ts 86400000000000 ltac:(lia)) as Hdm.
  pose proof (Z.mod_pos_bound ts 86400000000000 ltac:(lia)) as Hr.
  set (r := ts mod 86400000000000) in *.
  pose proof (Z.div_mod r 1000 ltac:(lia)) as Hdm'.
  pose proof (Z.mod_pos_bound r 1000 ltac:(lia)) as Hr'.
  destruct (Z.leb_spec (s * 60000000) (r / 1000)) as [ Hevening | Hmorning ].
  - symmetry.
    apply Z.div_unique with (r := r - (s + e) * 30000000000);
      [ left; lia | lia ].
  - simpl in Hkept. apply Z.leb_le in Hkept. symmetry.
    apply Z.div_unique
      with (r := r - (s + e) * 30000000000 + 86400000000000);
      [ left; lia | lia ].
Qed.

(** X9.  For a window around midnight (the start later in the day than
    the end) every row the time-of-day filter keeps falls in the bucket of
    its evening: rows from the start time on get their own date, rows up to
    the end time get the date before. *)
Theorem night_window_rows_share_a_bucket
        (df : DataFrame) (start_time end_time : time) :
  valid_time start_time = true ->
  valid_time end_time = true ->
  time_micros end_time < time_micros start_time ->
  Forall (fun ts => between_time start_time end_time ts = true) (index df) ->
  group_key df (Some start_time) (Some end_time)
  = Ok (map (night_bucket start_time) (index df)).
Proof.
  intros Hst Hen Hnight Hkept.
  rewrite group_key_window_buckets. f_equal.
  apply map_ext_in. intros ts Hts.
  apply night_bucket_of_kept_row; try assumption.
  rewrite Forall_forall in Hkept. apply Hkept, Hts.
Qed.

Lemma night_window_rows_share_a_bucket_witness :
  group_key {| index := [make_timestamp 2020 1 2 23 30;
                         make_timestamp 2020 1 3 1 0];
               columns := []; data := [[]; []] |}
            (Some {| hour := 22; minute := 0 |})
            (Some {| hour := 6; minute := 0 |})
  = Ok (map (night_bucket {| hour := 22; minute := 0 |})
            [make_timestamp 2020 1 2 23 30; make_timestamp 2020 1 3 1 0]).
Proof.
  apply (@night_window_rows_share_a_bucket
           {| index := [make_timestamp 2020 1 2 23 30;
                        make_timestamp 2020 1 3 1 0];
              columns := []; data := [[]; []] |}
           {| hour := 22; minute := 0 |} {| hour := 6; minute := 0 |}
           eq_refl eq_refl eq_refl).
  repeat constructor.
Defined.

Local Close Scope Z_scope.

(* ================================================================= *)
(** ** The summariser, further *)

Lemma bind_raise {A B : Type} (c : M A) (k : A -> M B) (h h' : heap)
      (e : exn) :
  c h = (Raise e, h') -> bind c k h = (Raise e, h').
Proof. intro H. unfold bind. rewrite H. reflexivity. Qed.

Lemma summary_rows (w : DataFrame) (keys : list date) (cost : float) :
  data (summary_of keys (selected w) cost)
  = map (fun k =>
           let e := map (fun j => float_sub
                                    (group_max (readings w keys k j))
                                    (group_min (readings w keys k j)))
                        (seq 0 7) in
           e ++ map (fun v => float_mul v cost) e)
        (sorted_unique Z.compare keys).
Proof.
  unfold summary_of, aggregate. cbn [data].
  change (length (columns (selected w))) with 7.
  rewrite zip_with_map.
  rewrite (map_ext _ (fun k => map (fun j => float_sub
                                 (group_max (readings w keys k j))
                                 (group_min (readings w keys k j)))
                              (seq 0 7))).
  - rewrite map_map, zip_with_map. reflexivity.
  - intro k'. rewrite zip_with_map. apply map_ext_in.
    intros j' Hj'. apply in_seq in Hj'.
    rewrite !selected_column by lia. reflexivity.
Qed.

Lemma dates_sorted (keys : list date) :
  StronglySorted Z.lt (sorted_unique Z.compare keys).
Proof.
  assert (H : StronglySorted (before Z.compare)
                             (sorted_unique Z.compare keys)).
  { apply sorted_unique_sorted.
    - apply Z.compare_eq.
    - intros x y. apply Z.compare_antisym.
    - intros x y z Hxy Hyz. rewrite Z.compare_lt_iff in Hxy, Hyz |- *.
      lia. }
  induction H as [ | k l _ IH Hk ]; constructor; [ exact IH | ].
  eapply Forall_impl; [ | exact Hk ].
  intros k' Hlt. apply Z.compare_lt_iff. exact Hlt.
Qed.

(** X10.  The summary has the fourteen labelled columns in their fixed
    order, the kWh of the seven meters before their dollars, and a row of
    fourteen cells per index entry; in every row the dollars of a meter are
    its kWh multiplied by the cost. *)
Theorem summary_layout
        (h : heap) (df : loc) (d : DataFrame) (cost : float)
        (start_time end_time : option time) (keys : list date) :
  nth_error h df = Some d ->
  has_meters d = true ->
  group_key (window d start_time end_time) start_time end_time = Ok keys ->
  exists (r : loc) (h' : heap) (summary : DataFrame),
    summarize df cost start_time end_time h = (Ok r, h')
    /\ nth_error h' r = Some summary
    /\ columns summary = summary_names
    /\ length (data summary) = length (index summary)
    /\ Forall (fun row => length row = 14) (data summary)
    /\ forall i j : nat,
        i < length (index summary) -> j < 7 ->
        cell summary i (7 + j) = float_mul (cell summary i j) cost.
Proof.
  intros Hd Hmeters Hkeys.
  destruct (@summarize_run h df d cost start_time end_time keys
                           Hd Hmeters Hkeys) as (r & h' & Hrun & Hr).
  exists r, h', (summary_of keys (selected (window d start_time end_time)) cost).
  split; [ exact Hrun | split; [ exact Hr | ] ].
  split; [ reflexivity | ].
  rewrite summary_rows. cbn [index summary_of].
  split; [ apply length_map | split ].
  - apply Forall_forall. intros row Hrow.
    apply in_map_iff in Hrow. destruct Hrow as (k & <- & _). reflexivity.
  - intros i j Hi Hj.
    destruct (nth_error (sorted_unique Z.compare keys) i) as [ k | ] eqn:Hk.
    + apply (@summary_cell (window d start_time end_time) keys cost i j k
                           Hk Hj).
    + apply nth_error_None in Hk. unfold date in *. lia.
Qed.

Lemma summary_layout_witness :
  exists (r : loc) (h' : heap) (summary : DataFrame),
    summarize 0 (float_of_ratio 16 100) None None [one_day] = (Ok r, h')
    /\ nth_error h' r = Some summary
    /\ columns summary = summary_names
    /\ Forall (fun row => length row = 14) (data summary).
Proof.
  destruct (@summary_layout [one_day] 0 one_day (float_of_ratio 16 100)
                            None None (index_date (index one_day))
                            eq_refl eq_refl eq_refl)
    as (r & h' & summary & Hrun & Hr & Hcols & _ & Hrows & _).
  exists r, h', summary. auto.
Defined.

(** X11.  The summary has one row per bucket that some row of the table
    falls in, in ascending order of the dates and without repetition; a
    table without rows gives a summary without rows. *)
Theorem summary_index_is_the_buckets
        (h : heap) (df : loc) (d : DataFrame) (cost : float)
        (start_time end_time : option time) (keys : list date) :
  nth_error h df = Some d ->
  has_meters d = true ->
  group_key (window d start_time end_time) start_time end_time = Ok keys ->
  exists (r : loc) (h' : heap) (summary : DataFrame),
    summarize df cost start_time end_time h = (Ok r, h')
    /\ nth_error h' r = Some summary
    /\ StronglySorted Z.lt (index summary)
    /\ (forall k : date, In k (index summary) <-> In k keys)
    /\ (index (window d start_time end_time) = [] -> index summary = []).
Proof.
  intros Hd Hmeters Hkeys.
  destruct (@summarize_run h df d cost start_time end_time keys
                           Hd Hmeters Hkeys) as (r & h' & Hrun & Hr).
  exists r, h', (summary_of keys (selected (window d start_time end_time)) cost).
  split; [ exact Hrun | split; [ exact Hr | ] ].
  cbn [index summary_of].
  split; [ apply dates_sorted | split ].
  - intro k. apply (sorted_unique_In Z.compare Z.compare_eq).
  - intro Hempty.
    destruct (group_key_shape _ _ _ Hkeys) as (off & -> & _).
    rewrite Hempty. reflexivity.
Qed.

Lemma summary_index_is_the_buckets_witness :
  exists (r : loc) (h' : heap) (summary : DataFrame),
    summarize 0 (float_of_ratio 16 100) None None [one_day] = (Ok r, h')
    /\ nth_error h' r = Some summary
    /\ StronglySorted Z.lt (index summary).
Proof.
  destruct (@summary_index_is_the_buckets
              [one_day] 0 one_day (float_of_ratio 16 100)
              None None (index_date (index one_day))
              eq_refl eq_refl eq_refl)
    as (r & h' & summary & Hrun & Hr & Hsorted & _).
  exists r, h', summary. auto.
Defined.
(* ================================================================= *)
(** ** When [summarize] returns *)

Lemma label_positions_nil (l : label) (cols : list label) :
  forall i, label_positions l i cols = [] <-> ~ In l cols.
Proof.
  induction cols as [ | c cols IH ]; intro i; simpl.
  - tauto.
  - destruct (label_eqb c l) eqn:Hc.
    + apply label_eqb_eq in Hc. split; [ discriminate | ].
      intro Hn. exfalso. apply Hn. left. exact Hc.
    + rewrite IH. split.
      * intros Hn [ -> | Hin ]; [ | exact (Hn Hin) ].
        rewrite label_eqb_refl in Hc. discriminate.
      * intros Hn Hin. apply Hn. right. exact Hin.
Qed.

Lemma label_positions_in (l : label) (cols : list label) :
  forall i, label_positions l i cols <> [] -> In l cols.
Proof.
  induction cols as [ | c cols IH ]; intro i; simpl.
  - congruence.
  - destruct (label_eqb c l) eqn:Hc.
    + apply label_eqb_eq in Hc. auto.
    + intro H. right. exact (IH _ H).
Qed.

Lemma columns_indexer_cases (cols : list label) (keys : list string) :
  (exists ps, columns_indexer keys cols = Ok ps
              /\ forall k, In k keys -> In (Name k) cols)
  \/ (exists k, columns_indexer keys cols = Raise (KeyError k)
                /\ In k keys /\ ~ In (Name k) cols).
Proof.
  induction keys as [ | k keys IH ]; simpl.
  - left. exists []. split; [ reflexivity | intros k [] ].
  - destruct (label_positions (Name k) 0 cols) as [ | p ps ] eqn:Hk.
    + right. exists k. split; [ reflexivity | ].
      split; [ left; reflexivity | ].
      apply (label_positions_nil (Name k) cols 0). exact Hk.
    + assert (Hin : In (Name k) cols).
      { apply (label_positions_in (Name k) cols 0). congruence. }
      destruct IH as [ (qs & -> & Hall) | (k' & -> & Hk' & Hn) ].
      * left. eexists. split; [ reflexivity | ].
        intros k0 [ <- | H0 ]; auto.
      * right. exists k'. split; [ reflexivity | ].
        split; [ right; exact Hk' | exact Hn ].
Qed.

Lemma meters_exactly_once (d : DataFrame) :
  meters_at_most_once d = true ->
  (forall k, In k summary_columns -> In (Name k) (columns d)) ->
  has_meters d = true.
Proof.
  unfold meters_at_most_once, has_meters. intros Hmost Hall.
  rewrite forallb_forall in *. intros k Hk.
  specialize (Hmost k Hk). specialize (Hall k Hk).
  apply Nat.leb_le in Hmost. apply Nat.eqb_eq.
  destruct (label_positions (Name k) 0 (columns d)) as [ | p ps ] eqn:Hps.
  - apply (label_positions_nil (Name k) (columns d) 0) in Hps. contradiction.
  - simpl in *. lia.
Qed.

Lemma has_meters_present (d : DataFrame) (k : string) :
  has_meters d = true -> In k summary_columns -> In (Name k) (columns d).
Proof.
  unfold has_meters. intros Hm Hk. rewrite forallb_forall in Hm.
  specialize (Hm k Hk). apply Nat.eqb_eq in Hm.
  apply (label_positions_in (Name k) (columns d) 0).
  intro Hnil. rewrite Hnil in Hm. discriminate.
Qed.

Lemma summarize_end_only (h : heap) (df : loc) (cost : float) (en : time) :
  exists msg,
    summarize df cost None (Some en) h = (Raise (ValueError msg), h).
Proof. eexists. reflexivity. Qed.

Lemma summarize_missing (h : heap) (df : loc) (d : DataFrame) (cost : float)
      (start_time end_time : option time) (k : string) :
  nth_error h df = Some d ->
  (start_time = None -> end_time = None) ->
  columns_indexer summary_columns (columns d) = Raise (KeyError k) ->
  exists h', summarize df cost start_time end_time h = (Raise (KeyError k), h').
Proof.
  intros Hd Hargs Hmissing. unfold summarize.
  set (w := window d start_time end_time).
  match goal with
  | |- exists h', bind ?c ?k h = _ => set (first := c); set (K := k)
  end.
  assert (Hfirst : exists df1 h1,
             first h = (Ok df1, h1) /\ nth_error h1 df1 = Some w).
  { subst first w. destruct start_time as [ st | ], end_time as [ en | ];
      cbn [window] in *.
    - exists (length h),
        (h ++ [take_rows (indexer_between_time (index d) st en) d]).
      split; [ | apply nth_error_snoc_last ].
      erewrite bind_run by (apply load_run; exact Hd).
      unfold iloc_rows.
      erewrite bind_run by (apply load_run; exact Hd).
      reflexivity.
    - exists df, h. split; [ reflexivity | exact Hd ].
    - specialize (Hargs eq_refl). discriminate.
    - exists df, h. split; [ reflexivity | exact Hd ]. }
  destruct Hfirst as (df1 & h1 & Hrun1 & Hw).
  exists h1. erewrite bind_run by exact Hrun1. subst K. cbv beta.
  apply bind_raise. unfold getitem_columns.
  erewrite bind_run by (apply load_run; exact Hw).
  apply bind_raise. unfold lift, w.
  rewrite window_columns, Hmissing. reflexivity.
Qed.

(** The outcomes of [summarize] on a table in which no meter labels two
    columns, for arguments other than an end without a start. *)
Lemma summarize_cases (h : heap) (df : loc) (d : DataFrame) (cost : float)
      (start_time end_time : option time) :
  nth_error h df = Some d ->
  meters_at_most_once d = true ->
  (start_time = None -> end_time = None) ->
  (exists r h', summarize df cost start_time end_time h = (Ok r, h')
                /\ forall k, In k summary_columns -> In (Name k) (columns d))
  \/ (exists k h',
         summarize df cost start_time end_time h = (Raise (KeyError k), h')
         /\ In k summary_columns /\ ~ In (Name k) (columns d)).
Proof.
  intros Hd Hmost Hargs.
  destruct (columns_indexer_cases (columns d) summary_columns)
    as [ (ps & _ & Hall) | (k & Hraise & Hk & Hn) ].
  - left.
    destruct (@group_key_returns (window d start_time end_time) start_time end_time Hargs)
      as (keys & Hkeys).
    destruct (@summarize_run h df d cost start_time end_time keys Hd
                (@meters_exactly_once d Hmost Hall) Hkeys)
      as (r & h' & Hrun & _).
    exists r, h'. split; [ exact Hrun | exact Hall ].
  - right.
    destruct (@summarize_missing h df d cost start_time end_time k
                                 Hd Hargs Hraise) as (h' & Hrun).
    exists k, h'. auto.
Qed.

(** X12.  On a table in which no meter labels two columns, [summarize]
    returns exactly when the arguments are not an end without a start and
    each of the seven meters labels a column.  An end without a start is a
    [ValueError], raised before any table is made; with other arguments a
    meter without a column is a [KeyError] for a meter that is missing. *)
Theorem summarize_returns_iff_meters_present
        (h : heap) (df : loc) (d : DataFrame) (cost : float)
        (start_time end_time : option time) :
  nth_error h df = Some d ->
  meters_at_most_once d = true ->
  ((exists r h', summarize df cost start_time end_time h = (Ok r, h'))
   <-> (start_time = None -> end_time = None)
       /\ forall k, In k summary_columns -> In (Name k) (columns d))
  /\ (start_time = None -> end_time <> None ->
      exists msg,
        summarize df cost start_time end_time h = (Raise (ValueError msg), h))
  /\ ((start_time = None -> end_time = None) ->
      (exists k, In k summary_columns /\ ~ In (Name k) (columns d)) ->
      exists k h',
        summarize df cost start_time end_time h = (Raise (KeyError k), h')
        /\ In k summary_columns /\ ~ In (Name k) (columns d)).
Proof.
  intros Hd Hmost. split; [ split | split ].
  - intros (r & h' & Hrun).
    assert (Hargs : start_time = None -> end_time = None).
    { intros ->. destruct end_time as [ en | ]; [ | reflexivity ].
      destruct (summarize_end_only h df cost en) as (msg & Hraise).
      rewrite Hraise in Hrun. discriminate. }
    split; [ exact Hargs | ].
    destruct (@summarize_cases h df d cost start_time end_time Hd Hmost Hargs)
      as [ (_ & _ & _ & Hall) | (k & h1 & Hraise & _) ]; [ exact Hall | ].
    rewrite Hraise in Hrun. discriminate.
  - intros (Hargs & Hall).
    destruct (@summarize_cases h df d cost start_time end_time Hd Hmost Hargs)
      as [ (r & h' & Hrun & _) | (k & _ & _ & Hk & Hn) ]; [ eauto | ].
    exfalso. apply Hn, Hall, Hk.
  - intros -> Hend. destruct end_time as [ en | ]; [ | congruence ].
    apply summarize_end_only.
  - intros Hargs (k0 & Hk0 & Hn0).
    destruct (@summarize_cases h df d cost start_time end_time Hd Hmost Hargs)
      as [ (_ & _ & _ & Hall) | Hraise ]; [ | exact Hraise ].
    exfalso. apply Hn0, Hall, Hk0.
Qed.

Lemma summarize_returns_iff_meters_present_witness :
  exists r h',
    summarize 0 (float_of_ratio 16 100) None None [one_day] = (Ok r, h').
Proof.
  apply (proj1 (@summarize_returns_iff_meters_present
                  [one_day] 0 one_day (float_of_ratio 16 100) None None
                  eq_refl eq_refl)).
  split; [ reflexivity | ].
  intros k Hk. apply in_map. exact Hk.
Defined.
(* ================================================================= *)
(** ** [parse], then [summarize] *)

Lemma label_positions_at_most_once (l : label) (cols : list label) :
  (forall i j, nth_error cols i = Some l -> nth_error cols j = Some l ->
               i = j) ->
  forall s, length (label_positions l s cols) <= 1.
Proof.
  induction cols as [ | c cols IH ]; intros Hinj s; simpl.
  - lia.
  - assert (Hinj' : forall i j, nth_error cols i = Some l ->
                                nth_error cols j = Some l -> i = j).
    { intros i j Hi Hj.
      specialize (Hinj (S i) (S j) Hi Hj). congruence. }
    destruct (label_eqb c l) eqn:Hc.
    + apply label_eqb_eq in Hc. subst c.
      assert (Hnil : label_positions l (S s) cols = []).
      { apply label_positions_nil. intro Hin.
        apply In_nth_error in Hin. destruct Hin as (j & Hj).
        specialize (Hinj 0 (S j) eq_refl Hj). discriminate. }
      rewrite Hnil. simpl. lia.
    + apply IH. exact Hinj'.
Qed.

Lemma parse_meters_at_most_once (input : list raw_record) (d : DataFrame) :
  parse input = Ok d -> meters_at_most_once d = true.
Proof.
  intro Hparse. unfold meters_at_most_once.
  apply forallb_forall. intros k _. apply Nat.leb_le.
  apply label_positions_at_most_once.
  intros i j Hi Hj. exact (@parse_names_injective input d i j k Hparse Hi Hj).
Qed.

Lemma parse_column_iff (input : list raw_record) (d : DataFrame) (k : string) :
  parse input = Ok d ->
  one_line k = true ->
  In (Name k) (columns d)
  <-> exists r, In r input /\ variable r = (site_prefix ++ k)%string.
Proof.
  intros Hparse Hline.
  destruct (@parse_rows_columns _ _ Hparse)
    as (rows & cols & _ & _ & _ & Hcols & _ & Hlab & _).
  split.
  - intro Hin. apply In_nth_error in Hin. destruct Hin as (j & Hj).
    destruct (Forall2_nth_right Hlab _ Hj) as (v & Hv & Hdrop).
    apply drop_prefix_name_iff in Hdrop. destruct Hdrop as (-> & _).
    apply Hcols. eapply nth_error_In. exact Hv.
  - intro Hr. apply Hcols in Hr.
    destruct (@Forall2_In_left _ _ _ _ _ _ Hlab Hr) as (l & Hl & Hdrop).
    assert (Hname : drop_prefix (site_prefix ++ k) = Ok (Name k)).
    { apply drop_prefix_name_iff. split; [ reflexivity | exact Hline ]. }
    rewrite Hname in Hdrop. injection Hdrop as <-. exact Hl.
Qed.

Lemma summary_columns_one_line (k : string) :
  In k summary_columns -> one_line k = true.
Proof.
  intro Hk. unfold summary_columns in Hk. simpl in Hk.
  repeat (destruct Hk as [ <- | Hk ]; [ reflexivity | ]).
  destruct Hk.
Qed.

(** X13.  [summarize] on the table [parse] made of an export returns
    exactly when the arguments are not an end without a start and the
    export has, for each of the seven meters, a record whose variable is
    the site prefix followed by the name of the meter.  What the values and
    the timestamps of the records are does not matter. *)
Theorem summarize_after_parse
        (input : list raw_record) (d : DataFrame) (cost : float)
        (start_time end_time : option time) :
  parse input = Ok d ->
  (exists r h', summarize 0 cost start_time end_time [d] = (Ok r, h'))
  <-> (start_time = None -> end_time = None)
      /\ forall k, In k summary_columns ->
                   exists r, In r input
                             /\ variable r = (site_prefix ++ k)%string.
Proof.
  intro Hparse.
  pose proof (@parse_meters_at_most_once _ _ Hparse) as Hmost.
  assert (Hd : nth_error [d] 0 = Some d) by reflexivity.
  split.
  - intros (r & h' & Hrun).
    assert (Hargs : start_time = None -> end_time = None).
    { intros ->. destruct end_time as [ en | ]; [ | reflexivity ].
      destruct (summarize_end_only [d] 0 cost en) as (msg & Hraise).
      rewrite Hraise in Hrun. discriminate. }
    split; [ exact Hargs | ].
    intros k Hk.
    apply (@parse_column_iff input d k Hparse (@summary_columns_one_line k Hk)).
    destruct (@summarize_cases [d] 0 d cost start_time end_time Hd Hmost Hargs)
      as [ (_ & _ & _ & Hall) | (k' & h1 & Hraise & _) ]; [ auto | ].
    rewrite Hraise in Hrun. discriminate.
  - intros (Hargs & Hall).
    destruct (@summarize_cases [d] 0 d cost start_time end_time Hd Hmost Hargs)
      as [ (r & h' & Hrun & _) | (k & _ & _ & Hk & Hn) ]; [ eauto | ].
    exfalso. apply Hn.
    apply (@parse_column_iff input d k Hparse (@summary_columns_one_line k Hk)).
    apply Hall, Hk.
Qed.

Lemma summarize_after_parse_witness :
  exists d r h',
    parse seven_meters = Ok d
    /\ summarize 0 (float_of_ratio 16 100) None None [d] = (Ok r, h').
Proof.
  destruct (parse seven_meters) as [ d | e ] eqn:Hparse;
    [ | vm_compute in Hparse; discriminate ].
  exists d.
  destruct (proj2 (@summarize_after_parse seven_meters d
                     (float_of_ratio 16 100) None None Hparse))
    as (r & h' & Hrun).
  - split; [ reflexivity | ].
    intros k Hk.
    exists {| timestamp := "02/01/2020 08:00"%string;
              variable := (site_prefix ++ k)%string;
              object_value := "100 kWh"%string |}.
    split; [ | reflexivity ].
    unfold seven_meters.
    apply (in_map (fun name =>
                     {| timestamp := "02/01/2020 08:00"%string;
                        variable := (site_prefix ++ name)%string;
                        object_value := "100 kWh"%string |})).
    exact Hk.
  - exists r, h'. split; [ reflexivity | exact Hrun ].
Defined.
(* ================================================================= *)
(** ** The times of the command line *)

Lemma split_not_nil (sep : ascii) (text : string) : split sep text <> [].
Proof.
  destruct text as [ | c rest ]; simpl; [ discriminate | ].
  destruct (Ascii.eqb c sep); [ discriminate | ].
  destruct (split sep rest); discriminate.
Qed.

Lemma without_cons (sep c : ascii) (rest : string) :
  without sep (String c rest) = negb (Ascii.eqb c sep) && without sep rest.
Proof. reflexivity. Qed.

Lemma split_one (sep : ascii) (text p : string) :
  split sep text = [p] <-> p = text /\ without sep text = true.
Proof.
  revert p. induction text as [ | c rest IH ]; intro p.
  - simpl. split.
    + intro H. injection H as <-. auto.
    + intros (-> & _). reflexivity.
  - rewrite without_cons. simpl. destruct (Ascii.eqb c sep) eqn:Hc; simpl.
    + split.
      * intro H. injection H as _ H. exfalso. exact (split_not_nil _ _ H).
      * intros (_ & H). discriminate.
    + destruct (split sep rest) as [ | piece pieces ] eqn:Hs.
      * exfalso. exact (split_not_nil _ _ Hs).
      * split.
        -- intro H. injection H as <- ->.
           destruct (proj1 (IH piece) eq_refl) as (-> & Hw). auto.
        -- intros (-> & Hw).
           assert (H : piece :: pieces = [rest]) by (apply IH; auto).
           injection H as -> ->. reflexivity.
Qed.

Lemma split_two (sep : ascii) (text p0 p1 : string) :
  split sep text = [p0; p1]
  <-> text = (p0 ++ String sep p1)%string
      /\ without sep p0 = true /\ without sep p1 = true.
Proof.
  revert p0. induction text as [ | c rest IH ]; intro p0.
  - simpl. split.
    + discriminate.
    + intros (H & _). destruct p0; discriminate.
  - simpl. destruct (Ascii.eqb c sep) eqn:Hc.
    + apply Ascii.eqb_eq in Hc. subst c. split.
      * intro H. injection H as <- H.
        apply split_one in H. destruct H as (-> & Hw). auto.
      * intros (H & Hw0 & Hw1). destruct p0 as [ | c0 p0 ].
        -- simpl in H. injection H as ->.
           assert (Hs : split sep p1 = [p1]) by (apply split_one; auto).
           rewrite Hs. reflexivity.
        -- simpl in H. injection H as <- _.
           rewrite without_cons, Ascii.eqb_refl in Hw0. discriminate.
    + destruct (split sep rest) as [ | piece pieces ] eqn:Hs.
      * exfalso. exact (split_not_nil _ _ Hs).
      * split.
        -- intro H. injection H as <- ->.
           destruct (proj1 (IH piece) eq_refl) as (-> & Hw0 & Hw1).
           rewrite without_cons, Hc. auto.
        -- intros (H & Hw0 & Hw1). destruct p0 as [ | c0 p0 ].
           ++ simpl in H. injection H as -> _.
              rewrite Ascii.eqb_refl in Hc. discriminate.
           ++ simpl in H. injection H as <- ->.
              rewrite without_cons in Hw0.
              apply andb_true_iff in Hw0. destruct Hw0 as (_ & Hw0).
              assert (H : piece :: pieces = [p0; p1]) by (apply IH; auto).
              injection H as -> ->. reflexivity.
Qed.

Lemma datetime_time_ok (h m : Z) (t : time) :
  datetime_time h m = Ok t
  <-> hour t = h /\ minute t = m /\ valid_time t = true.
Proof.
  unfold datetime_time, fits_c_int, valid_time. destruct t as [ th tm ].
  cbn [hour minute]. split.
  - intro H.
    destruct ((-2147483648 <=? h)%Z && (h <=? 2147483647)%Z
              && ((-2147483648 <=? m)%Z && (m <=? 2147483647)%Z));
      [ | discriminate ].
    destruct ((0 <=? h)%Z && (h <=? 23)%Z) eqn:Hh; [ | discriminate ].
    destruct ((0 <=? m)%Z && (m <=? 59)%Z) eqn:Hm; [ | discriminate ].
    injection H as <- <-. rewrite <- andb_assoc, Hh, Hm. auto.
  - intros (-> & -> & Hv).
    rewrite <- andb_assoc in Hv. apply andb_true_iff in Hv.
    destruct Hv as (Hh & Hm). rewrite Hh, Hm.
    apply andb_true_iff in Hh, Hm.
    destruct Hh as (Hh0 & Hh1), Hm as (Hm0 & Hm1).
    apply Z.leb_le in Hh0, Hh1, Hm0, Hm1.
    replace ((-2147483648 <=? h)%Z) with true by (symmetry; apply Z.leb_le; lia).
    replace ((h <=? 2147483647)%Z) with true by (symmetry; apply Z.leb_le; lia).
    replace ((-2147483648 <=? m)%Z) with true by (symmetry; apply Z.leb_le; lia).
    replace ((m <=? 2147483647)%Z) with true by (symmetry; apply Z.leb_le; lia).
    reflexivity.
Qed.

Lemma unpack_hour_minute_ok (int : string -> result Z) (pieces : list string)
      (h m : Z) :
  unpack_hour_minute int pieces = Ok (h, m)
  <-> exists p0 p1, pieces = [p0; p1] /\ int p0 = Ok h /\ int p1 = Ok m.
Proof.
  split.
  - destruct pieces as [ | p0 [ | p1 [ | p2 pieces ] ] ]; simpl.
    + discriminate.
    + destruct (int p0); discriminate.
    + destruct (int p0) as [ h' | ] eqn:H0; [ | discriminate ].
      destruct (int p1) as [ m' | ] eqn:H1; [ | discriminate ].
      simpl. intro H. injection H as <- <-. eauto.
    + destruct (int p0); [ | discriminate ].
      destruct (int p1); [ | discriminate ].
      destruct (int p2); discriminate.
  - intros (p0 & p1 & -> & H0 & H1). simpl. rewrite H0, H1. reflexivity.
Qed.

(** X14.  Whatever [int] reads, [_string_to_time] returns a time of day
    for a text exactly when the text has one colon, [int] reads the part
    before it as the hour and the part after it as the minute, and the two
    make a time of day (an hour up to 23, a minute up to 59); the time is
    that hour and minute.  It never returns [None] for a text, and returns
    [None] when there is no text. *)
Theorem string_to_time_reads_hour_and_minute
        (int : string -> result Z) (text : string) :
  (forall t : time,
      _string_to_time int (Some text) = Ok (Some t)
      <-> exists p0 p1 : string,
          text = (p0 ++ String ":" p1)%string
          /\ without ":" p0 = true /\ without ":" p1 = true
          /\ int p0 = Ok (hour t) /\ int p1 = Ok (minute t)
          /\ valid_time t = true)
  /\ _string_to_time int (Some text) <> Ok None
  /\ _string_to_time int None = Ok None.
Proof.
  split; [ | split; [ | reflexivity ] ].
  - intro t. unfold _string_to_time. split.
    + destruct (unpack_hour_minute int (split ":" text)) as [ [ h m ] | ]
        eqn:Hhm; [ | discriminate ].
      cbn [result_bind fst snd].
      destruct (datetime_time h m) as [ t' | ] eqn:Ht; [ | discriminate ].
      cbn [result_bind]. intro H. injection H as ->.
      apply unpack_hour_minute_ok in Hhm.
      destruct Hhm as (p0 & p1 & Hsplit & H0 & H1).
      apply split_two in Hsplit. destruct Hsplit as (-> & Hw0 & Hw1).
      apply datetime_time_ok in Ht. destruct Ht as (<- & <- & Hv).
      exists p0, p1. auto 10.
    + intros (p0 & p1 & -> & Hw0 & Hw1 & H0 & H1 & Hv).
      assert (Hsplit : split ":" (p0 ++ String ":" p1) = [p0; p1])
        by (apply split_two; auto).
      rewrite Hsplit.
      assert (Hhm : unpack_hour_minute int [p0; p1]
                    = Ok (hour t, minute t))
        by (apply unpack_hour_minute_ok; eauto).
      rewrite Hhm. cbn [result_bind fst snd].
      assert (Ht : datetime_time (hour t) (minute t) = Ok t)
        by (apply datetime_time_ok; auto).
      rewrite Ht. reflexivity.
  - unfold _string_to_time.
    destruct (unpack_hour_minute int (split ":" text)) as [ hm | ];
      [ | discriminate ].
    cbn [result_bind].
    destruct (datetime_time (fst hm) (snd hm)); discriminate.
Qed.

Lemma string_to_time_reads_hour_and_minute_witness :
  _string_to_time int_of_digits (Some "22:30"%string)
  = Ok (Some {| hour := 22; minute := 30 |}).
Proof.
  apply (proj1 (@string_to_time_reads_hour_and_minute int_of_digits
                  "22:30"%string)).
  exists "22"%string, "30"%string. repeat split; reflexivity.
Defined.
